(** * The numeric core of the PZ1 calculator ([src/main.py])

    A shallow embedding of the five request handlers of [main.py]
    ([convert_integer], [convert_fraction], [binary_arithmetic],
    [float_to_ieee754], [ascii_encoder]) together with the Python built-ins
    they call, followed by the properties of the handlers.

    Conventions of the embedding:
    - a Python [str] is the list of its code points ([pystr]);
    - a Python [int] is a [Z] (unbounded);
    - a Python [float] is a binary64 value of the standard library's
      [SpecFloat] (precision 53, [emax] 1024);
    - a handler either returns a value or raises: [res A];
    - request records are the validated pydantic models, so every field
      already has its declared type.
    Two idealisations of the interpreter: its optional limit on the
    number of digits of decimal [int]/[str] conversions
    ([sys.set_int_max_str_digits]) is taken to be switched off, so
    [py_int] and [py_str] are the mathematical conversions; and the C
    library's [pow] is taken to be correctly rounded (see [pow_neg]). *)

From Stdlib Require Import ZArith NArith List Bool Lia String Ascii.
From Stdlib Require Import Floats.SpecFloat.
Import ListNotations.

Local Open Scope N_scope.

(** ** Strings *)

Definition pystr := list N.

(** A string literal as a Python string. *)
Definition lit (s : string) : pystr :=
  List.map N_of_ascii (list_ascii_of_string s).

Fixpoint str_eqb (s t : pystr) : bool :=
  match s, t with
  | [], [] => true
  | c :: s', d :: t' => (c =? d) && str_eqb s' t'
  | _, _ => false
  end.

(** ** Exceptions *)

(** The [detail] texts of the four [HTTPException]s of [main.py]. *)
Inductive detail :=
| OnlyBases_2_8_10_16      (* "Підтримуються тільки бази 2, 8, 10, 16" *)
| BadNumberForBase         (* "Некоректне число для заданої системи числення" *)
| BadFraction              (* "Некоректне дробове число" *)
| BadOperation.            (* "Операція повинна бути 'add', 'sub' або 'mul'" *)

Inductive exn :=
| ValueError
| OverflowError
| ZeroDivisionError
| HTTPException (status_code : Z) (d : detail).

Inductive res (A : Type) :=
| Return (a : A)
| Raise (e : exn).
Arguments Return {A} a.
Arguments Raise {A} e.

Definition bind {A B} (m : res A) (k : A -> res B) : res B :=
  match m with
  | Return a => k a
  | Raise e => Raise e
  end.

Notation "x <- m ;; k" := (bind m (fun x => k))
  (at level 61, m at next level, right associativity).
Notation "' pat <- m ;; k" := (bind m (fun x => match x with pat => k end))
  (at level 61, pat pattern, m at next level, right associativity).

(** [try: body  except ValueError: handler] *)
Definition try_except_ValueError {A} (body handler : res A) : res A :=
  match body with
  | Raise ValueError => handler
  | _ => body
  end.

(** ** The built-in [int(str, base)] *)

Module PyInt.

(** [_PyLong_DigitValue]: the value of a digit character, for 0-9, a-z, A-Z. *)
Definition digit_value (c : N) : option N :=
  if (48 <=? c) && (c <=? 57) then Some (c - 48)          (* '0'..'9' *)
  else if (97 <=? c) && (c <=? 122) then Some (c - 87)    (* 'a'..'z' *)
  else if (65 <=? c) && (c <=? 90) then Some (c - 55)     (* 'A'..'Z' *)
  else None.

(** [Py_ISSPACE]: space, \t, \n, \v, \f, \r. *)
Definition is_space (c : N) : bool :=
  (c =? 32) || ((9 <=? c) && (c <=? 13)).

(** [Py_UNICODE_ISSPACE] on the code points from 127 on. *)
Definition unicode_spaces : list N :=
  [0x85; 0xA0; 0x1680; 0x2000; 0x2001; 0x2002; 0x2003; 0x2004; 0x2005;
   0x2006; 0x2007; 0x2008; 0x2009; 0x200A; 0x2028; 0x2029; 0x202F; 0x205F;
   0x3000].

Definition is_unicode_space (c : N) : bool :=
  existsb (N.eqb c) unicode_spaces.

(** First code points of the runs of ten decimal digits (Unicode 14,
    category Nd): the code point [r + d] has decimal value [d]. *)
Definition decimal_runs : list N :=
  [0x30; 0x660; 0x6F0; 0x7C0; 0x966; 0x9E6; 0xA66; 0xAE6; 0xB66; 0xBE6;
   0xC66; 0xCE6; 0xD66; 0xDE6; 0xE50; 0xED0; 0xF20; 0x1040; 0x1090; 0x17E0;
   0x1810; 0x1946; 0x19D0; 0x1A80; 0x1A90; 0x1B50; 0x1BB0; 0x1C40; 0x1C50;
   0xA620; 0xA8D0; 0xA900; 0xA9D0; 0xA9F0; 0xAA50; 0xABF0; 0xFF10; 0x104A0;
   0x10D30; 0x11066; 0x110F0; 0x11136; 0x111D0; 0x112F0; 0x11450; 0x114D0;
   0x11650; 0x116C0; 0x11730; 0x118E0; 0x11950; 0x11C50; 0x11D50; 0x11DA0;
   0x16A60; 0x16AC0; 0x16B50; 0x1D7CE; 0x1D7D8; 0x1D7E2; 0x1D7EC; 0x1D7F6;
   0x1E140; 0x1E2F0; 0x1E950; 0x1FBF0].

(** [Py_UNICODE_TODECIMAL] *)
Definition unicode_decimal (c : N) : option N :=
  match find (fun r => (r <=? c) && (c <? r + 10)) decimal_runs with
  | Some r => Some (c - r)
  | None => None
  end.

(** [_PyUnicode_TransformDecimalAndSpaceToASCII], one character: code
    points below 127 are kept, a Unicode space becomes a blank, a Unicode
    decimal digit its ASCII digit and anything else '?'. *)
Definition to_ascii (c : N) : N :=
  if c <? 127 then c
  else if is_unicode_space c then 32
  else match unicode_decimal c with
       | Some d => 48 + d
       | None => 63
       end.

Fixpoint skip_space (s : pystr) : pystr :=
  match s with
  | c :: s' => if is_space c then skip_space s' else s
  | [] => []
  end.

(** The digit scan of [long_from_string_base]: digits below [base] and
    single underscores between them.  [prev] is the previous character
    (0 at the start), [acc] the value read so far, [seen] whether a
    character was consumed.  [None] is the underscore error; otherwise the
    value, [seen] and the unread rest. *)
Fixpoint scan (base : N) (s : pystr) (prev acc : N) (seen : bool)
  : option (N * bool * pystr) :=
  let stop := if prev =? 95 then None else Some (acc, seen, s) in
  match s with
  | [] => stop
  | c :: s' =>
      if c =? 95 then
        if prev =? 95 then None else scan base s' c acc true
      else
        match digit_value c with
        | Some d => if d <? base then scan base s' c (acc * base + d) true
                    else stop
        | None => stop
        end
  end.

(** The base named by a literal's prefix when [int] is called with base 0,
    and whether the literal must then denote zero (a leading 0 without a
    prefix). *)
Definition infer_base (s : pystr) : N * bool :=
  match s with
  | c0 :: r =>
      if c0 =? 48 then
        match r with
        | c :: _ =>
            if (c =? 120) || (c =? 88) then (16, false)       (* 0x 0X *)
            else if (c =? 111) || (c =? 79) then (8, false)   (* 0o 0O *)
            else if (c =? 98) || (c =? 66) then (2, false)    (* 0b 0B *)
            else (10, true)
        | [] => (10, true)
        end
      else (10, false)
  | [] => (10, false)
  end.

(** Whether [c0 c] is the prefix 0x, 0o or 0b that agrees with [base]. *)
Definition is_prefix (base c0 c : N) : bool :=
  (c0 =? 48) &&
  (((base =? 16) && ((c =? 120) || (c =? 88)))
   || ((base =? 8) && ((c =? 111) || (c =? 79)))
   || ((base =? 2) && ((c =? 98) || (c =? 66)))).

(** Drops the prefix of [base], and one underscore after it. *)
Definition strip_prefix (base : N) (s : pystr) : pystr :=
  match s with
  | c0 :: c :: s' =>
      if is_prefix base c0 c then
        match s' with
        | u :: s'' => if u =? 95 then s'' else s'
        | [] => s'
        end
      else s
  | _ => s
  end.

(** The sign of a literal and what follows it. *)
Definition split_sign (s : pystr) : bool * pystr :=
  match s with
  | c :: r =>
      if c =? 43 then (false, r)           (* '+' *)
      else if c =? 45 then (true, r)       (* '-' *)
      else (false, s)
  | [] => (false, s)
  end.

Definition starts_with_underscore (s : pystr) : bool :=
  match s with
  | c :: _ => c =? 95
  | [] => false
  end.

(** [PyLong_FromString] on the characters [s] with a base that passed the
    range check. *)
Definition parse (s : pystr) (base : N) : option Z :=
  let s1 := skip_space s in
  let '(neg, s2) := split_sign s1 in
  let '(base', error_if_nonzero) :=
    if base =? 0 then infer_base s2 else (base, false) in
  let s3 := strip_prefix base' s2 in
  if starts_with_underscore s3 then None
  else
    match scan base' s3 0 0 false with
    | None => None
    | Some (v, seen, rest) =>
        if error_if_nonzero && negb (v =? 0) then None
        else if negb seen then None
        else match skip_space rest with
             | [] => Some (if neg then Z.opp (Z.of_N v) else Z.of_N v)
             | _ :: _ => None
             end
    end.

End PyInt.

(** [int(s, base)]: [ValueError] when the base is neither 0 nor in 2..36 or
    when [s] is not a literal of that base. *)
Definition py_int (s : pystr) (base : Z) : res Z :=
  if ((negb (base =? 0)%Z && (base <? 2)%Z) || (36 <? base)%Z)%bool
  then Raise ValueError
  else match PyInt.parse (List.map PyInt.to_ascii s) (Z.to_N base) with
       | Some v => Return v
       | None => Raise ValueError
       end.

(** ** The built-ins [str], [bin], [oct], [hex] on integers *)

(** The character of the digit [d]: '0'..'9', then 'a'.. *)
Definition digit_char (d : N) : N :=
  if d <? 10 then 48 + d else 87 + d.

Fixpoint to_digits_aux (fuel : nat) (base n : N) (acc : pystr) : pystr :=
  match fuel with
  | O => acc
  | S fuel' =>
      let acc' := digit_char (n mod base) :: acc in
      if n / base =? 0 then acc' else to_digits_aux fuel' base (n / base) acc'
  end.

(** The digits of [n] in [base], most significant first, "0" for 0.  A
    number has no more digits than bits. *)
Definition to_digits (base n : N) : pystr :=
  to_digits_aux (S (N.to_nat (N.log2 n))) base n [].

Definition sign_prefix (z : Z) : pystr :=
  if (z <? 0)%Z then lit "-" else [].

Definition py_str (z : Z) : pystr :=
  sign_prefix z ++ to_digits 10 (Z.abs_N z).

Definition py_bin (z : Z) : pystr :=
  sign_prefix z ++ lit "0b" ++ to_digits 2 (Z.abs_N z).

Definition py_oct (z : Z) : pystr :=
  sign_prefix z ++ lit "0o" ++ to_digits 8 (Z.abs_N z).

Definition py_hex (z : Z) : pystr :=
  sign_prefix z ++ lit "0x" ++ to_digits 16 (Z.abs_N z).

(** [s[k:]] *)
Definition slice_from (k : nat) (s : pystr) : pystr := skipn k s.

(** [str.upper] on ASCII letters; it is only applied to the output of
    [hex], which is ASCII. *)
Definition upper_char (c : N) : N :=
  if (97 <=? c) && (c <=? 122) then c - 32 else c.

Definition upper (s : pystr) : pystr := List.map upper_char s.

(** [s.zfill(width)] *)
Definition zfill (width : nat) (s : pystr) : pystr :=
  let fill := repeat 48 (width - List.length s) in
  match s with
  | c :: r => if (c =? 43) || (c =? 45) then c :: fill ++ r else fill ++ s
  | [] => fill
  end.

(** ** [convert_integer] (lines 46-72) *)

Record ConvertIntRequest := {
  ci_number : pystr;       (* number *)
  ci_from_base : Z;        (* from_base *)
  ci_to_base : Z           (* to_base *)
}.

Record ConvertIntResponse := {
  cr_input : pystr;        (* "input" *)
  cr_from_base : Z;        (* "from_base" *)
  cr_to_base : Z;          (* "to_base" *)
  cr_result : pystr;       (* "result" *)
  cr_decimal_value : Z     (* "decimal_value" *)
}.

Definition convert_integer (request : ConvertIntRequest)
  : res ConvertIntResponse :=
  try_except_ValueError
    (decimal_value <- py_int (ci_number request) (ci_from_base request) ;;
     result <-
       (if (ci_to_base request =? 10)%Z then
          Return (py_str decimal_value)
        else if (ci_to_base request =? 2)%Z then
          Return (slice_from 2 (py_bin decimal_value))
        else if (ci_to_base request =? 8)%Z then
          Return (slice_from 2 (py_oct decimal_value))
        else if (ci_to_base request =? 16)%Z then
          Return (upper (slice_from 2 (py_hex decimal_value)))
        else
          Raise (HTTPException 400 OnlyBases_2_8_10_16)) ;;
     Return {| cr_input := ci_number request;
               cr_from_base := ci_from_base request;
               cr_to_base := ci_to_base request;
               cr_result := result;
               cr_decimal_value := decimal_value |})
    (Raise (HTTPException 400 BadNumberForBase)).

(** ** [binary_arithmetic] (lines 130-147) *)

Record ArithmeticRequest := {
  ar_a : Z;                (* a *)
  ar_b : Z;                (* b *)
  ar_operation : pystr     (* operation *)
}.

Record ArithmeticResponse := {
  result_bin : pystr;
  result_dec : Z
}.

Definition binary_arithmetic (request : ArithmeticRequest)
  : res ArithmeticResponse :=
  let a := ar_a request in
  let b := ar_b request in
  res_dec <-
    (if str_eqb (ar_operation request) (lit "add") then Return (a + b)%Z
     else if str_eqb (ar_operation request) (lit "sub") then Return (a - b)%Z
     else if str_eqb (ar_operation request) (lit "mul") then Return (a * b)%Z
     else Raise (HTTPException 400 BadOperation)) ;;
  let res_bin :=
    if (0 <=? res_dec)%Z then slice_from 2 (py_bin res_dec)
    else lit "-" ++ slice_from 2 (py_bin (Z.abs res_dec)) in
  Return {| result_bin := res_bin; result_dec := res_dec |}.

(** ** [ascii_encoder] (lines 166-180) *)

Record AsciiEntry := {
  ae_char : N;             (* "char" *)
  ae_dec : Z;              (* "dec" *)
  ae_hex : pystr;          (* "hex" *)
  ae_bin : pystr           (* "bin" *)
}.

(** [ord] *)
Definition ord (c : N) : Z := Z.of_N c.

Definition ascii_entry (char : N) : AsciiEntry :=
  let code := ord char in
  {| ae_char := char;
     ae_dec := code;
     ae_hex := upper (slice_from 2 (py_hex code));
     ae_bin := zfill 8 (slice_from 2 (py_bin code)) |}.

Record ASCIIRequest := {
  aq_text : pystr          (* text *)
}.

Record ASCIIResponse := {
  data : list AsciiEntry   (* "data" *)
}.

(** The loop over [request.text] appends one entry per character. *)
Definition ascii_encoder (request : ASCIIRequest) : ASCIIResponse :=
  {| data := List.map ascii_entry (aq_text request) |}.

(** ** Floats *)

Module PyFloat.

Local Open Scope Z_scope.

(** binary64 *)
Definition prec := 53.
Definition emax := 1024.

Definition float := spec_float.

Definition zero : float := S754_zero false.       (* 0.0 *)

Definition add : float -> float -> float := SFadd prec emax.
Definition sub : float -> float -> float := SFsub prec emax.
Definition mul : float -> float -> float := SFmul prec emax.

(** The conversion of an [int] operand of a mixed [int]/[float] operation
    ([PyLong_AsDouble]): round to nearest, ties to even;
    [OverflowError] when the rounded value is out of range. *)
Definition of_int (z : Z) : res float :=
  match binary_normalize prec emax z 0 false with
  | S754_infinity _ => Raise OverflowError
  | x => Return x
  end.

(** [int(x)]: truncation towards zero. *)
Definition to_int (x : float) : res Z :=
  match x with
  | S754_zero _ => Return 0
  | S754_infinity _ => Raise OverflowError
  | S754_nan => Raise ValueError
  | S754_finite s m e =>
      let v := Z.shiftl (Zpos m) e in
      Return (if s then - v else v)
  end.

(** [x == 0] *)
Definition eq_zero (x : float) : bool :=
  match x with
  | S754_zero _ => true
  | _ => false
  end.

(** [b ** -k] for integers [b] and [k > 0], which Python computes as the
    float power [pow(float(b), float(-k))]: [ZeroDivisionError] for
    [b = 0].  The C library's [pow] is taken to be correctly rounded: the
    result is the double nearest to [1 / b^k] (with the sign of [b^k]),
    obtained from the exact integer [|b|^k] by the division core of
    [SpecFloat].  The bases that reach this point passed the range check
    of [int], so [float(b)] is exact. *)
Definition pow_neg (b k : Z) : res float :=
  if b =? 0 then Raise ZeroDivisionError
  else
    let '(q, e, l) := SFdiv_core_binary prec emax 1 0 (Z.abs b ^ k) 0 in
    Return (binary_round_aux prec emax ((b <? 0) && Z.odd k) q e l).

End PyFloat.

(** [chr(i)]: [OverflowError] outside the range of a C [int], [ValueError]
    outside [range(0x110000)]. *)
Definition py_chr (i : Z) : res N :=
  if ((i <? - 2 ^ 31) || (2 ^ 31 - 1 <? i))%Z then Raise OverflowError
  else if ((0 <=? i) && (i <? 0x110000))%Z then Return (Z.to_N i)
  else Raise ValueError.

(** ** [convert_fraction] (lines 74-128) *)

Record ConvertFractionRequest := {
  cf_number : pystr;       (* number *)
  cf_from_base : Z;        (* from_base *)
  cf_to_base : Z;          (* to_base *)
  cf_precision : Z         (* precision *)
}.

(** The value under "result": a string, or [str(x)] of a float [x] in the
    branch for base 10 (the decimal form of a float is left symbolic). *)
Inductive FractionResult :=
| ResultText (s : pystr)
| ResultStrOfFloat (x : PyFloat.float).

(** [s.replace(',', '.')] *)
Definition replace_comma (s : pystr) : pystr :=
  List.map (fun c => if c =? 44 then 46 else c) s.

(** ['.' in s] *)
Definition has_dot (s : pystr) : bool := existsb (N.eqb 46) s.

(** [s.split('.')] *)
Fixpoint split_dot (s : pystr) : list pystr :=
  match s with
  | [] => [[]]
  | c :: s' =>
      if c =? 46 then [] :: split_dot s'
      else match split_dot s' with
           | p :: ps => (c :: p) :: ps
           | [] => [[c]]
           end
  end.

(** The first loop (lines 91-93):
    [dec_frac += val * (from_base ** -(i + 1))] over
    [enumerate(fraction_part)], from index [i] on. *)
Fixpoint accumulate (from_base : Z) (fraction_part : pystr) (i : Z)
  (dec_frac : PyFloat.float) : res PyFloat.float :=
  match fraction_part with
  | [] => Return dec_frac
  | digit :: rest =>
      val <- py_int [digit] from_base ;;
      p <- PyFloat.pow_neg from_base (i + 1) ;;
      fval <- PyFloat.of_int val ;;
      accumulate from_base rest (i + 1)
        (PyFloat.add dec_frac (PyFloat.mul fval p))
  end.

(** [current_frac *= to_base; digit = int(current_frac)] (lines 113-114) *)
Definition next_digit (to_base : Z) (current_frac : PyFloat.float)
  : res (Z * PyFloat.float) :=
  fb <- PyFloat.of_int to_base ;;
  let current_frac := PyFloat.mul current_frac fb in
  digit <- PyFloat.to_int current_frac ;;
  Return (digit, current_frac).

(** The text appended to [res_frac] for [digit] (lines 116-119). *)
Definition digit_text (digit : Z) : res pystr :=
  if (10 <=? digit)%Z then
    c <- py_chr (Z.of_N 65 + digit - 10) ;;       (* ord('A') + digit - 10 *)
    Return [c]
  else Return (py_str digit).

(** [current_frac -= digit] (line 121) *)
Definition remainder (current_frac : PyFloat.float) (digit : Z)
  : res PyFloat.float :=
  fd <- PyFloat.of_int digit ;;
  Return (PyFloat.sub current_frac fd).

(** The second loop (lines 112-123), with [n] iterations of
    [range(precision)] left. *)
Fixpoint frac_loop (n : nat) (to_base : Z) (res_frac : pystr)
  (current_frac : PyFloat.float) : res pystr :=
  match n with
  | O => Return res_frac
  | S n' =>
      '(digit, current_frac) <- next_digit to_base current_frac ;;
      t <- digit_text digit ;;
      let res_frac := res_frac ++ t in
      current_frac <- remainder current_frac digit ;;
      if PyFloat.eq_zero current_frac then Return res_frac
      else frac_loop n' to_base res_frac current_frac
  end.

(** [parts] has at least two elements (lemma [parts_defined] below), so
    [parts[0]] and [parts[1]] never raise. *)
Definition convert_fraction (request : ConvertFractionRequest)
  : res FractionResult :=
  let num_str := replace_comma (cf_number request) in
  let num_str := if has_dot num_str then num_str else num_str ++ lit ".0" in
  let parts := split_dot num_str in
  let integer_part := nth 0 parts [] in
  let fraction_part := nth 1 parts [] in
  let from_base := cf_from_base request in
  let to_base := cf_to_base request in
  try_except_ValueError
    (dec_int <- py_int integer_part from_base ;;
     dec_frac <- accumulate from_base fraction_part 0 PyFloat.zero ;;
     fint <- PyFloat.of_int dec_int ;;
     let full_decimal := PyFloat.add fint dec_frac in
     if (to_base =? 10)%Z then Return (ResultStrOfFloat full_decimal)
     else
       let res_int :=
         if (to_base =? 2)%Z then slice_from 2 (py_bin dec_int)
         else if (to_base =? 8)%Z then slice_from 2 (py_oct dec_int)
         else if (to_base =? 16)%Z then upper (slice_from 2 (py_hex dec_int))
         else py_str dec_int in
       res_frac <- frac_loop (Z.to_nat (cf_precision request)) to_base []
                     dec_frac ;;
       Return (ResultText (res_int ++ lit "." ++ res_frac)))
    (Raise (HTTPException 400 BadFraction)).

(** ** [float_to_ieee754] (lines 150-164) *)

Module Struct.

Local Open Scope Z_scope.

(** The 32 bits of a binary32 value: sign, biased exponent, fraction.  A
    NaN is the quiet NaN 7FC00000 (the model of floats keeps neither the sign
    nor the payload of a NaN). *)
Definition bits32 (y : spec_float) : Z :=
  match y with
  | S754_zero s => if s then 2 ^ 31 else 0
  | S754_infinity s => (if s then 2 ^ 31 else 0) + 255 * 2 ^ 23
  | S754_nan => 255 * 2 ^ 23 + 2 ^ 22
  | S754_finite s m e =>
      (if s then 2 ^ 31 else 0) +
      (if 2 ^ 23 <=? Zpos m then (e + 150) * 2 ^ 23 + (Zpos m - 2 ^ 23)
       else Zpos m)
  end.

(** [(float)x]: the binary32 value nearest to a double. *)
Definition to_single (x : spec_float) : spec_float :=
  match x with
  | S754_finite s m e => binary_round 24 128 s m e
  | _ => x
  end.

(** [struct.pack('!f', x)]: the four bytes, most significant first;
    [OverflowError] when a finite [x] rounds to an infinity. *)
Definition pack_f (x : spec_float) : res (list N) :=
  let y := to_single x in
  match x, y with
  | S754_finite _ _ _, S754_infinity _ => Raise OverflowError
  | _, _ =>
      let w := bits32 y in
      Return [Z.to_N (w / 2 ^ 24); Z.to_N ((w / 2 ^ 16) mod 256);
              Z.to_N ((w / 2 ^ 8) mod 256); Z.to_N (w mod 256)]
  end.

End Struct.

(** [f'{b:08b}'] for a byte [b] *)
Definition format_08b (b : N) : pystr := zfill 8 (to_digits 2 b).

(** [bytes.hex()] *)
Definition bytes_hex (bs : list N) : pystr :=
  List.concat (List.map (fun b => zfill 2 (to_digits 16 b)) bs).

Record IEEE754Response := {
  binary : pystr;          (* "binary" *)
  hex : pystr              (* "hex" *)
}.

Record IEEE754Request := {
  iq_number : PyFloat.float   (* number *)
}.

Definition float_to_ieee754 (request : IEEE754Request)
  : res IEEE754Response :=
  packed <- Struct.pack_f (iq_number request) ;;
  let integers := packed in
  let binary_str := List.concat (List.map format_08b integers) in
  let hex_str := upper (bytes_hex packed) in
  Return {| binary := firstn 1 binary_str ++ lit " " ++
                      firstn 8 (skipn 1 binary_str) ++ lit " " ++
                      skipn 9 binary_str;
            hex := hex_str |}.

(** * Vocabulary of the properties *)

(** ** Digit strings *)

(** The value of a digit character, 0 for any other character. *)
Definition dv (c : N) : N :=
  match PyInt.digit_value c with
  | Some d => d
  | None => 0
  end.

(** A character that is a digit of [base]. *)
Definition valid_digit (base c : N) : bool :=
  match PyInt.digit_value c with
  | Some d => d <? base
  | None => false
  end.

(** A non-empty string of digits of [base]: no sign, blank, prefix or
    underscore. *)
Definition is_digit_string (base : N) (s : pystr) : bool :=
  match s with
  | [] => false
  | _ :: _ => forallb (valid_digit base) s
  end.

(** The number a digit string denotes in [base]. *)
Definition digits_value (base : N) (s : pystr) : N :=
  fold_left (fun acc c => acc * base + dv c) s 0.

(** A string without its leading zeros, "0" when nothing else is left. *)
Fixpoint strip_zeros (s : pystr) : pystr :=
  match s with
  | [] => []
  | c :: s' =>
      if c =? 48 then
        match s' with
        | [] => [48]
        | _ :: _ => strip_zeros s'
        end
      else s
  end.


(** [s] is the digit string of [n] in [base]: digits of [base] only, of
    value [n], and no leading zero unless [s] is "0". *)
Definition digit_string_of (base : N) (s : pystr) (n : N) : Prop :=
  is_digit_string base s = true /\ digits_value base s = n /\
  strip_zeros s = s.

(** The bases the handlers are documented to support. *)
Definition supported (b : Z) : Prop := In b [2; 8; 10; 16]%Z.

(** The operations of [binary_arithmetic]. *)
Definition operations : list pystr := [lit "add"; lit "sub"; lit "mul"].

(** ** Doubles *)

Section FloatVocabulary.

Local Open Scope Z_scope.

(** The doubles 1.0 and 0.5 *)
Definition float_one : PyFloat.float := S754_finite false (2 ^ 52) (-52).
Definition float_half : PyFloat.float := S754_finite false (2 ^ 52) (-53).

(** The exponent of the format of binary64 for a number of magnitude
    [2^e]: [fexp] of [SpecFloat] at precision 53 and [emax] 1024. *)
Definition fexp64 (e : Z) : Z := Z.max (e - 53) (-1074).

(** [m / 2^k] rounded to the nearest integer, ties to even; [m] itself
    for [k <= 0]. *)
Definition rne (m k : Z) : Z :=
  if k <=? 0 then m
  else
    let q := m / 2 ^ k in
    let r := m mod 2 ^ k in
    let h := 2 ^ (k - 1) in
    if r <? h then q
    else if h <? r then q + 1
    else if Z.even q then q else q + 1.

(** The mantissa of the double nearest to [m * 2^e], at the exponent [t]
    of its format. *)
Definition round_mant (m e t : Z) : Z :=
  if t <? e then m * 2 ^ (e - t) else rne m (t - e).

(** The float of sign [s] and value [q * 2^t] when [q] is at most [2^53]. *)
Definition mk_float (s : bool) (q t : Z) : spec_float :=
  if q =? 0 then S754_zero s
  else if q =? 2 ^ 53 then
    if t + 1 <=? 971 then S754_finite s (2 ^ 52) (t + 1) else S754_infinity s
  else
    if t <=? 971 then S754_finite s (Z.to_pos q) t else S754_infinity s.

(** The second stage of [binary_round_aux]. *)
Definition finish (s : bool) (q t : Z) : spec_float :=
  let '(mrs, e) := shr_fexp PyFloat.prec PyFloat.emax q t loc_Exact in
  match shr_m mrs with
  | Z0 => S754_zero s
  | Zpos m => if e <=? PyFloat.emax - PyFloat.prec then S754_finite s m e
              else S754_infinity s
  | Zneg _ => S754_nan
  end.

(** Order on the dyadic numbers [m * 2^e]. *)
Definition dy_le (m1 e1 m2 e2 : Z) : Prop :=
  m1 * 2 ^ (e1 - Z.min e1 e2) <= m2 * 2 ^ (e2 - Z.min e1 e2).

Definition dy_lt (m1 e1 m2 e2 : Z) : Prop :=
  m1 * 2 ^ (e1 - Z.min e1 e2) < m2 * 2 ^ (e2 - Z.min e1 e2).

(** The greatest double below [F * 2^ef], for a normal mantissa [F]. *)
Definition pred_mant (F : Z) : Z := if F =? 2 ^ 52 then 2 ^ 53 - 1 else F - 1.
Definition pred_exp (F ef : Z) : Z := if F =? 2 ^ 52 then ef - 1 else ef.

(** A double in [0, 1). *)
Definition in_unit (x : PyFloat.float) : bool :=
  valid_binary PyFloat.prec PyFloat.emax x &&
  match x with
  | S754_zero _ => true
  | S754_finite false m e => (e <? 0) && (Zpos m <? 2 ^ (- e))
  | _ => false
  end.

(** The character of a digit in the output of [convert_fraction]:
    '0'..'9', then 'A'.. *)
Definition digit_symbol (d : Z) : N := upper_char (digit_char (Z.to_N d)).

End FloatVocabulary.

(** ** Separators *)

(** The separators of [convert_fraction]: "," and ".". *)
Definition is_sep (c : N) : bool := (c =? 44) || (c =? 46).

(** A string without a separator. *)
Definition no_sep (s : pystr) : bool := forallb (fun c => negb (is_sep c)) s.

(** The exceptions of the arithmetic of [convert_fraction]. *)
Definition arithmetic_exn (e : exn) : Prop :=
  e = ValueError \/ e = OverflowError \/ e = ZeroDivisionError.

(** ** Singles *)

Section SingleVocabulary.

Local Open Scope Z_scope.

(** The exponent of the format of binary32 for a number of magnitude
    [2^e]: [fexp] of [SpecFloat] at precision 24 and [emax] 128. *)
Definition fexp32 (e : Z) : Z := Z.max (e - 24) (-149).

(** The single of sign [s] and value [q * 2^t] when [q] is at most
    [2^24]. *)
Definition mk_float32 (s : bool) (q t : Z) : spec_float :=
  if q =? 0 then S754_zero s
  else if q =? 2 ^ 24 then
    if t + 1 <=? 104 then S754_finite s (2 ^ 23) (t + 1) else S754_infinity s
  else
    if t <=? 104 then S754_finite s (Z.to_pos q) t else S754_infinity s.

(** The second stage of [binary_round_aux] at the precision of
    binary32. *)
Definition finish32 (s : bool) (q t : Z) : spec_float :=
  let '(mrs, e) := shr_fexp 24 128 q t loc_Exact in
  match shr_m mrs with
  | Z0 => S754_zero s
  | Zpos m => if e <=? 128 - 24 then S754_finite s m e
              else S754_infinity s
  | Zneg _ => S754_nan
  end.

(** The three fields of the 32 bits of a single. *)
Definition sign_field (y : spec_float) : Z :=
  match y with
  | S754_zero s | S754_infinity s | S754_finite s _ _ => if s then 1 else 0
  | S754_nan => 0
  end.

Definition exponent_field (y : spec_float) : Z :=
  match y with
  | S754_zero _ => 0
  | S754_infinity _ | S754_nan => 255
  | S754_finite _ m e => if 2 ^ 23 <=? Zpos m then e + 150 else 0
  end.

Definition fraction_field (y : spec_float) : Z :=
  match y with
  | S754_zero _ | S754_infinity _ => 0
  | S754_nan => 2 ^ 22
  | S754_finite _ m e => if 2 ^ 23 <=? Zpos m then Zpos m - 2 ^ 23 else Zpos m
  end.

End SingleVocabulary.

(** The [k] low digits of [n] in [base], most significant first. *)
Fixpoint fixed (base : N) (k : nat) (n : N) : pystr :=
  match k with
  | O => []
  | S k' => fixed base k' (n / base) ++ [digit_char (n mod base)]
  end.

(** ** Fractions in base 2, 8 and 16 *)

Section FractionVocabulary.

Local Open Scope Z_scope.

(** The numerator of a double in [0, 1) over [2^1074]: every such
    double is a multiple of [2^-1074]. *)
Definition unit_num (x : PyFloat.float) : Z :=
  match x with
  | S754_finite _ m e => Zpos m * 2 ^ (e + 1074)
  | _ => 0
  end.

(** The first digits in base [D] of the fraction [N / 2^1074]: at most
    [n] of them, up to the last non-zero one, and at least one. *)
Fixpoint base_digits (n : nat) (D N : Z) : list Z :=
  match n with
  | O => []
  | S n' =>
      (D * N) / 2 ^ 1074 ::
      (if (D * N) mod 2 ^ 1074 =? 0 then []
       else base_digits n' D ((D * N) mod 2 ^ 1074))
  end.

(** The number written by the digits [ds] in base [D], most significant
    first. *)
Definition digits_num (D : Z) (ds : list Z) : Z :=
  fold_left (fun acc d => acc * D + d) ds 0.

End FractionVocabulary.

(** * Properties *)

(** ** The embedding on the examples of the specification *)

Example convert_integer_FF_10 :
  convert_integer
    {| ci_number := lit "FF"; ci_from_base := 16; ci_to_base := 10 |}
  = Return {| cr_input := lit "FF"; cr_from_base := 16; cr_to_base := 10;
              cr_result := lit "255"; cr_decimal_value := 255 |}.
Proof. vm_compute. reflexivity. Qed.

Example convert_integer_FF_2 :
  convert_integer
    {| ci_number := lit "FF"; ci_from_base := 16; ci_to_base := 2 |}
  = Return {| cr_input := lit "FF"; cr_from_base := 16; cr_to_base := 2;
              cr_result := lit "11111111"; cr_decimal_value := 255 |}.
Proof. vm_compute. reflexivity. Qed.

Example convert_integer_G_16 :
  convert_integer
    {| ci_number := lit "G"; ci_from_base := 16; ci_to_base := 2 |}
  = Raise (HTTPException 400 BadNumberForBase).
Proof. vm_compute. reflexivity. Qed.

Example convert_integer_2_2 :
  convert_integer
    {| ci_number := lit "2"; ci_from_base := 2; ci_to_base := 10 |}
  = Raise (HTTPException 400 BadNumberForBase).
Proof. vm_compute. reflexivity. Qed.

Example convert_integer_to_base_3 :
  convert_integer
    {| ci_number := lit "12"; ci_from_base := 10; ci_to_base := 3 |}
  = Raise (HTTPException 400 OnlyBases_2_8_10_16).
Proof. vm_compute. reflexivity. Qed.

Example ascii_encoder_A :
  ascii_encoder {| aq_text := lit "A" |}
  = {| data := [{| ae_char := 65; ae_dec := 65; ae_hex := lit "41";
                   ae_bin := lit "01000001" |}] |}.
Proof. vm_compute. reflexivity. Qed.

(** [int] on literals that are more than digits. *)
Example py_int_literals :
  py_int (lit " -0x_1f ") 16 = Return (-31)%Z /\
  py_int (lit "1_000") 10 = Return 1000%Z /\
  py_int (lit "0b101") 0 = Return 5%Z /\
  py_int (lit "010") 0 = Raise ValueError /\
  py_int (lit "1__0") 10 = Raise ValueError /\
  py_int (lit "") 10 = Raise ValueError /\
  py_int (lit "z") 36 = Return 35%Z /\
  py_int (lit "1") 37 = Raise ValueError /\
  py_int [0x663; 0x664] 10 = Return 34%Z.      (* Arabic-Indic digits 3, 4 *)
Proof. repeat split; vm_compute; reflexivity. Qed.

(** ** Printing digits *)

Lemma to_digits_aux_S fuel base n acc :
  to_digits_aux (S fuel) base n acc =
  if n / base =? 0 then digit_char (n mod base) :: acc
  else to_digits_aux fuel base (n / base) (digit_char (n mod base) :: acc).
Proof. reflexivity. Qed.

Section Digits.

Variable base : N.
Hypothesis base_ge_2 : 2 <= base.

Lemma to_digits_aux_acc fuel : forall n acc,
  to_digits_aux fuel base n acc = to_digits_aux fuel base n [] ++ acc.
Proof.
  induction fuel as [|f IH]; intros n acc; [reflexivity|].
  rewrite !to_digits_aux_S.
  destruct (n / base =? 0); [reflexivity|].
  rewrite IH, (IH _ [_]), <- app_assoc. reflexivity.
Qed.

Lemma div_base_lt n k : n < 2 * k -> n / base < k.
Proof.
  intro H. apply N.Div0.div_lt_upper_bound. nia.
Qed.

Lemma to_digits_aux_fuel f1 : forall f2 n acc,
  n < 2 ^ N.of_nat (S f1) -> n < 2 ^ N.of_nat (S f2) ->
  to_digits_aux (S f1) base n acc = to_digits_aux (S f2) base n acc.
Proof.
  induction f1 as [|f1 IH]; intros f2 n acc H1 H2.
  - change (2 ^ N.of_nat 1) with 2 in H1.
    assert (E : n / base = 0) by (apply N.div_small; lia).
    rewrite !to_digits_aux_S, E. reflexivity.
  - rewrite (to_digits_aux_S (S f1)), (to_digits_aux_S f2).
    destruct (n / base =? 0) eqn:E; [reflexivity|].
    rewrite Nat2N.inj_succ, N.pow_succ_r' in H1.
    destruct f2 as [|f2].
    + change (2 ^ N.of_nat 1) with 2 in H2.
      rewrite N.div_small in E by lia. discriminate.
    + rewrite Nat2N.inj_succ, N.pow_succ_r' in H2.
      apply IH; apply div_base_lt; assumption.
Qed.

Lemma lt_pow2_log2 n : n < 2 ^ N.of_nat (S (N.to_nat (N.log2 n))).
Proof.
  rewrite Nat2N.inj_succ, N2Nat.id.
  destruct n as [|p]; [reflexivity|].
  apply N.log2_spec. reflexivity.
Qed.

Lemma to_digits_small n : n < base -> to_digits base n = [digit_char n].
Proof.
  intro H. unfold to_digits. rewrite to_digits_aux_S.
  rewrite N.div_small, N.mod_small by assumption. reflexivity.
Qed.

Lemma to_digits_step n :
  base <= n ->
  to_digits base n = to_digits base (n / base) ++ [digit_char (n mod base)].
Proof.
  intro H. unfold to_digits at 1. rewrite to_digits_aux_S.
  assert (Hq : 0 < n / base).
  { apply N.div_str_pos. lia. }
  destruct (N.eqb_spec (n / base) 0) as [E|_]; [lia|].
  assert (Hlog : 1 <= N.log2 n).
  { change 1 with (N.log2 2). apply N.log2_le_mono. lia. }
  destruct (N.to_nat (N.log2 n)) as [|k] eqn:Ek; [lia|].
  rewrite to_digits_aux_acc. f_equal.
  apply to_digits_aux_fuel.
  - apply div_base_lt. rewrite <- N.pow_succ_r', <- Nat2N.inj_succ, <- Ek.
    apply lt_pow2_log2.
  - apply lt_pow2_log2.
Qed.

End Digits.

(** Case analysis on the comparisons of a goal about characters. *)
Ltac char_cases :=
  repeat (match goal with
          | |- context [N.leb ?a ?b] => destruct (N.leb_spec a b)
          | |- context [N.ltb ?a ?b] => destruct (N.ltb_spec a b)
          | |- context [N.eqb ?a ?b] => destruct (N.eqb_spec a b)
          end; cbn [andb orb negb]).

Lemma digit_value_upper c :
  PyInt.digit_value (upper_char c) = PyInt.digit_value c.
Proof.
  unfold upper_char. char_cases; try reflexivity.
  unfold PyInt.digit_value.
  char_cases; try reflexivity; try lia; f_equal; lia.
Qed.

Lemma digit_value_digit_char d :
  d < 36 -> PyInt.digit_value (digit_char d) = Some d.
Proof.
  intro H. unfold digit_char. char_cases; unfold PyInt.digit_value;
    char_cases; try lia; f_equal; lia.
Qed.

Lemma digit_char_nonzero d : 0 < d -> digit_char d <> 48.
Proof. unfold digit_char. char_cases; lia. Qed.

Lemma valid_digit_spec base c :
  valid_digit base c = true ->
  PyInt.digit_value c = Some (dv c) /\ dv c < base /\ c < 127 /\
  c <> 95 /\ c <> 43 /\ c <> 45 /\ PyInt.is_space c = false.
Proof.
  unfold valid_digit, dv, PyInt.is_space, PyInt.digit_value.
  char_cases; intro Hv; try discriminate;
    repeat split; try reflexivity; try lia.
Qed.

Lemma valid_digit_zero base c :
  valid_digit base c = true -> dv c = 0 -> c = 48.
Proof.
  unfold valid_digit, dv, PyInt.digit_value.
  char_cases; intros Hv E; try discriminate; lia.
Qed.


Lemma valid_digit_upper base c :
  valid_digit base (upper_char c) = valid_digit base c.
Proof. unfold valid_digit. rewrite digit_value_upper. reflexivity. Qed.

Lemma dv_upper c : dv (upper_char c) = dv c.
Proof. unfold dv. rewrite digit_value_upper. reflexivity. Qed.

Lemma digits_value_snoc base s c :
  digits_value base (s ++ [c]) = digits_value base s * base + dv c.
Proof. unfold digits_value. rewrite fold_left_app. reflexivity. Qed.

Lemma fold_digits_upper base s : forall acc,
  fold_left (fun acc c => acc * base + dv c) (upper s) acc =
  fold_left (fun acc c => acc * base + dv c) s acc.
Proof.
  induction s as [|c s IH]; intro acc; [reflexivity|].
  cbn [upper List.map fold_left]. rewrite dv_upper. apply IH.
Qed.

Lemma digits_value_upper base s :
  digits_value base (upper s) = digits_value base s.
Proof. apply fold_digits_upper. Qed.

Lemma forallb_valid_upper base s :
  forallb (valid_digit base) (upper s) = forallb (valid_digit base) s.
Proof.
  induction s as [|c s IH]; [reflexivity|].
  cbn [upper List.map forallb]. rewrite valid_digit_upper.
  f_equal. apply IH.
Qed.

Lemma is_digit_string_upper base s :
  is_digit_string base (upper s) = is_digit_string base s.
Proof.
  destruct s as [|c s]; [reflexivity|].
  apply (forallb_valid_upper base (c :: s)).
Qed.

Lemma is_digit_string_forallb base s :
  is_digit_string base s = true -> forallb (valid_digit base) s = true.
Proof. destruct s; [discriminate | exact (fun H => H)]. Qed.

Lemma is_digit_string_snoc base s c :
  is_digit_string base s = true -> valid_digit base c = true ->
  is_digit_string base (s ++ [c]) = true.
Proof.
  intros Hs Hc. destruct s as [|x s]; [discriminate|].
  cbn [is_digit_string] in Hs. change ((x :: s) ++ [c]) with (x :: s ++ [c]).
  cbn [is_digit_string]. change (x :: s ++ [c]) with ((x :: s) ++ [c]).
  rewrite forallb_app, Hs. cbn. rewrite Hc. reflexivity.
Qed.

Lemma strip_zeros_length s :
  (List.length (strip_zeros s) <= List.length s)%nat.
Proof.
  induction s as [|x s IHs]; [apply le_n|].
  cbn [strip_zeros]. destruct (x =? 48); [|apply le_n].
  destruct s; [apply le_n|]. cbn [List.length] in *. lia.
Qed.



Section DigitsOfBase.

Variable base : N.
Hypothesis base_ge_2 : 2 <= base.
Hypothesis base_le_36 : base <= 36.


(** The digits produced for [n] are digits of [base], denote [n] and
    start with a zero only for 0. *)
Lemma to_digits_correct n : digit_string_of base (to_digits base n) n.
Proof.
  induction n as [n IH] using (well_founded_induction N.lt_wf_0).
  destruct (N.lt_ge_cases n base) as [Hn|Hn].
  - rewrite to_digits_small by assumption.
    unfold digit_string_of, is_digit_string, digits_value, valid_digit, dv.
    cbn [forallb fold_left strip_zeros].
    rewrite digit_value_digit_char by lia.
    split; [|split].
    + apply andb_true_iff. split; [apply N.ltb_lt; assumption | reflexivity].
    + lia.
    + destruct (N.eqb_spec (digit_char n) 48) as [->|]; reflexivity.
  - rewrite to_digits_step by assumption.
    assert (Hq : 0 < n / base) by (apply N.div_str_pos; lia).
    assert (Hlt : n / base < n) by (apply N.div_lt; lia).
    assert (Hr : n mod base < base) by (apply N.mod_lt; lia).
    destruct (IH _ Hlt) as (Hd & Hv & Hz).
    unfold digit_string_of. split; [|split].
    + apply is_digit_string_snoc; [exact Hd|].
      unfold valid_digit. rewrite digit_value_digit_char by lia.
      apply N.ltb_lt. assumption.
    + rewrite digits_value_snoc, Hv. unfold dv.
      rewrite digit_value_digit_char by lia.
      rewrite (N.div_mod n base) at 3 by lia. lia.
    + destruct (to_digits base (n / base)) as [|c r] eqn:E; [discriminate|].
      cbn [app strip_zeros] in *.
      destruct (N.eqb_spec c 48) as [->|_]; [|reflexivity].
      exfalso. destruct r as [|c' r].
      * unfold digits_value in Hv. cbn in Hv. lia.
      * pose proof (strip_zeros_length (c' :: r)) as L.
        rewrite Hz in L. cbn [List.length] in L. lia.
Qed.




End DigitsOfBase.

(** ** [int] on digit strings *)

Lemma is_prefix_not_digit base c0 c :
  valid_digit base c = true -> PyInt.is_prefix base c0 c = false.
Proof.
  intro Hv. destruct (PyInt.is_prefix base c0 c) eqn:E; [|reflexivity].
  exfalso. unfold PyInt.is_prefix in E.
  revert Hv E. char_cases; intros Hv E; try discriminate E; try lia; subst;
    try lia; vm_compute in Hv; discriminate Hv.
Qed.

Section ParseDigits.

Variable base : N.
Hypothesis base_ge_2 : 2 <= base.
Hypothesis base_le_36 : base <= 36.

Lemma map_to_ascii_valid s :
  forallb (valid_digit base) s = true -> List.map PyInt.to_ascii s = s.
Proof.
  induction s as [|c s IH]; [reflexivity|].
  cbn [forallb List.map]. intro H.
  apply andb_true_iff in H. destruct H as [Hc Hs].
  destruct (valid_digit_spec _ _ Hc) as (_ & _ & Hlt & _).
  rewrite IH by assumption. unfold PyInt.to_ascii.
  apply N.ltb_lt in Hlt. rewrite Hlt. reflexivity.
Qed.

Lemma scan_valid s : forall prev acc seen,
  forallb (valid_digit base) s = true -> prev <> 95 ->
  PyInt.scan base s prev acc seen =
  Some (fold_left (fun acc c => acc * base + dv c) s acc,
        match s with [] => seen | _ :: _ => true end, []).
Proof.
  induction s as [|c s IH]; intros prev acc seen Hs Hprev.
  - cbn. apply N.eqb_neq in Hprev. rewrite Hprev. reflexivity.
  - cbn [forallb] in Hs. apply andb_true_iff in Hs. destruct Hs as [Hc Hs].
    destruct (valid_digit_spec _ _ Hc) as (Hd & Hlt & _ & Hu & _).
    cbn [PyInt.scan fold_left].
    apply N.eqb_neq in Hu. rewrite Hu, Hd.
    apply N.ltb_lt in Hlt. rewrite Hlt.
    rewrite IH by (assumption || (apply N.eqb_neq; assumption)).
    destruct s; reflexivity.
Qed.

Lemma parse_digit_string s :
  is_digit_string base s = true ->
  PyInt.parse s base = Some (Z.of_N (digits_value base s)).
Proof.
  destruct s as [|c s]; [discriminate|].
  intro H. cbn [is_digit_string] in H.
  pose proof H as Hall.
  cbn [forallb] in H. apply andb_true_iff in H. destruct H as [Hc Hs].
  destruct (valid_digit_spec _ _ Hc) as (_ & _ & _ & Hu & Hp & Hm & Hsp).
  unfold PyInt.parse. cbn [PyInt.skip_space]. rewrite Hsp.
  unfold PyInt.split_sign.
  apply N.eqb_neq in Hu, Hp, Hm. rewrite Hp, Hm.
  assert (Eb : (base =? 0) = false) by (apply N.eqb_neq; lia).
  rewrite Eb.
  assert (Ep : PyInt.strip_prefix base (c :: s) = c :: s).
  { destruct s as [|c' s]; [reflexivity|].
    cbn [PyInt.strip_prefix]. rewrite is_prefix_not_digit; [reflexivity|].
    cbn [forallb] in Hs. apply andb_true_iff in Hs. apply Hs. }
  rewrite Ep. cbn [PyInt.starts_with_underscore]. rewrite Hu.
  rewrite scan_valid by (assumption || discriminate).
  reflexivity.
Qed.

Lemma py_int_digit_string s :
  is_digit_string base s = true ->
  py_int s (Z.of_N base) = Return (Z.of_N (digits_value base s)).
Proof.
  intro H. unfold py_int.
  assert (E : ((negb (Z.of_N base =? 0)%Z && (Z.of_N base <? 2)%Z)
               || (36 <? Z.of_N base)%Z)%bool = false).
  { apply orb_false_iff. split.
    - apply andb_false_iff. right. apply Z.ltb_ge. lia.
    - apply Z.ltb_ge. lia. }
  rewrite E, N2Z.id.
  rewrite map_to_ascii_valid by (apply is_digit_string_forallb; assumption).
  rewrite parse_digit_string by assumption. reflexivity.
Qed.

(** Digits of a base up to ten have no letters. *)
Lemma upper_to_digits n :
  base <= 10 -> upper (to_digits base n) = to_digits base n.
Proof.
  intro Hb. destruct (to_digits_correct base base_ge_2 base_le_36 n)
    as (Hd & _ & _).
  apply is_digit_string_forallb in Hd. rewrite forallb_forall in Hd.
  unfold upper. rewrite <- (map_id (to_digits base n)) at 2.
  apply map_ext_in. intros c Hin. specialize (Hd c Hin).
  revert Hd. unfold valid_digit, PyInt.digit_value, upper_char.
  char_cases; intro Hv; try reflexivity; try discriminate; lia.
Qed.

End ParseDigits.

(** ** [convert_integer] on non-negative values *)

(** What [convert_integer] answers once [int] has returned a
    non-negative value. *)
Lemma convert_integer_nonneg s B D n :
  supported D ->
  py_int s B = Return (Z.of_N n) ->
  convert_integer {| ci_number := s; ci_from_base := B; ci_to_base := D |}
  = Return {| cr_input := s; cr_from_base := B; cr_to_base := D;
              cr_result := upper (to_digits (Z.to_N D) n);
              cr_decimal_value := Z.of_N n |}.
Proof.
  intros HD Hint. unfold convert_integer.
  cbn [ci_number ci_from_base ci_to_base]. rewrite Hint. cbn [bind].
  assert (Hsign : sign_prefix (Z.of_N n) = []).
  { unfold sign_prefix.
    destruct (Z.ltb_spec (Z.of_N n) 0) as [Hlt|_]; [lia | reflexivity]. }
  unfold py_str, py_bin, py_oct, py_hex. rewrite Hsign, Zabs2N.id.
  destruct HD as [<-|[<-|[<-|[<-|[]]]]]; cbn [Z.eqb Pos.eqb bind
    try_except_ValueError app slice_from skipn lit list_ascii_of_string
    List.map]; try reflexivity.
  - rewrite upper_to_digits by lia. reflexivity.
  - rewrite upper_to_digits by lia. reflexivity.
  - rewrite upper_to_digits by lia. reflexivity.
Qed.

Lemma str_eqb_eq s t : str_eqb s t = true <-> s = t.
Proof.
  revert t. induction s as [|c s IH]; intros [|d t]; cbn [str_eqb];
    try (split; [discriminate | discriminate]); [tauto|].
  rewrite andb_true_iff, N.eqb_eq, IH.
  split; [intros [-> ->]; reflexivity | intro E; injection E; auto].
Qed.

Lemma sign_prefix_nonneg z : (0 <= z)%Z -> sign_prefix z = [].
Proof.
  intro H. unfold sign_prefix.
  destruct (Z.ltb_spec z 0) as [Hlt|_]; [lia | reflexivity].
Qed.

Lemma slice_bin_nonneg z :
  (0 <= z)%Z -> slice_from 2 (py_bin z) = to_digits 2 (Z.abs_N z).
Proof.
  intro H. unfold py_bin. rewrite sign_prefix_nonneg by assumption.
  reflexivity.
Qed.

Lemma slice_hex_nonneg z :
  (0 <= z)%Z -> slice_from 2 (py_hex z) = to_digits 16 (Z.abs_N z).
Proof.
  intro H. unfold py_hex. rewrite sign_prefix_nonneg by assumption.
  reflexivity.
Qed.

(** A digit string of [n] is shorter than [k] characters only for
    [n < base ^ k]. *)
Lemma fold_digits_bound base s : forall acc,
  1 <= base -> forallb (valid_digit base) s = true ->
  fold_left (fun acc c => acc * base + dv c) s acc
  < (acc + 1) * base ^ N.of_nat (List.length s).
Proof.
  induction s as [|c s IH]; intros acc Hb Hs.
  - cbn. lia.
  - cbn [forallb] in Hs. apply andb_true_iff in Hs. destruct Hs as [Hc Hs].
    destruct (valid_digit_spec _ _ Hc) as (_ & Hlt & _).
    cbn [fold_left List.length]. rewrite Nat2N.inj_succ, N.pow_succ_r'.
    specialize (IH (acc * base + dv c) Hb Hs).
    eapply N.lt_le_trans; [exact IH|].
    rewrite N.mul_assoc. apply N.mul_le_mono_r. nia.
Qed.

Lemma digit_string_bound base s n :
  1 <= base -> digit_string_of base s n ->
  n < base ^ N.of_nat (List.length s).
Proof.
  intros Hb (Hd & Hv & _). rewrite <- Hv. unfold digits_value.
  pose proof (fold_digits_bound base s 0 Hb
                (is_digit_string_forallb _ _ Hd)) as H.
  rewrite N.add_0_l, N.mul_1_l in H. exact H.
Qed.

(** [zfill] on a digit string pads on the left. *)
Lemma zfill_digit_string base width s :
  is_digit_string base s = true ->
  zfill width s = repeat 48 (width - List.length s) ++ s.
Proof.
  destruct s as [|c s]; [discriminate|].
  intro H. cbn [is_digit_string forallb] in H.
  apply andb_true_iff in H. destruct H as [Hc _].
  destruct (valid_digit_spec _ _ Hc) as (_ & _ & _ & _ & Hp & Hm & _).
  unfold zfill. apply N.eqb_neq in Hp, Hm. rewrite Hp, Hm. reflexivity.
Qed.

(** ** [convert_integer] *)

(** C1: for a negative value the code keeps the sign only in base 10.
    [bin], [oct] and [hex] put the sign before the prefix, so the slice
    [[2:]] removes the sign and the 0 and leaves the prefix letter:
    "-5" comes out as "b101" in base 2, "-8" as "o10" in base 8 and
    "-255" as "XFF" in base 16, where the claim expects "-101", "-10"
    and "-FF". *)
Theorem convert_integer_negative_drops_sign :
  convert_integer
    {| ci_number := lit "-5"; ci_from_base := 10; ci_to_base := 2 |}
  = Return {| cr_input := lit "-5"; cr_from_base := 10; cr_to_base := 2;
              cr_result := lit "b101"; cr_decimal_value := -5 |} /\
  convert_integer
    {| ci_number := lit "-8"; ci_from_base := 10; ci_to_base := 8 |}
  = Return {| cr_input := lit "-8"; cr_from_base := 10; cr_to_base := 8;
              cr_result := lit "o10"; cr_decimal_value := -8 |} /\
  convert_integer
    {| ci_number := lit "-255"; ci_from_base := 10; ci_to_base := 16 |}
  = Return {| cr_input := lit "-255"; cr_from_base := 10; cr_to_base := 16;
              cr_result := lit "XFF"; cr_decimal_value := -255 |} /\
  convert_integer
    {| ci_number := lit "-101"; ci_from_base := 2; ci_to_base := 10 |}
  = Return {| cr_input := lit "-101"; cr_from_base := 2; cr_to_base := 10;
              cr_result := lit "-5"; cr_decimal_value := -5 |}.
Proof. repeat split; vm_compute; reflexivity. Qed.

(** When [convert_integer] rejects a request: exactly when [int] raises
    [ValueError] or [to_base] is none of 2, 8, 10, 16; it raises nothing
    but a 400. *)
Lemma convert_integer_rejects request :
  ((exists d, convert_integer request = Raise (HTTPException 400 d)) <->
   py_int (ci_number request) (ci_from_base request) = Raise ValueError \/
   ~ supported (ci_to_base request)) /\
  (forall e, convert_integer request = Raise e ->
             exists d, e = HTTPException 400 d).
Proof.
  unfold convert_integer, py_int, supported.
  destruct (_ || _)%bool.
  { cbn. split; [split; eauto | intros e [= <-]; eauto]. }
  destruct (PyInt.parse _ _) as [v|];
    [|cbn; split; [split; eauto | intros e [= <-]; eauto]].
  cbn [bind].
  destruct (Z.eqb_spec (ci_to_base request) 10) as [E|N10];
    [|destruct (Z.eqb_spec (ci_to_base request) 2) as [E|N2];
      [|destruct (Z.eqb_spec (ci_to_base request) 8) as [E|N8];
        [|destruct (Z.eqb_spec (ci_to_base request) 16) as [E|N16]]]];
    cbn [bind try_except_ValueError In].
  1-4: split; [split; [intros [d [=]] | intros [[=]|H]; elim H; auto]
              | intros e [=]].
  split; [split; [right; intuition congruence | eauto]
         | intros e [= <-]; eauto].
Qed.

(** C2: [from_base] is not checked against 2, 8, 10, 16: the literal
    "12" is accepted in base 3, and so is a literal with a prefix,
    blanks or underscores in a supported base. *)
Theorem convert_integer_accepts_from_base_3 :
  convert_integer
    {| ci_number := lit "12"; ci_from_base := 3; ci_to_base := 10 |}
  = Return {| cr_input := lit "12"; cr_from_base := 3; cr_to_base := 10;
              cr_result := lit "5"; cr_decimal_value := 5 |} /\
  convert_integer
    {| ci_number := lit " 0x_1f "; ci_from_base := 16; ci_to_base := 2 |}
  = Return {| cr_input := lit " 0x_1f "; cr_from_base := 16;
              cr_to_base := 2;
              cr_result := lit "11111"; cr_decimal_value := 31 |}.
Proof. split; vm_compute; reflexivity. Qed.



(** ** [binary_arithmetic] *)

(** C4: adding 0 returns [n] itself and the binary digits of [|n|], after
    a "-" when [n] is negative; 5 - 3 and 3 - 5 give "10" and "-10". *)
Theorem binary_arithmetic_add_zero :
  (forall n : Z,
     exists s,
       digit_string_of 2 s (Z.abs_N n) /\
       binary_arithmetic
         {| ar_a := n; ar_b := 0; ar_operation := lit "add" |}
       = Return {| result_bin := (if (n <? 0)%Z then lit "-" else []) ++ s;
                   result_dec := n |}) /\
  binary_arithmetic {| ar_a := 5; ar_b := 3; ar_operation := lit "sub" |}
  = Return {| result_bin := lit "10"; result_dec := 2 |} /\
  binary_arithmetic {| ar_a := 3; ar_b := 5; ar_operation := lit "sub" |}
  = Return {| result_bin := lit "-10"; result_dec := -2 |}.
Proof.
  split; [|split; vm_compute; reflexivity].
  intro n. exists (to_digits 2 (Z.abs_N n)). split.
  - apply to_digits_correct; lia.
  - unfold binary_arithmetic. cbn [ar_a ar_b ar_operation].
    change (str_eqb (lit "add") (lit "add")) with true.
    cbn [bind]. rewrite Z.add_0_r.
    destruct (Z.leb_spec 0 n) as [Hn|Hn].
    + rewrite slice_bin_nonneg by assumption.
      destruct (Z.ltb_spec n 0); [lia | reflexivity].
    + rewrite slice_bin_nonneg by lia.
      destruct (Z.ltb_spec n 0); [|lia].
      replace (Z.abs_N (Z.abs n)) with (Z.abs_N n) by lia. reflexivity.
Qed.

(** C8: [binary_arithmetic] answers 400 exactly for an operation other
    than "add", "sub", "mul", returns for these three and raises nothing
    else. *)
Theorem binary_arithmetic_rejects_iff request :
  (binary_arithmetic request = Raise (HTTPException 400 BadOperation) <->
   ~ In (ar_operation request) operations) /\
  (In (ar_operation request) operations ->
   exists r, binary_arithmetic request = Return r) /\
  (forall e, binary_arithmetic request = Raise e ->
             e = HTTPException 400 BadOperation).
Proof.
  unfold binary_arithmetic, operations.
  destruct (str_eqb (ar_operation request) (lit "add")) eqn:Ea;
    [|destruct (str_eqb (ar_operation request) (lit "sub")) eqn:Es;
      [|destruct (str_eqb (ar_operation request) (lit "mul")) eqn:Em]];
    cbn [bind In].
  1-3: split; [split; [discriminate|]|split; [eauto | discriminate]].
  1-3: intro H; elim H.
  - apply str_eqb_eq in Ea. auto.
  - apply str_eqb_eq in Es. auto.
  - apply str_eqb_eq in Em. auto.
  - split; [split; [intros _|reflexivity]|split].
    + intros [E|[E|[E|[]]]]; symmetry in E; apply str_eqb_eq in E;
        congruence.
    + intros [E|[E|[E|[]]]]; symmetry in E; apply str_eqb_eq in E;
        congruence.
    + intros e [= <-]. reflexivity.
Qed.

Lemma binary_arithmetic_rejects_iff_witness :
  binary_arithmetic {| ar_a := 6; ar_b := 3; ar_operation := lit "div" |}
  = Raise (HTTPException 400 BadOperation) /\
  exists r,
    binary_arithmetic {| ar_a := 6; ar_b := 3; ar_operation := lit "mul" |}
    = Return r.
Proof.
  split.
  - apply (binary_arithmetic_rejects_iff
             {| ar_a := 6; ar_b := 3; ar_operation := lit "div" |}).
    cbn. intros [E|[E|[E|[]]]]; discriminate E.
  - apply (binary_arithmetic_rejects_iff
             {| ar_a := 6; ar_b := 3; ar_operation := lit "mul" |}).
    cbn. right; right; left; reflexivity.
Defined.

(** ** [ascii_encoder] *)

(** C10: [ascii_encoder] returns one entry per character, in order, for
    every string; the entry of the character [c] has the code point of
    [c], its hexadecimal digits in upper case without padding and its
    binary digits padded with zeros to eight characters, so the binary
    field of a code point above 255 is longer than eight characters. *)
Theorem ascii_encoder_entries text :
  List.length (data (ascii_encoder {| aq_text := text |}))
  = List.length text /\
  forall i c,
    nth_error text i = Some c ->
    exists h b,
      digit_string_of 16 h c /\ digit_string_of 2 b c /\
      nth_error (data (ascii_encoder {| aq_text := text |})) i
      = Some {| ae_char := c; ae_dec := Z.of_N c; ae_hex := upper h;
                ae_bin := repeat 48 (8 - List.length b) ++ b |} /\
      (8 <= List.length (repeat 48%N (8 - List.length b) ++ b))%nat /\
      (255 < c -> (8 < List.length b)%nat /\
                  repeat 48 (8 - List.length b) ++ b = b).
Proof.
  split; [apply length_map|].
  intros i c Hi.
  pose proof (to_digits_correct 16 ltac:(lia) ltac:(lia) c) as H16.
  pose proof (to_digits_correct 2 ltac:(lia) ltac:(lia) c) as H2.
  exists (to_digits 16 c), (to_digits 2 c).
  split; [exact H16|]. split; [exact H2|]. split; [|split].
  - unfold ascii_encoder. cbn [data aq_text].
    rewrite (map_nth_error _ _ _ Hi).
    unfold ascii_entry, ord.
    rewrite slice_hex_nonneg, slice_bin_nonneg, Zabs2N.id by lia.
    rewrite (zfill_digit_string 2) by apply H2. reflexivity.
  - rewrite length_app, repeat_length. lia.
  - intro Hc.
    assert (L : (8 < List.length (to_digits 2 c))%nat).
    { pose proof (digit_string_bound 2 _ _ ltac:(lia) H2) as Hb.
      destruct (Nat.lt_ge_cases 8 (List.length (to_digits 2 c)))
        as [|Hle]; [assumption|].
      exfalso.
      assert (2 ^ N.of_nat (List.length (to_digits 2 c)) <= 2 ^ 8).
      { apply N.pow_le_mono_r; lia. }
      change (2 ^ 8) with 256 in *. lia. }
    split; [exact L|].
    replace (8 - List.length (to_digits 2 c))%nat with 0%nat by lia.
    reflexivity.
Qed.

Lemma ascii_encoder_entries_witness :
  exists h b,
    digit_string_of 16 h 321 /\ digit_string_of 2 b 321 /\
    nth_error (data (ascii_encoder {| aq_text := lit "A" ++ [321] |})) 1
    = Some {| ae_char := 321; ae_dec := 321; ae_hex := upper h;
              ae_bin := repeat 48 (8 - List.length b) ++ b |} /\
    (8 <= List.length (repeat 48%N (8 - List.length b) ++ b))%nat /\
    (255 < 321 -> (8 < List.length b)%nat /\
                  repeat 48 (8 - List.length b) ++ b = b).
Proof.
  apply (proj2 (ascii_encoder_entries (lit "A" ++ [321])) 1%nat 321).
  reflexivity.
Defined.

(** ** [float_to_ieee754] *)

(** C5: 1.0 is encoded as 3F800000, that is sign 0, exponent 01111111
    and a fraction of 23 zeros. *)
Theorem float_to_ieee754_one :
  float_to_ieee754 {| iq_number := float_one |}
  = Return {| binary := lit "0 01111111 00000000000000000000000";
              hex := lit "3F800000" |}.
Proof. vm_compute. reflexivity. Qed.

(** * Doubles *)

Section Rounding.

Local Open Scope Z_scope.

(** ** Rounding *)

Lemma digits2_pos_log2 p : Zpos (digits2_pos p) = Z.log2 (Zpos p) + 1.
Proof.
  induction p as [p IH|p IH|]; cbn [digits2_pos]; [| |reflexivity].
  - rewrite Pos2Z.inj_succ, IH.
    change (Zpos p~1) with (Z.succ_double (Zpos p)).
    rewrite Z.succ_double_spec, Z.log2_succ_double by lia. lia.
  - rewrite Pos2Z.inj_succ, IH.
    change (Zpos p~0) with (Z.double (Zpos p)).
    rewrite Z.double_spec, Z.log2_double by lia. lia.
Qed.

Lemma Zdigits2_log2 m : 0 < m -> Zdigits2 m = Z.log2 m + 1.
Proof.
  destruct m as [|p|p]; try lia. intros _. apply digits2_pos_log2.
Qed.

Lemma Zdigits2_bounds m :
  0 < m -> 2 ^ (Zdigits2 m - 1) <= m < 2 ^ Zdigits2 m.
Proof.
  intro H. rewrite Zdigits2_log2 by assumption.
  replace (Z.log2 m + 1 - 1) with (Z.log2 m) by lia.
  replace (Z.log2 m + 1) with (Z.succ (Z.log2 m)) by lia.
  apply Z.log2_spec. assumption.
Qed.

Lemma Zdigits2_unique m n :
  2 ^ (n - 1) <= m < 2 ^ n -> 0 < n -> Zdigits2 m = n.
Proof.
  intros [H1 H2] Hn.
  assert (0 < 2 ^ (n - 1)) by (apply Z.pow_pos_nonneg; lia).
  assert (0 < m) by lia.
  rewrite Zdigits2_log2 by assumption.
  assert (E : Z.log2 m = n - 1).
  { apply Z.log2_unique; [lia|].
    replace (Z.succ (n - 1)) with n by lia. split; assumption. }
  lia.
Qed.

Lemma iter_pos_iter {A} (f : A -> A) p : forall x,
  iter_pos f p x = Pos.iter f x p.
Proof.
  induction p as [p IH|p IH|]; intro x; cbn [iter_pos Pos.iter];
    [|rewrite !IH; reflexivity|reflexivity].
  rewrite !IH. rewrite <- !Pos.iter_swap. reflexivity.
Qed.

Lemma shr_1_nonneg m r s :
  0 <= m ->
  shr_1 (Build_shr_record m r s)
  = Build_shr_record (m / 2) (Z.odd m) (r || s).
Proof.
  intro H. rewrite <- Z.div2_div.
  destruct m as [|[p|p|]|p]; try lia; reflexivity.
Qed.

Lemma mod_pow2_succ m n :
  0 <= n ->
  m mod 2 ^ (n + 1) = m mod 2 ^ n + 2 ^ n * Z.b2z (Z.odd (m / 2 ^ n)).
Proof.
  intro Hn. rewrite Z.pow_add_r, Z.pow_1_r by lia.
  rewrite Z.rem_mul_r by (try apply Z.pow_nonzero; lia).
  f_equal. f_equal. rewrite Zmod_odd. destruct (Z.odd _); reflexivity.
Qed.

Lemma iter_shr_1 m p :
  0 <= m ->
  Pos.iter shr_1 (Build_shr_record m false false) p
  = Build_shr_record (m / 2 ^ Zpos p) (Z.odd (m / 2 ^ (Zpos p - 1)))
      (negb (m mod 2 ^ (Zpos p - 1) =? 0)).
Proof.
  intro Hm. induction p as [|p IH] using Pos.peano_ind.
  - cbn [Pos.iter]. rewrite shr_1_nonneg by assumption.
    change (2 ^ (1 - 1)) with 1. rewrite Z.div_1_r, Z.mod_1_r. reflexivity.
  - rewrite Pos.iter_succ, IH.
    rewrite shr_1_nonneg by (apply Z.div_pos; [assumption|apply Z.pow_pos_nonneg; lia]).
    rewrite Pos2Z.inj_succ.
    replace (Z.succ (Zpos p) - 1) with (Zpos p) by lia.
    f_equal.
    + rewrite Z.pow_succ_r, Z.mul_comm by lia.
      rewrite Z.div_div by (try apply Z.pow_pos_nonneg; lia). reflexivity.
    + replace (Zpos p) with ((Zpos p - 1) + 1) at 3 by lia.
      rewrite mod_pow2_succ by lia.
      assert (0 <= m mod 2 ^ (Zpos p - 1)).
      { apply Z.mod_pos_bound. apply Z.pow_pos_nonneg; lia. }
      assert (0 < 2 ^ (Zpos p - 1)) by (apply Z.pow_pos_nonneg; lia).
      destruct (Z.odd (m / 2 ^ (Zpos p - 1))); cbn [Z.b2z orb].
      * destruct (Z.eqb_spec (m mod 2 ^ (Zpos p - 1) + 2 ^ (Zpos p - 1) * 1) 0); [lia|].
        reflexivity.
      * rewrite Z.mul_0_r, Z.add_0_r. reflexivity.
Qed.

(** Shifting [m] right by [k] positions and rounding is [rne]. *)
Lemma shr_round m e k :
  0 <= m ->
  let '(mrs, e') := shr (Build_shr_record m false false) e k in
  round_nearest_even (shr_m mrs) (loc_of_shr_record mrs) = rne m k /\
  e' = e + Z.max k 0.
Proof.
  intro Hm. unfold shr, rne.
  destruct k as [|p|p]; cbn [Z.leb Z.compare]; try (split; [reflexivity|lia]).
  rewrite iter_pos_iter, iter_shr_1 by assumption.
  split; [|lia].
  cbn [shr_m].
  assert (Hp : 0 < 2 ^ (Zpos p - 1)) by (apply Z.pow_pos_nonneg; lia).
  assert (Hr : 0 <= m mod 2 ^ (Zpos p - 1) < 2 ^ (Zpos p - 1))
    by (apply Z.mod_pos_bound; assumption).
  replace (m mod 2 ^ Zpos p)
    with (m mod 2 ^ (Zpos p - 1)
          + 2 ^ (Zpos p - 1) * Z.b2z (Z.odd (m / 2 ^ (Zpos p - 1)))).
  2:{ rewrite <- mod_pow2_succ by lia. f_equal. f_equal. lia. }
  destruct (Z.odd (m / 2 ^ (Zpos p - 1))); cbn [Z.b2z].
  - destruct (Z.eqb_spec (m mod 2 ^ (Zpos p - 1)) 0) as [E|E];
      cbn [negb loc_of_shr_record round_nearest_even].
    + rewrite E.
      destruct (Z.ltb_spec (0 + 2 ^ (Zpos p - 1) * 1) (2 ^ (Zpos p - 1))); [lia|].
      destruct (Z.ltb_spec (2 ^ (Zpos p - 1)) (0 + 2 ^ (Zpos p - 1) * 1)); [lia|].
      reflexivity.
    + destruct (Z.ltb_spec (m mod 2 ^ (Zpos p - 1) + 2 ^ (Zpos p - 1) * 1)
                  (2 ^ (Zpos p - 1))); [lia|].
      destruct (Z.ltb_spec (2 ^ (Zpos p - 1))
                  (m mod 2 ^ (Zpos p - 1) + 2 ^ (Zpos p - 1) * 1)); [|lia].
      reflexivity.
  - rewrite Z.mul_0_r, Z.add_0_r.
    destruct (Z.ltb_spec (m mod 2 ^ (Zpos p - 1)) (2 ^ (Zpos p - 1))); [|lia].
    destruct (negb _); reflexivity.
Qed.

Lemma fexp64_eq e : fexp PyFloat.prec PyFloat.emax e = fexp64 e.
Proof. reflexivity. Qed.

Lemma binary_round_aux_finish s m e :
  0 < m ->
  binary_round_aux PyFloat.prec PyFloat.emax s m e loc_Exact
  = finish s (rne m (fexp64 (Zdigits2 m + e) - e))
      (e + Z.max (fexp64 (Zdigits2 m + e) - e) 0).
Proof.
  intro Hm. unfold binary_round_aux, finish.
  unfold shr_fexp at 1. cbn [shr_record_of_loc]. rewrite fexp64_eq.
  pose proof (shr_round m e (fexp64 (Zdigits2 m + e) - e) ltac:(lia)) as H.
  destruct (shr _ e _) as [mrs e']. destruct H as [-> ->]. reflexivity.
Qed.

Lemma finish_zero s t : finish s 0 t = S754_zero s.
Proof.
  unfold finish, shr_fexp, shr. cbn [shr_record_of_loc Zdigits2].
  destruct (fexp PyFloat.prec PyFloat.emax (0 + t) - t) as [|p|p];
    try reflexivity.
  rewrite iter_pos_iter, iter_shr_1 by lia. reflexivity.
Qed.

Lemma finish_canonical s q t :
  0 < q -> fexp64 (Zdigits2 q + t) <= t ->
  finish s q t
  = if t <=? 971 then S754_finite s (Z.to_pos q) t else S754_infinity s.
Proof.
  intros Hq Hf. unfold finish, shr_fexp, shr. cbn [shr_record_of_loc].
  rewrite fexp64_eq.
  destruct (fexp64 (Zdigits2 q + t) - t) as [|p|p] eqn:E; try lia;
    cbn [shr_m]; destruct q; try lia; reflexivity.
Qed.

Lemma finish_carry s t :
  -1074 <= t ->
  finish s (2 ^ 53) t
  = if t + 1 <=? 971 then S754_finite s (2 ^ 52) (t + 1)
    else S754_infinity s.
Proof.
  intro Ht. unfold finish, shr_fexp, shr. cbn [shr_record_of_loc].
  assert (E : fexp64 (Zdigits2 (2 ^ 53) + t) - t = 1).
  { unfold fexp64. change (Zdigits2 (2 ^ 53)) with 54. lia. }
  rewrite fexp64_eq, E. rewrite iter_pos_iter, iter_shr_1 by lia. cbn [shr_m].
  reflexivity.
Qed.

Lemma rne_bounds m k :
  0 <= m -> m / 2 ^ Z.max k 0 <= rne m k <= m / 2 ^ Z.max k 0 + 1.
Proof.
  intro Hm. unfold rne. destruct (Z.leb_spec k 0).
  - replace (Z.max k 0) with 0 by lia. rewrite Z.pow_0_r, Z.div_1_r. lia.
  - replace (Z.max k 0) with k by lia.
    destruct (_ <? _); [lia|]. destruct (_ <? _); [lia|].
    destruct (Z.even _); lia.
Qed.

Lemma rne_exact m k : 0 <= k -> m mod 2 ^ k = 0 -> rne m k = m / 2 ^ k.
Proof.
  intros Hk Hr. unfold rne. destruct (Z.leb_spec k 0).
  - replace k with 0 by lia. rewrite Z.pow_0_r, Z.div_1_r. reflexivity.
  - rewrite Hr.
    assert (0 < 2 ^ (k - 1)) by (apply Z.pow_pos_nonneg; lia).
    destruct (Z.ltb_spec 0 (2 ^ (k - 1))); [reflexivity | lia].
Qed.

(** Rounding is monotone against a multiple of [2^k]. *)
Lemma rne_le m k u : 0 <= m -> 0 <= k -> m <= u * 2 ^ k -> rne m k <= u.
Proof.
  intros Hm Hk H. unfold rne. destruct (Z.leb_spec k 0).
  - replace k with 0 in H by lia. rewrite Z.pow_0_r in H. lia.
  - assert (P : 0 < 2 ^ k) by (apply Z.pow_pos_nonneg; lia).
    assert (Ph : 2 ^ k = 2 * 2 ^ (k - 1)).
    { rewrite <- Z.pow_succ_r by lia. f_equal. lia. }
    pose proof (Z.div_mod m (2 ^ k) ltac:(lia)) as D.
    pose proof (Z.mod_pos_bound m (2 ^ k) P) as B.
    assert (m / 2 ^ k <= u) by (apply Z.div_le_upper_bound; nia).
    destruct (Z.ltb_spec (m mod 2 ^ k) (2 ^ (k - 1))); [lia|].
    assert (m / 2 ^ k < u) by nia.
    destruct (_ <? _); [lia|]. destruct (Z.even _); lia.
Qed.

(** Below the middle between [u] and [u + 1], rounding gives at most [u]. *)
Lemma rne_le_half m k u :
  0 <= m -> 0 < k -> 2 * m < (2 * u + 1) * 2 ^ k -> rne m k <= u.
Proof.
  intros Hm Hk H. unfold rne. destruct (Z.leb_spec k 0); [lia|].
  assert (P : 0 < 2 ^ (k - 1)) by (apply Z.pow_pos_nonneg; lia).
  assert (Ph : 2 ^ k = 2 * 2 ^ (k - 1)).
  { rewrite <- Z.pow_succ_r by lia. f_equal. lia. }
  pose proof (Z.div_mod m (2 ^ k) ltac:(lia)) as D.
  pose proof (Z.mod_pos_bound m (2 ^ k) ltac:(lia)) as B.
  assert (m / 2 ^ k < u + 1).
  { apply Z.div_lt_upper_bound; [lia|]. nia. }
  destruct (Z.ltb_spec (m mod 2 ^ k) (2 ^ (k - 1))); [lia|].
  assert (m / 2 ^ k < u) by nia.
  destruct (_ <? _); [lia|]. destruct (Z.even _); lia.
Qed.

Lemma rne_ge m k u : 0 <= m -> 0 <= k -> u * 2 ^ k <= m -> u <= rne m k.
Proof.
  intros Hm Hk H. pose proof (rne_bounds m k Hm) as B.
  replace (Z.max k 0) with k in B by lia.
  assert (u <= m / 2 ^ k).
  { apply Z.div_le_lower_bound; [apply Z.pow_pos_nonneg; lia | nia]. }
  lia.
Qed.

Lemma Zdigits2_le q n : 0 < q < 2 ^ n -> Zdigits2 q <= n.
Proof.
  intros [H0 H1]. rewrite Zdigits2_log2 by assumption.
  apply Z.log2_lt_pow2 in H1; lia.
Qed.

Lemma Zdigits2_ge q n : 0 < q -> 2 ^ (n - 1) <= q -> n <= Zdigits2 q.
Proof.
  intros H0 H1. rewrite Zdigits2_log2 by assumption.
  destruct (Z.le_gt_cases 0 (n - 1)) as [Hn|Hn]; [|pose proof (Z.log2_nonneg q); lia].
  apply Z.log2_le_pow2 in H1; lia.
Qed.

Lemma Zdigits2_pos q : 0 < q -> 0 < Zdigits2 q.
Proof.
  intro H. rewrite Zdigits2_log2 by assumption.
  pose proof (Z.log2_nonneg q). lia.
Qed.

Lemma Zdigits2_shift q j :
  0 < q -> 0 <= j -> Zdigits2 (q * 2 ^ j) = Zdigits2 q + j.
Proof.
  intros Hq Hj.
  assert (0 < 2 ^ j) by (apply Z.pow_pos_nonneg; lia).
  rewrite !Zdigits2_log2 by nia.
  rewrite Z.log2_mul_pow2 by lia. lia.
Qed.

(** The value a float of [mk_float] is built from is in range, and the
    float is a binary64 value. *)
Lemma mk_float_valid s q t :
  0 <= q <= 2 ^ 53 -> (-1074 < t -> 2 ^ 52 <= q) -> -1074 <= t ->
  valid_binary PyFloat.prec PyFloat.emax (mk_float s q t) = true.
Proof.
  intros Hq Hn Ht. unfold mk_float.
  destruct (Z.eqb_spec q 0) as [|Hq0]; [reflexivity|].
  destruct (Z.eqb_spec q (2 ^ 53)) as [|Hq53].
  - destruct (Z.leb_spec (t + 1) 971) as [Hle|]; [|reflexivity].
    cbn [valid_binary]. unfold bounded, canonical_mantissa.
    rewrite fexp64_eq. unfold fexp64.
    change (Zpos (digits2_pos (2 ^ 52))) with 53.
    apply andb_true_iff. split; [apply Z.eqb_eq; lia|].
    apply Z.leb_le. exact Hle.
  - destruct (Z.leb_spec t 971) as [Hle|]; [|reflexivity].
    cbn [valid_binary]. unfold bounded, canonical_mantissa.
    rewrite fexp64_eq. unfold fexp64.
    change (Zpos (digits2_pos (Z.to_pos q))) with (Zdigits2 (Zpos (Z.to_pos q))).
    rewrite Z2Pos.id by lia.
    assert (Hd : Zdigits2 q <= 53) by (apply Zdigits2_le; lia).
    apply andb_true_iff. split; [|apply Z.leb_le; exact Hle].
    apply Z.eqb_eq.
    destruct (Z.eq_dec t (-1074)) as [->|Hne]; [lia|].
    assert (53 <= Zdigits2 q).
    { apply Zdigits2_ge; [lia|]. apply Hn. lia. }
    lia.
Qed.

(** [binary_round_aux] on an exact positive mantissa whose exponent is
    not above the exponent of its format. *)
Lemma round_pos s m e :
  0 < m -> e <= fexp64 (Zdigits2 m + e) ->
  (0 <= rne m (fexp64 (Zdigits2 m + e) - e) <= 2 ^ 53) /\
  (-1074 < fexp64 (Zdigits2 m + e) ->
   2 ^ 52 <= rne m (fexp64 (Zdigits2 m + e) - e)) /\
  binary_round_aux PyFloat.prec PyFloat.emax s m e loc_Exact
  = mk_float s (rne m (fexp64 (Zdigits2 m + e) - e))
      (fexp64 (Zdigits2 m + e)).
Proof.
  intros Hm Hk.
  rewrite binary_round_aux_finish by assumption.
  set (d := Zdigits2 m) in *. set (t := fexp64 (d + e)) in *.
  set (k := t - e). assert (Hk0 : 0 <= k) by (unfold k; lia).
  pose proof (Zdigits2_bounds m Hm) as [Hlo Hhi]. fold d in Hlo, Hhi.
  pose proof (Zdigits2_pos m Hm) as Hd. fold d in Hd.
  assert (Ht : -1074 <= t /\ d + e - 53 <= t) by (unfold t, fexp64; lia).
  pose proof (rne_bounds m k ltac:(lia)) as Hr.
  replace (Z.max k 0) with k in * by lia.
  replace (e + k) with t by (unfold k; lia).
  assert (P : 0 < 2 ^ k) by (apply Z.pow_pos_nonneg; lia).
  assert (Hq0 : 0 <= m / 2 ^ k) by (apply Z.div_pos; lia).
  assert (Hq1 : m / 2 ^ k < 2 ^ 53).
  { apply Z.div_lt_upper_bound; [lia|].
    rewrite <- Z.pow_add_r by lia.
    eapply Z.lt_le_trans; [exact Hhi|].
    apply Z.pow_le_mono_r; unfold k; lia. }
  assert (Hq2 : -1074 < t -> 2 ^ 52 <= m / 2 ^ k).
  { intro H. apply Z.div_le_lower_bound; [lia|].
    rewrite <- Z.pow_add_r by lia.
    eapply Z.le_trans; [|exact Hlo].
    apply Z.pow_le_mono_r; unfold k, t, fexp64 in *; lia. }
  split; [lia|]. split; [intro H; specialize (Hq2 H); lia|].
  unfold mk_float.
  destruct (Z.eqb_spec (rne m k) 0) as [->|N0]; [apply finish_zero|].
  destruct (Z.eqb_spec (rne m k) (2 ^ 53)) as [->|N53];
    [apply finish_carry; lia|].
  apply finish_canonical; [lia|].
  assert (Zdigits2 (rne m k) <= 53) by (apply Zdigits2_le; lia).
  unfold fexp64. lia.
Qed.

Lemma iter_xO m d : Zpos (Pos.iter xO m d) = Zpos m * 2 ^ Zpos d.
Proof.
  induction d as [|d IH] using Pos.peano_ind.
  - cbn [Pos.iter]. rewrite Pos2Z.inj_xO. change (2 ^ 1) with 2. lia.
  - rewrite Pos.iter_succ, Pos2Z.inj_xO, IH, Pos2Z.inj_succ.
    rewrite Z.pow_succ_r by lia. lia.
Qed.

Lemma shl_align_spec m e e' :
  shl_align m e e'
  = if e' <? e then (Z.to_pos (Zpos m * 2 ^ (e - e')), e') else (m, e).
Proof.
  unfold shl_align.
  destruct (Z.ltb_spec e' e) as [H|H]; destruct (e' - e) as [|d|d] eqn:E;
    try lia; try reflexivity.
  f_equal. apply Pos2Z.inj. rewrite iter_xO.
  replace (e - e') with (Zpos d) by lia.
  rewrite Z2Pos.id; [reflexivity|].
  apply Z.mul_pos_pos; [lia | apply Z.pow_pos_nonneg; lia].
Qed.

Lemma binary_round_spec s m e :
  (0 <= round_mant (Zpos m) e (fexp64 (Zdigits2 (Zpos m) + e)) <= 2 ^ 53) /\
  (-1074 < fexp64 (Zdigits2 (Zpos m) + e) ->
   2 ^ 52 <= round_mant (Zpos m) e (fexp64 (Zdigits2 (Zpos m) + e))) /\
  binary_round PyFloat.prec PyFloat.emax s m e
  = mk_float s (round_mant (Zpos m) e (fexp64 (Zdigits2 (Zpos m) + e)))
      (fexp64 (Zdigits2 (Zpos m) + e)).
Proof.
  unfold binary_round, round_mant. rewrite shl_align_spec.
  change (fexp PyFloat.prec PyFloat.emax (Zpos (digits2_pos m) + e))
    with (fexp64 (Zdigits2 (Zpos m) + e)).
  set (t := fexp64 (Zdigits2 (Zpos m) + e)).
  destruct (Z.ltb_spec t e) as [H|H].
  - assert (P : 0 < 2 ^ (e - t)) by (apply Z.pow_pos_nonneg; lia).
    assert (Hm : 0 < Zpos m * 2 ^ (e - t)) by nia.
    rewrite Z2Pos.id by assumption.
    assert (Ed : Zdigits2 (Zpos m * 2 ^ (e - t)) + t = Zdigits2 (Zpos m) + e).
    { rewrite Zdigits2_shift by lia. lia. }
    pose proof (round_pos s (Zpos m * 2 ^ (e - t)) t Hm) as R.
    rewrite Ed in R. fold t in R.
    replace (t - t) with 0 in R by lia.
    change (rne (Zpos m * 2 ^ (e - t)) 0) with (Zpos m * 2 ^ (e - t)) in R.
    apply R. lia.
  - apply round_pos; [lia | fold t; lia].
Qed.

(** ** Comparison of dyadic numbers [m * 2^e] *)

Lemma pow2_pos n : 0 <= n -> 0 < 2 ^ n.
Proof. intro H. apply Z.pow_pos_nonneg; lia. Qed.

Lemma pow2_split a b : 0 <= a -> 0 <= b -> 2 ^ (a + b) = 2 ^ a * 2 ^ b.
Proof. intros. apply Z.pow_add_r; assumption. Qed.

Lemma dy_le_scale c m1 e1 m2 e2 :
  c <= e1 -> c <= e2 ->
  (dy_le m1 e1 m2 e2 <-> m1 * 2 ^ (e1 - c) <= m2 * 2 ^ (e2 - c)).
Proof.
  intros H1 H2. unfold dy_le.
  set (z := Z.min e1 e2).
  replace (e1 - c) with ((e1 - z) + (z - c)) by lia.
  replace (e2 - c) with ((e2 - z) + (z - c)) by lia.
  rewrite !pow2_split by lia.
  pose proof (pow2_pos (z - c) ltac:(lia)).
  rewrite !Z.mul_assoc. split; intro H0.
  - apply Z.mul_le_mono_nonneg_r; lia.
  - apply Z.mul_le_mono_pos_r in H0; lia.
Qed.

Lemma dy_lt_scale c m1 e1 m2 e2 :
  c <= e1 -> c <= e2 ->
  (dy_lt m1 e1 m2 e2 <-> m1 * 2 ^ (e1 - c) < m2 * 2 ^ (e2 - c)).
Proof.
  intros H1 H2. unfold dy_lt.
  set (z := Z.min e1 e2).
  replace (e1 - c) with ((e1 - z) + (z - c)) by lia.
  replace (e2 - c) with ((e2 - z) + (z - c)) by lia.
  rewrite !pow2_split by lia.
  pose proof (pow2_pos (z - c) ltac:(lia)).
  rewrite !Z.mul_assoc. split; intro H0.
  - apply Z.mul_lt_mono_pos_r; lia.
  - apply Z.mul_lt_mono_pos_r in H0; lia.
Qed.

Lemma dy_le_lt_trans m1 e1 m2 e2 m3 e3 :
  dy_le m1 e1 m2 e2 -> dy_lt m2 e2 m3 e3 -> dy_lt m1 e1 m3 e3.
Proof.
  intros H1 H2.
  set (c := Z.min e1 (Z.min e2 e3)).
  apply (dy_le_scale c) in H1; [|lia|lia].
  apply (dy_lt_scale c) in H2; [|lia|lia].
  apply (dy_lt_scale c); lia.
Qed.

Lemma dy_lt_le_trans m1 e1 m2 e2 m3 e3 :
  dy_lt m1 e1 m2 e2 -> dy_le m2 e2 m3 e3 -> dy_lt m1 e1 m3 e3.
Proof.
  intros H1 H2.
  set (c := Z.min e1 (Z.min e2 e3)).
  apply (dy_lt_scale c) in H1; [|lia|lia].
  apply (dy_le_scale c) in H2; [|lia|lia].
  apply (dy_lt_scale c); lia.
Qed.

(** The integer part of a dyadic number below an integer is below it. *)
Lemma shiftl_lt q t n :
  0 <= q -> dy_lt q t n 0 -> Z.shiftl q t < n.
Proof.
  intros Hq H. destruct (Z.le_gt_cases 0 t) as [Ht|Ht].
  - apply (dy_lt_scale 0) in H; [|lia|lia].
    rewrite Z.shiftl_mul_pow2 by assumption.
    replace (t - 0) with t in H by lia.
    change (2 ^ (0 - 0)) with 1 in H. lia.
  - apply (dy_lt_scale t) in H; [|lia|lia].
    rewrite Z.shiftl_div_pow2 by lia.
    replace (t - t) with 0 in H by lia. rewrite Z.pow_0_r in H.
    replace (0 - t) with (- t) in H by lia.
    apply Z.div_lt_upper_bound; [apply pow2_pos; lia | nia].
Qed.

Lemma rne_up_inexact m k :
  0 <= m -> 0 < k -> rne m k <> m / 2 ^ k -> 0 < m mod 2 ^ k.
Proof.
  intros Hm Hk H.
  pose proof (Z.mod_pos_bound m (2 ^ k) (pow2_pos k ltac:(lia))) as B.
  destruct (Z.eq_dec (m mod 2 ^ k) 0) as [E|E]; [|lia].
  elim H. apply rne_exact; lia.
Qed.

Lemma binary_normalize_pos z e :
  0 < z ->
  (0 <= round_mant z e (fexp64 (Zdigits2 z + e)) <= 2 ^ 53) /\
  (-1074 < fexp64 (Zdigits2 z + e) ->
   2 ^ 52 <= round_mant z e (fexp64 (Zdigits2 z + e))) /\
  binary_normalize PyFloat.prec PyFloat.emax z e false
  = mk_float false (round_mant z e (fexp64 (Zdigits2 z + e)))
      (fexp64 (Zdigits2 z + e)).
Proof.
  intro Hz. destruct z as [|p|p]; try lia.
  apply binary_round_spec.
Qed.

(** The conversion of a base: a normal double whose predecessor is below
    the base, unless the base is out of range. *)
Lemma of_int_base tb :
  2 <= tb ->
  PyFloat.of_int tb = Raise OverflowError \/
  exists F ef,
    PyFloat.of_int tb = Return (S754_finite false (Z.to_pos F) ef) /\
    2 ^ 52 <= F < 2 ^ 53 /\ -51 <= ef <= 971 /\
    dy_lt (pred_mant F) (pred_exp F ef) tb 0.
Proof.
  intro Htb. unfold PyFloat.of_int.
  destruct (binary_normalize_pos tb 0 ltac:(lia)) as (Hq & Hn & ->).
  rewrite Z.add_0_r in *.
  pose proof (Zdigits2_ge tb 2 ltac:(lia) ltac:(change (2 ^ (2 - 1)) with 2; lia)) as Hd.
  pose proof (Zdigits2_bounds tb ltac:(lia)) as [Hlo Hhi].
  set (d := Zdigits2 tb) in *.
  assert (Et : fexp64 d = d - 53) by (unfold fexp64; lia).
  rewrite Et in *. specialize (Hn ltac:(lia)).
  set (q := round_mant tb 0 (d - 53)) in *.
  unfold mk_float.
  destruct (Z.eqb_spec q 0) as [|_]; [lia|].
  destruct (Z.eqb_spec q (2 ^ 53)) as [Eq|Nq].
  - (* the mantissa was rounded up to 2^53 *)
    destruct (Z.leb_spec (d - 53 + 1) 971) as [Hle|]; [right|left; reflexivity].
    exists (2 ^ 52), (d - 53 + 1).
    split; [reflexivity|]. split; [lia|].
    unfold q, round_mant in Eq.
    destruct (Z.ltb_spec (d - 53) 0) as [Hneg|Hpos].
    { (* exact: impossible, the mantissa is below 2^53 *)
      exfalso.
      assert (tb * 2 ^ (0 - (d - 53)) < 2 ^ d * 2 ^ (0 - (d - 53))).
      { apply Z.mul_lt_mono_pos_r; [apply pow2_pos; lia | lia]. }
      rewrite <- pow2_split in H by lia.
      replace (d + (0 - (d - 53))) with 53 in H by lia. lia. }
    replace (d - 53 - 0) with (d - 53) in Eq by lia.
    assert (Hk : 0 < d - 53).
    { destruct (Z.eq_dec (d - 53) 0) as [E0|]; [|lia].
      exfalso. rewrite E0 in Eq. change (rne tb 0) with tb in Eq.
      replace d with 53 in Hhi by lia. lia. }
    split; [lia|].
    pose proof (rne_bounds tb (d - 53) ltac:(lia)) as B.
    replace (Z.max (d - 53) 0) with (d - 53) in B by lia.
    assert (Hq0 : tb / 2 ^ (d - 53) < 2 ^ 53).
    { apply Z.div_lt_upper_bound; [apply pow2_pos; lia|].
      rewrite <- pow2_split by lia.
      replace (d - 53 + 53) with d by lia. lia. }
    assert (Hr : 0 < tb mod 2 ^ (d - 53)).
    { apply rne_up_inexact; lia. }
    pose proof (Z.div_mod tb (2 ^ (d - 53))
                  ltac:(pose proof (pow2_pos (d - 53)); lia)) as D.
    unfold pred_mant, pred_exp. change (2 ^ 52 =? 2 ^ 52) with true.
    cbv iota.
    apply (dy_lt_scale 0); [lia|lia|].
    replace (d - 53 + 1 - 1 - 0) with (d - 53) by lia.
    change (2 ^ (0 - 0)) with 1.
    assert (tb / 2 ^ (d - 53) = 2 ^ 53 - 1) by lia.
    nia.
  - destruct (Z.leb_spec (d - 53) 971) as [Hle|]; [right|left; reflexivity].
    exists q, (d - 53).
    split; [reflexivity|]. split; [lia|]. split; [lia|].
    unfold pred_mant, pred_exp.
    unfold q, round_mant in *.
    destruct (Z.ltb_spec (d - 53) 0) as [Hneg|Hpos].
    + (* the conversion is exact *)
      destruct (Z.eqb_spec (tb * 2 ^ (0 - (d - 53))) (2 ^ 52)) as [E|E].
      * apply (dy_lt_scale (d - 53 - 1)); [lia|lia|].
        replace (d - 53 - 1 - (d - 53 - 1)) with 0 by lia.
        replace (0 - (d - 53 - 1)) with (1 + (0 - (d - 53))) by lia.
        rewrite pow2_split by lia. change (2 ^ 1) with 2.
        change (2 ^ 0) with 1. lia.
      * apply (dy_lt_scale (d - 53)); [lia|lia|].
        replace (d - 53 - (d - 53)) with 0 by lia.
        change (2 ^ 0) with 1. lia.
    + replace (d - 53 - 0) with (d - 53) in * by lia.
      pose proof (rne_bounds tb (d - 53) ltac:(lia)) as B.
      replace (Z.max (d - 53) 0) with (d - 53) in B by lia.
      pose proof (pow2_pos (d - 53) ltac:(lia)) as P.
      pose proof (Z.div_mod tb (2 ^ (d - 53)) ltac:(lia)) as D.
      pose proof (Z.mod_pos_bound tb (2 ^ (d - 53)) P) as Bm.
      destruct (Z.eqb_spec (rne tb (d - 53)) (2 ^ 52)) as [E|E].
      * (* the predecessor is in the binade below *)
        destruct (Z.eq_dec (d - 53) 0) as [E0|E0].
        { rewrite E0 in *. change (rne tb 0) with tb in E.
          apply (dy_lt_scale (-1)); [lia|lia|].
          change (2 ^ (0 - 1 - -1)) with 1. change (2 ^ (0 - -1)) with 2.
          lia. }
        apply (dy_lt_scale 0); [lia|lia|].
        change (2 ^ (0 - 0)) with 1.
        replace (d - 53 - 1 - 0) with (d - 53 - 1) by lia.
        assert (P2 : 2 ^ (d - 53) = 2 * 2 ^ (d - 53 - 1)).
        { rewrite <- Z.pow_succ_r by lia. f_equal. lia. }
        assert (2 ^ 52 <= tb / 2 ^ (d - 53)).
        { apply Z.div_le_lower_bound; [lia|].
          rewrite <- pow2_split by lia.
          replace (d - 53 + 52) with (d - 1) by lia. lia. }
        assert (tb / 2 ^ (d - 53) = 2 ^ 52) by lia.
        pose proof (pow2_pos (d - 53 - 1) ltac:(lia)).
        nia.
      * apply (dy_lt_scale 0); [lia|lia|].
        change (2 ^ (0 - 0)) with 1.
        replace (d - 53 - 0) with (d - 53) by lia.
        destruct (Z.eq_dec (rne tb (d - 53)) (tb / 2 ^ (d - 53))) as [Er|Er].
        { rewrite Er. nia. }
        assert (Hk : 0 < d - 53).
        { destruct (Z.eq_dec (d - 53) 0) as [E0|]; [|lia].
          exfalso. apply Er. rewrite E0. change (rne tb 0) with tb.
          rewrite Z.pow_0_r, Z.div_1_r. reflexivity. }
        assert (Hr : 0 < tb mod 2 ^ (d - 53)) by (apply rne_up_inexact; lia).
        assert (rne tb (d - 53) = tb / 2 ^ (d - 53) + 1) by lia.
        nia.
Qed.

(** ** The fractional accumulator *)

Lemma bounded_spec m e :
  bounded PyFloat.prec PyFloat.emax m e = true ->
  -1074 <= e <= 971 /\ Zdigits2 (Zpos m) <= 53 /\
  (-1074 < e -> Zdigits2 (Zpos m) = 53) /\ Zpos m < 2 ^ 53.
Proof.
  unfold bounded, canonical_mantissa. rewrite fexp64_eq. unfold fexp64.
  change (Zpos (digits2_pos m)) with (Zdigits2 (Zpos m)).
  intro H. apply andb_true_iff in H. destruct H as [H1 H2].
  apply Z.eqb_eq in H1. apply Z.leb_le in H2.
  change (PyFloat.emax - PyFloat.prec) with 971 in H2.
  assert (Hd : Zdigits2 (Zpos m) <= 53) by lia.
  repeat split; try lia.
  pose proof (Zdigits2_bounds (Zpos m) ltac:(lia)) as [_ Hhi].
  eapply Z.lt_le_trans; [exact Hhi|]. apply Z.pow_le_mono_r; lia.
Qed.

(** A double below 1 is at most [1 - 2^-53]. *)
Lemma unit_bound X ex :
  0 < X < 2 ^ 53 -> ex < 0 -> X < 2 ^ (- ex) ->
  X * 2 ^ 53 <= (2 ^ 53 - 1) * 2 ^ (- ex).
Proof.
  intros HX Hex Hlt.
  destruct (Z.le_gt_cases (- ex) 53) as [H|H].
  - assert (2 ^ (- ex) <= 2 ^ 53) by (apply Z.pow_le_mono_r; lia).
    nia.
  - assert (2 ^ 53 <= 2 ^ (- ex)) by (apply Z.pow_le_mono_r; lia).
    nia.
Qed.

Lemma mul_below_pred mx ex F ef :
  bounded PyFloat.prec PyFloat.emax mx ex = true ->
  ex < 0 -> Zpos mx < 2 ^ (- ex) ->
  2 ^ 52 <= F < 2 ^ 53 -> -51 <= ef <= 971 ->
  exists q t,
    PyFloat.mul (S754_finite false mx ex) (S754_finite false (Z.to_pos F) ef)
    = mk_float false q t /\
    1 <= q <= 2 ^ 53 /\ -1074 <= t <= 971 /\
    (-1074 < t -> 2 ^ 52 <= q) /\ (q = 2 ^ 53 -> t + 1 <= 971) /\
    dy_le q t (pred_mant F) (pred_exp F ef).
Proof.
  intros Hb Hex Hlt HF Hef.
  destruct (bounded_spec _ _ Hb) as (Hexr & Hdx & _ & HX53).
  set (X := Zpos mx) in *.
  pose proof (unit_bound X ex ltac:(lia) Hex Hlt) as HU.
  unfold PyFloat.mul, SFmul. cbn [xorb].
  rewrite Pos2Z.inj_mul, Z2Pos.id by lia. fold X.
  set (M := X * F). set (E := ex + ef).
  assert (HM : 2 ^ 52 <= M) by (unfold M; nia).
  pose proof (pow2_pos (- ex) ltac:(lia)) as PA.
  set (A := 2 ^ (- ex)) in *.
  assert (HMA : M < F * A) by (unfold M; nia).
  assert (Hd53 : 53 <= Zdigits2 M) by (apply Zdigits2_ge; lia).
  assert (HdA : Zdigits2 M <= 53 - ex).
  { apply Zdigits2_le. split; [lia|].
    replace (53 - ex) with (53 + - ex) by lia. rewrite pow2_split by lia.
    fold A. nia. }
  destruct (round_pos false M E ltac:(lia)) as (Hq & Hn & ->).
  { unfold fexp64, E. lia. }
  set (d := Zdigits2 M) in *. set (t := fexp64 (d + E)) in *.
  assert (Ht : t = Z.max (d + E - 53) (-1074)) by reflexivity.
  set (k := t - E) in *. assert (Hk : 0 <= k) by (unfold k, E in *; lia).
  assert (Htef : t <= ef) by (unfold E in *; lia).
  pose proof (pow2_pos k Hk) as Pk.
  assert (Hq1 : 1 <= rne M k).
  { destruct (Z.eq_dec t (-1074)) as [E0|N0]; [|specialize (Hn ltac:(lia)); lia].
    apply (rne_ge M k 1); try lia.
    assert (2 ^ k <= 2 ^ 51) by (apply Z.pow_le_mono_r; unfold k, E; lia).
    lia. }
  (* the bound by the predecessor, at the exponent [t] *)
  assert (Hpred : t <= pred_exp F ef /\
                  rne M k <= pred_mant F * 2 ^ (pred_exp F ef - t)).
  { unfold pred_mant, pred_exp.
    destruct (Z.eqb_spec F (2 ^ 52)) as [EF|NF].
    - (* F = 2^52 *)
      assert (Hd52 : d <= 52 - ex).
      { apply Zdigits2_le. split; [lia|].
        replace (52 - ex) with (52 + - ex) by lia. rewrite pow2_split by lia.
        fold A. unfold M. rewrite EF. nia. }
      assert (Ht1 : t <= ef - 1) by (unfold E in *; lia).
      split; [exact Ht1|].
      apply rne_le; try lia.
      rewrite <- Z.mul_assoc, <- pow2_split by (unfold k; lia).
      replace (ef - 1 - t + k) with (- ex - 1) by (unfold k, E; lia).
      assert (PA2 : A = 2 * 2 ^ (- ex - 1)).
      { unfold A. rewrite <- Z.pow_succ_r by lia. f_equal. lia. }
      unfold M. rewrite EF. lia.
    - split; [exact Htef|].
      destruct (Z.le_gt_cases d (52 - ex)) as [Hd52|Hd52].
      + apply rne_le; try lia.
        rewrite <- Z.mul_assoc, <- pow2_split by (unfold k; lia).
        replace (ef - t + k) with (- ex) by (unfold k, E; lia). fold A.
        pose proof (Zdigits2_bounds M ltac:(lia)) as [_ Hhi]. fold d in Hhi.
        assert (2 ^ d <= 2 ^ (52 - ex)) by (apply Z.pow_le_mono_r; lia).
        replace (52 - ex) with (52 + - ex) in H by lia.
        rewrite pow2_split in H by lia. fold A in H. nia.
      + assert (Etk : t = ef /\ k = - ex) by (unfold k, E in *; lia).
        destruct Etk as [Et Ek].
        replace (ef - t) with 0 by lia. rewrite Z.pow_0_r, Z.mul_1_r.
        apply rne_le_half; try lia.
        rewrite Ek. fold A. unfold M.
        assert (2 * X * F * 2 ^ 53 < (2 * F - 1) * A * 2 ^ 53) by nia.
        nia. }
  destruct Hpred as [HtP HqP].
  exists (rne M k), t.
  split; [reflexivity|]. split; [lia|]. split; [lia|]. split; [exact Hn|].
  split.
  - intro Eq. destruct (Z.eq_dec t ef) as [Et|Nt]; [|lia].
    exfalso. revert HtP HqP. unfold pred_mant, pred_exp.
    destruct (Z.eqb_spec F (2 ^ 52)); [lia|].
    intros _ HqP. replace (ef - t) with 0 in HqP by lia.
    rewrite Z.pow_0_r in HqP. lia.
  - apply (dy_le_scale t); [lia|lia|].
    replace (t - t) with 0 by lia. rewrite Z.pow_0_r. lia.
Qed.

Lemma mk_float_finite s q t :
  0 < q < 2 ^ 53 -> t <= 971 ->
  mk_float s q t = S754_finite s (Z.to_pos q) t.
Proof.
  intros Hq Ht. unfold mk_float.
  destruct (Z.eqb_spec q 0); [lia|].
  destruct (Z.eqb_spec q (2 ^ 53)); [lia|].
  destruct (Z.leb_spec t 971); [reflexivity | lia].
Qed.

(** Normalising a representable value [R * 2^(j + e)] is exact. *)
Lemma binary_normalize_exact R j e :
  0 < R -> 0 <= j -> fexp64 (Zdigits2 R + (j + e)) <= j + e ->
  0 < R * 2 ^ (j + e - fexp64 (Zdigits2 R + (j + e))) < 2 ^ 53 /\
  binary_normalize PyFloat.prec PyFloat.emax (R * 2 ^ j) e false
  = mk_float false (R * 2 ^ (j + e - fexp64 (Zdigits2 R + (j + e))))
      (fexp64 (Zdigits2 R + (j + e))).
Proof.
  intros HR Hj Ht.
  pose proof (pow2_pos j Hj) as Pj.
  destruct (binary_normalize_pos (R * 2 ^ j) e ltac:(nia)) as (_ & _ & ->).
  rewrite Zdigits2_shift by assumption.
  replace (Zdigits2 R + j + e) with (Zdigits2 R + (j + e)) by lia.
  set (t := fexp64 (Zdigits2 R + (j + e))) in *.
  pose proof (pow2_pos (j + e - t) ltac:(lia)) as Pt.
  assert (Hlt : R * 2 ^ (j + e - t) < 2 ^ 53).
  { pose proof (Zdigits2_bounds R HR) as [_ Hhi].
    assert (2 ^ (Zdigits2 R + (j + e - t)) <= 2 ^ 53).
    { apply Z.pow_le_mono_r; unfold t, fexp64; lia. }
    pose proof (Zdigits2_pos R HR).
    rewrite pow2_split in H by lia. nia. }
  split; [nia|]. f_equal.
  unfold round_mant. destruct (Z.ltb_spec t e) as [Hte|Hte].
  - rewrite <- Z.mul_assoc, <- pow2_split by lia. f_equal. f_equal. lia.
  - assert (Es : R * 2 ^ j = R * 2 ^ (j + e - t) * 2 ^ (t - e)).
    { rewrite <- Z.mul_assoc, <- pow2_split by lia. f_equal. f_equal. lia. }
    rewrite Es, rne_exact; try lia.
    + apply Z.div_mul. pose proof (pow2_pos (t - e)); lia.
    + apply Z.mod_mul. pose proof (pow2_pos (t - e)); lia.
Qed.

Lemma sub_pos m1 e1 m2 e2 :
  PyFloat.sub (S754_finite false m1 e1) (S754_finite false m2 e2)
  = binary_normalize PyFloat.prec PyFloat.emax
      (Zpos m1 * 2 ^ (e1 - Z.min e1 e2) - Zpos m2 * 2 ^ (e2 - Z.min e1 e2))
      (Z.min e1 e2) false.
Proof.
  unfold PyFloat.sub, SFsub. cbn [cond_Zopp]. rewrite !shl_align_spec.
  f_equal. f_equal.
  - destruct (Z.ltb_spec (Z.min e1 e2) e1); cbn [fst].
    + rewrite Z2Pos.id; [reflexivity|].
      pose proof (pow2_pos (e1 - Z.min e1 e2)); nia.
    + replace (e1 - Z.min e1 e2) with 0 by lia. lia.
  - destruct (Z.ltb_spec (Z.min e1 e2) e2); cbn [fst].
    + rewrite Z2Pos.id; [reflexivity|].
      pose proof (pow2_pos (e2 - Z.min e1 e2)); nia.
    + replace (e2 - Z.min e1 e2) with 0 by lia. lia.
Qed.

Lemma of_int_exact D :
  0 < D < 2 ^ 53 ->
  PyFloat.of_int D
  = Return (S754_finite false (Z.to_pos (D * 2 ^ (53 - Zdigits2 D)))
              (Zdigits2 D - 53)).
Proof.
  intro HD. unfold PyFloat.of_int.
  pose proof (Zdigits2_pos D ltac:(lia)) as Hd0.
  pose proof (Zdigits2_le D 53 HD) as Hd1.
  assert (Et : fexp64 (Zdigits2 D + (0 + 0)) = Zdigits2 D - 53)
    by (unfold fexp64; lia).
  destruct (binary_normalize_exact D 0 0 ltac:(lia) ltac:(lia)) as [Hq E].
  { rewrite Et. lia. }
  rewrite Z.pow_0_r, Z.mul_1_r in E. rewrite E, Et in *.
  replace (0 + 0 - (Zdigits2 D - 53)) with (53 - Zdigits2 D) in * by lia.
  rewrite mk_float_finite by lia. reflexivity.
Qed.

(** Taking the integer part off a non-negative double leaves a double in
    [0, 1). *)
Lemma remainder_unit mp ep :
  bounded PyFloat.prec PyFloat.emax mp ep = true ->
  exists r,
    remainder (S754_finite false mp ep) (Z.shiftl (Zpos mp) ep) = Return r /\
    in_unit r = true.
Proof.
  intro Hb. destruct (bounded_spec _ _ Hb) as (Hep & Hd & Hnorm & HP).
  set (P := Zpos mp) in *. unfold remainder.
  destruct (Z.le_gt_cases 0 ep) as [Hpos|Hneg].
  - (* an integer: the remainder is 0.0 *)
    rewrite Z.shiftl_mul_pow2 by assumption.
    unfold PyFloat.of_int.
    specialize (Hnorm ltac:(lia)).
    assert (Et : fexp64 (Zdigits2 P + (ep + 0)) = ep)
      by (unfold fexp64; lia).
    destruct (binary_normalize_exact P ep 0 ltac:(lia) Hpos) as [Hq E].
    { rewrite Et. lia. }
    rewrite E, Et. replace (ep + 0 - ep) with 0 by lia.
    rewrite Z.pow_0_r, Z.mul_1_r, mk_float_finite by lia.
    unfold P. rewrite Pos2Z.id. cbn [bind].
    rewrite sub_pos. replace (ep - Z.min ep ep) with 0 by lia.
    rewrite Z.sub_diag. eexists. split; reflexivity.
  - rewrite Z.shiftl_div_pow2 by lia.
    pose proof (pow2_pos (- ep) ltac:(lia)) as PA.
    pose proof (Z.div_mod P (2 ^ (- ep)) ltac:(lia)) as DM.
    pose proof (Z.mod_pos_bound P (2 ^ (- ep)) PA) as BM.
    set (D := P / 2 ^ (- ep)) in *. set (R := P mod 2 ^ (- ep)) in *.
    assert (HD0 : 0 <= D) by (apply Z.div_pos; lia).
    destruct (Z.eq_dec D 0) as [ED|ND].
    + (* no integer part *)
      rewrite ED. cbn [PyFloat.of_int binary_normalize bind].
      change (PyFloat.sub (S754_finite false mp ep) (S754_zero false))
        with (S754_finite false mp ep).
      eexists. split; [reflexivity|].
      unfold in_unit. cbn [valid_binary]. rewrite Hb. cbn [andb].
      apply andb_true_iff. split; [apply Z.ltb_lt; lia|].
      apply Z.ltb_lt. fold P. nia.
    + assert (HD : 0 < D < 2 ^ 53) by nia.
      rewrite of_int_exact by assumption. cbn [bind].
      rewrite sub_pos.
      pose proof (Zdigits2_pos D ltac:(lia)) as Hd0.
      pose proof (Zdigits2_le D 53 HD) as Hd1.
      set (tD := Zdigits2 D - 53) in *.
      set (ez := Z.min ep tD).
      rewrite Z2Pos.id by (pose proof (pow2_pos (53 - Zdigits2 D)); nia).
      fold P.
      assert (EM : P * 2 ^ (ep - ez)
                   - D * 2 ^ (53 - Zdigits2 D) * 2 ^ (tD - ez)
                   = R * 2 ^ (ep - ez)).
      { rewrite <- Z.mul_assoc, <- pow2_split by (unfold tD, ez; lia).
        replace (53 - Zdigits2 D + (tD - ez)) with (- ep + (ep - ez))
          by (unfold tD; lia).
        rewrite pow2_split by (unfold ez; lia). nia. }
      rewrite EM.
      destruct (Z.eq_dec R 0) as [ER|NR].
      * rewrite ER, Z.mul_0_l. eexists. split; reflexivity.
      * assert (HR : 0 < R) by lia.
        assert (HdR : Zdigits2 R <= 53) by (apply Zdigits2_le; nia).
        pose proof (Zdigits2_pos R HR) as HdR0.
        destruct (binary_normalize_exact R (ep - ez) ez HR
                    ltac:(unfold ez; lia)) as [Hq E].
        { unfold fexp64. lia. }
        replace (ep - ez + ez) with ep in * by lia.
        set (t := fexp64 (Zdigits2 R + ep)) in *.
        assert (Ht : -1074 <= t <= ep) by (unfold t, fexp64; lia).
        rewrite E, mk_float_finite by lia.
        eexists. split; [reflexivity|].
        unfold in_unit. apply andb_true_iff. split.
        -- rewrite <- (mk_float_finite false) by lia.
           apply mk_float_valid; try lia.
           intro Hn.
           assert (Et : t = Zdigits2 R + ep - 53) by (unfold t, fexp64 in *; lia).
           pose proof (Zdigits2_bounds R HR) as [Hlo _].
           replace (ep - t) with (53 - Zdigits2 R) by lia.
           assert (2 ^ 52 = 2 ^ (Zdigits2 R - 1) * 2 ^ (53 - Zdigits2 R)).
           { rewrite <- pow2_split by lia. f_equal. lia. }
           pose proof (pow2_pos (53 - Zdigits2 R) ltac:(lia)). nia.
        -- apply andb_true_iff. split; [apply Z.ltb_lt; lia|].
           apply Z.ltb_lt. rewrite Z2Pos.id by lia.
           replace (- t) with (- ep + (ep - t)) by lia.
           rewrite pow2_split by lia.
           pose proof (pow2_pos (ep - t) ltac:(lia)). nia.
Qed.

Lemma mk_float_shiftl q t :
  1 <= q <= 2 ^ 53 -> t <= 971 -> (q = 2 ^ 53 -> t + 1 <= 971) ->
  exists mp ep,
    mk_float false q t = S754_finite false mp ep /\
    Z.shiftl (Zpos mp) ep = Z.shiftl q t.
Proof.
  intros Hq Ht Hc. unfold mk_float.
  destruct (Z.eqb_spec q 0); [lia|].
  destruct (Z.eqb_spec q (2 ^ 53)) as [->|N].
  - destruct (Z.leb_spec (t + 1) 971); [|lia].
    eexists. eexists. split; [reflexivity|].
    change (2 ^ 53) with (Z.shiftl (2 ^ 52) 1).
    rewrite Z.shiftl_shiftl by lia. f_equal. lia.
  - destruct (Z.leb_spec t 971); [|lia].
    eexists. eexists. split; [reflexivity|].
    rewrite Z2Pos.id by lia. reflexivity.
Qed.

(** One iteration of the digit loop, for a base of at least 2 and an
    accumulator in [0, 1): unless the base is too large for a float, the
    digit is in [0, base) and the new accumulator is in [0, 1). *)
Lemma next_digit_unit to_base x :
  2 <= to_base -> in_unit x = true ->
  PyFloat.of_int to_base = Raise OverflowError \/
  exists d c r,
    next_digit to_base x = Return (d, c) /\
    remainder c d = Return r /\
    0 <= d < to_base /\ in_unit r = true.
Proof.
  intros Htb Hx.
  destruct (of_int_base to_base Htb) as [Hov|(F & ef & Hof & HF & Hef & Hpred)];
    [left; exact Hov | right].
  unfold next_digit. rewrite Hof. cbn [bind].
  unfold in_unit in Hx. apply andb_true_iff in Hx. destruct Hx as [Hv Hx].
  destruct x as [s|s| |s mx ex]; try discriminate.
  - (* 0.0 *)
    exists 0, (S754_zero (xorb s false)), (S754_zero s).
    split; [reflexivity|]. split; [destruct s; reflexivity|].
    split; [lia | reflexivity].
  - destruct s; [discriminate|].
    apply andb_true_iff in Hx. destruct Hx as [Hex Hlt].
    apply Z.ltb_lt in Hex, Hlt. cbn [valid_binary] in Hv.
    destruct (mul_below_pred mx ex F ef Hv Hex Hlt HF Hef)
      as (q & t & Hmul & Hq & Ht & Hn & Hc & Hle).
    rewrite Hmul.
    destruct (mk_float_shiftl q t Hq ltac:(lia) Hc) as (mp & ep & Emk & Esh).
    pose proof (mk_float_valid false q t ltac:(lia) Hn ltac:(lia)) as Hval.
    rewrite Emk in *. cbn [valid_binary] in Hval.
    destruct (remainder_unit mp ep Hval) as (r & Hr & Hru).
    exists (Z.shiftl (Zpos mp) ep), (S754_finite false mp ep), r.
    split; [reflexivity|]. split; [exact Hr|]. split; [|exact Hru].
    rewrite Esh. split.
    + apply Z.shiftl_nonneg. lia.
    + apply shiftl_lt; [lia|].
      eapply dy_le_lt_trans; eassumption.
Qed.

Lemma digit_text_symbol d :
  0 <= d < 36 -> digit_text d = Return [digit_symbol d].
Proof.
  intro Hd. unfold digit_text, digit_symbol.
  destruct (Z.leb_spec 10 d) as [H|H].
  - unfold py_chr.
    destruct (Z.ltb_spec (Z.of_N 65 + d - 10) (- 2 ^ 31)); [lia|].
    destruct (Z.ltb_spec (2 ^ 31 - 1) (Z.of_N 65 + d - 10)); [lia|].
    cbn [orb].
    destruct (Z.leb_spec 0 (Z.of_N 65 + d - 10)); [|lia].
    destruct (Z.ltb_spec (Z.of_N 65 + d - 10) 1114112); [|lia].
    cbn [andb bind]. f_equal. f_equal.
    unfold digit_char, upper_char.
    destruct (N.ltb_spec (Z.to_N d) 10); [lia|].
    destruct (N.leb_spec 97 (87 + Z.to_N d)); [|lia].
    destruct (N.leb_spec (87 + Z.to_N d) 122); [|lia].
    cbn [andb]. lia.
  - unfold py_str. rewrite sign_prefix_nonneg by lia. cbn [app].
    rewrite to_digits_small by lia. f_equal. f_equal.
    unfold digit_char, upper_char.
    destruct (N.ltb_spec (Z.abs_N d) 10); [|lia].
    destruct (N.ltb_spec (Z.to_N d) 10); [|lia].
    destruct (N.leb_spec 97 (48 + Z.to_N d)); [lia|].
    cbn [andb]. lia.
Qed.

Lemma digit_symbol_valid base d :
  0 <= d < base -> base <= 36 ->
  valid_digit (Z.to_N base) (digit_symbol d) = true.
Proof.
  intros Hd Hb. unfold digit_symbol.
  rewrite valid_digit_upper. unfold valid_digit.
  rewrite digit_value_digit_char by lia. apply N.ltb_lt. lia.
Qed.

Lemma of_int_small tb :
  2 <= tb <= 36 -> PyFloat.of_int tb <> Raise OverflowError.
Proof.
  intro H. rewrite of_int_exact by lia. discriminate.
Qed.

(** The digit loop for a base from 2 to 36, from an accumulator in
    [0, 1): it returns, appending at most [n] characters, each the symbol
    of a digit below the base. *)
Lemma frac_loop_digits to_base n : forall res_frac x,
  2 <= to_base <= 36 -> in_unit x = true ->
  exists ds,
    frac_loop n to_base res_frac x
    = Return (res_frac ++ List.map digit_symbol ds) /\
    Forall (fun d => 0 <= d < to_base) ds /\
    (List.length ds <= n)%nat.
Proof.
  induction n as [|n IH]; intros res_frac x Hb Hx.
  - exists []. cbn. rewrite app_nil_r. auto.
  - destruct (next_digit_unit to_base x ltac:(lia) Hx)
      as [Hov|(d & c & r & Hn & Hr & Hd & Hu)].
    { elim (of_int_small to_base Hb Hov). }
    cbn [frac_loop]. rewrite Hn. cbn [bind].
    rewrite digit_text_symbol by lia. cbn [bind]. rewrite Hr. cbn [bind].
    destruct (PyFloat.eq_zero r).
    + exists [d]. split; [reflexivity|]. split; [auto|cbn; lia].
    + destruct (IH (res_frac ++ [digit_symbol d]) r Hb Hu)
        as (ds & Hl & Hf & Hlen).
      exists (d :: ds). split; [|split].
      * rewrite Hl, <- app_assoc. reflexivity.
      * constructor; assumption.
      * cbn [List.length]. lia.
Qed.

(** ** [convert_fraction] with no fractional digits requested *)

Lemma valid_digit_not_sep base c :
  valid_digit base c = true -> (c =? 44)%N = false /\ (c =? 46)%N = false.
Proof.
  unfold valid_digit, PyInt.digit_value.
  char_cases; intro Hv; try discriminate; split; reflexivity || lia.
Qed.

Lemma replace_comma_digits base s :
  forallb (valid_digit base) s = true -> replace_comma s = s.
Proof.
  induction s as [|c s IH]; [reflexivity|].
  cbn [forallb]. intro H. apply andb_true_iff in H. destruct H as [Hc Hs].
  destruct (valid_digit_not_sep _ _ Hc) as [E _].
  unfold replace_comma in *. cbn [List.map]. rewrite E, IH by assumption.
  reflexivity.
Qed.

Lemma split_dot_digits base s :
  forallb (valid_digit base) s = true -> split_dot s = [s].
Proof.
  induction s as [|c s IH]; [reflexivity|].
  cbn [forallb]. intro H. apply andb_true_iff in H. destruct H as [Hc Hs].
  destruct (valid_digit_not_sep _ _ Hc) as [_ E].
  cbn [split_dot]. rewrite E, IH by assumption. reflexivity.
Qed.

Lemma split_dot_point base s t :
  forallb (valid_digit base) s = true ->
  split_dot (s ++ 46%N :: t) = s :: split_dot t.
Proof.
  induction s as [|c s IH]; [reflexivity|].
  cbn [forallb]. intro H. apply andb_true_iff in H. destruct H as [Hc Hs].
  destruct (valid_digit_not_sep _ _ Hc) as [_ E].
  cbn [app split_dot]. rewrite E, IH by assumption. reflexivity.
Qed.

(** [parts[0]] and [parts[1]] are defined: the normalised [num_str]
    contains a ".", so [split] yields at least two parts. *)
Lemma split_dot_length s :
  (1 <= List.length (split_dot s))%nat /\
  (has_dot s = true -> 2 <= List.length (split_dot s))%nat.
Proof.
  induction s as [|c s [IH1 IH2]]; [cbn; split; [lia | discriminate]|].
  unfold has_dot in *. cbn [split_dot existsb].
  rewrite (N.eqb_sym 46 c).
  destruct (c =? 46)%N; cbn [orb List.length].
  - split; [lia | intros _; lia].
  - destruct (split_dot s) as [|q qs]; cbn [List.length] in *; [lia|].
    split; [lia | exact IH2].
Qed.

Lemma parts_defined number :
  (2 <= List.length
          (split_dot
             (if has_dot (replace_comma number) then replace_comma number
              else replace_comma number ++ lit ".0")))%nat.
Proof.
  destruct (has_dot (replace_comma number)) eqn:E.
  - apply split_dot_length, E.
  - apply split_dot_length. unfold has_dot. rewrite existsb_app.
    cbn. apply orb_true_r.
Qed.

Lemma of_int_in_range z :
  0 <= z < 2 ^ 1023 -> exists f, PyFloat.of_int z = Return f.
Proof.
  intros [H0 H1]. destruct (Z.eq_dec z 0) as [->|N]; [eexists; reflexivity|].
  unfold PyFloat.of_int.
  destruct (binary_normalize_pos z 0 ltac:(lia)) as (Hq & _ & ->).
  pose proof (Zdigits2_le z 1023 ltac:(lia)) as Hd.
  pose proof (Zdigits2_pos z ltac:(lia)) as Hd0.
  rewrite Z.add_0_r in *.
  assert (Ht : fexp64 (Zdigits2 z) <= 970) by (unfold fexp64; lia).
  unfold mk_float.
  destruct (_ =? 0); [eexists; reflexivity|].
  destruct (_ =? 2 ^ 53).
  - destruct (Z.leb_spec (fexp64 (Zdigits2 z) + 1) 971); [|lia].
    eexists; reflexivity.
  - destruct (Z.leb_spec (fexp64 (Zdigits2 z)) 971); [|lia].
    eexists; reflexivity.
Qed.

Lemma pow_neg_returns b k :
  b <> 0 -> exists f, PyFloat.pow_neg b k = Return f.
Proof.
  intro H. unfold PyFloat.pow_neg.
  destruct (Z.eqb_spec b 0); [contradiction|].
  destruct (SFdiv_core_binary _ _ _ _ _ _) as [[q e] l].
  eexists; reflexivity.
Qed.



(** ** The claims on [convert_fraction] *)

Lemma Forall_digit_symbol_valid to_base ds :
  to_base <= 36 -> Forall (fun d => 0 <= d < to_base) ds ->
  forallb (valid_digit (Z.to_N to_base)) (List.map digit_symbol ds) = true.
Proof.
  intros Hb H. induction H as [|d ds Hd _ IH]; [reflexivity|].
  cbn [List.map forallb]. rewrite digit_symbol_valid, IH by assumption.
  reflexivity.
Qed.



(** C7: the integer part is converted to a float before the base of the
    output is looked at, so an integer part beyond the range of a double
    (here 16^256 = 2^1024) makes the handler raise [OverflowError], which
    it does not catch, whatever the precision; with one digit less the
    answer is the integer part and a ".".  For a negative integer part
    the answer has the prefix letter for a sign, as in [convert_integer]. *)
Theorem convert_fraction_overflow :
  convert_fraction
    {| cf_number := lit "1" ++ repeat 48%N 256; cf_from_base := 16;
       cf_to_base := 2; cf_precision := 0 |}
  = Raise OverflowError /\
  convert_fraction
    {| cf_number := lit "1" ++ repeat 48%N 255; cf_from_base := 16;
       cf_to_base := 2; cf_precision := 0 |}
  = Return (ResultText (lit "1" ++ repeat 48%N 1020 ++ lit ".")) /\
  convert_fraction
    {| cf_number := lit "-5.5"; cf_from_base := 10; cf_to_base := 2;
       cf_precision := 0 |}
  = Return (ResultText (lit "b101.")).
Proof. repeat split; vm_compute; reflexivity. Qed.

(** C9: for a base of at least 2 and an accumulator in [0, 1), an
    iteration of the digit loop either fails on the conversion of a base
    beyond the range of a double, or takes a digit in [0, base) and leaves
    an accumulator in [0, 1) again, and it does the latter for every base
    below 2^1023; so for a base up to 36 the loop returns and appends only
    digits of the base, 10 to 15 as 'A' to 'F'. *)
Theorem frac_loop_invariant to_base x :
  2 <= to_base -> in_unit x = true ->
  ((PyFloat.of_int to_base = Raise OverflowError /\
    next_digit to_base x = Raise OverflowError) \/
   exists d c r,
     next_digit to_base x = Return (d, c) /\
     remainder c d = Return r /\
     0 <= d < to_base /\ in_unit r = true) /\
  (to_base < 2 ^ 1023 ->
   exists d c r,
     next_digit to_base x = Return (d, c) /\
     remainder c d = Return r /\
     0 <= d < to_base /\ in_unit r = true) /\
  (to_base <= 36 ->
   forall n res_frac,
   exists ds,
     frac_loop n to_base res_frac x
     = Return (res_frac ++ List.map digit_symbol ds) /\
     Forall (fun d => 0 <= d < to_base) ds /\
     forallb (valid_digit (Z.to_N to_base)) (List.map digit_symbol ds)
     = true /\
     (List.length ds <= n)%nat) /\
  List.map digit_symbol [10; 11; 12; 13; 14; 15] = lit "ABCDEF".
Proof.
  intros Htb Hx. split; [|split; [|split; [|reflexivity]]].
  - destruct (next_digit_unit to_base x Htb Hx) as [Hov|H];
      [left | right; exact H].
    split; [exact Hov|]. unfold next_digit. rewrite Hov. reflexivity.
  - intro Hr.
    destruct (next_digit_unit to_base x Htb Hx) as [Hov|H]; [|exact H].
    destruct (of_int_in_range to_base ltac:(lia)) as [f Hf].
    rewrite Hf in Hov. discriminate Hov.
  - intros Hb n res_frac.
    destruct (frac_loop_digits to_base n res_frac x ltac:(lia) Hx)
      as (ds & Hl & Hf & Hn).
    exists ds. split; [exact Hl|]. split; [exact Hf|].
    split; [|exact Hn].
    apply Forall_digit_symbol_valid; assumption.
Qed.

Lemma frac_loop_invariant_witness :
  exists ds,
    frac_loop 5 16 [] float_half = Return ([] ++ List.map digit_symbol ds) /\
    Forall (fun d => 0 <= d < 16) ds /\
    forallb (valid_digit (Z.to_N 16)) (List.map digit_symbol ds) = true /\
    (List.length ds <= 5)%nat.
Proof.
  apply (proj1 (proj2 (proj2
           (frac_loop_invariant 16 float_half
              ltac:(lia) ltac:(reflexivity))))).
  lia.
Defined.

End Rounding.

(** * Further properties of the handlers *)

(** ** More on [int] *)

Lemma base_in_range base :
  2 <= base <= 36 ->
  ((negb (Z.of_N base =? 0)%Z && (Z.of_N base <? 2)%Z)
   || (36 <? Z.of_N base)%Z)%bool = false.
Proof.
  intro H. apply orb_false_iff. split.
  - apply andb_false_iff. right. apply Z.ltb_ge. lia.
  - apply Z.ltb_ge. lia.
Qed.

(** A digit string after a sign. *)
Lemma py_int_signed base c s :
  2 <= base <= 36 -> c = 43 \/ c = 45 ->
  is_digit_string base s = true ->
  py_int (c :: s) (Z.of_N base)
  = Return (if c =? 45 then (- Z.of_N (digits_value base s))%Z
            else Z.of_N (digits_value base s)).
Proof.
  intros Hb Hc H. unfold py_int. rewrite base_in_range, N2Z.id by assumption.
  pose proof (is_digit_string_forallb _ _ H) as Hall.
  cbn [List.map]. rewrite (map_to_ascii_valid base) by assumption.
  assert (Ec : PyInt.to_ascii c = c) by (destruct Hc; subst; reflexivity).
  rewrite Ec.
  destruct s as [|d s]; [discriminate|].
  cbn [forallb] in Hall. apply andb_true_iff in Hall.
  destruct Hall as [Hd Hs].
  destruct (valid_digit_spec _ _ Hd) as (_ & _ & _ & Hu & _).
  unfold PyInt.parse.
  assert (E1 : PyInt.skip_space (c :: d :: s) = c :: d :: s)
    by (destruct Hc; subst; reflexivity).
  rewrite E1.
  assert (E2 : PyInt.split_sign (c :: d :: s) = (c =? 45, d :: s))
    by (destruct Hc; subst; reflexivity).
  rewrite E2.
  assert (Eb : (base =? 0) = false) by (apply N.eqb_neq; lia).
  rewrite Eb.
  assert (Ep : PyInt.strip_prefix base (d :: s) = d :: s).
  { destruct s as [|d' s]; [reflexivity|].
    cbn [PyInt.strip_prefix]. rewrite is_prefix_not_digit; [reflexivity|].
    cbn [forallb] in Hs. apply andb_true_iff in Hs. apply Hs. }
  rewrite Ep. cbn [PyInt.starts_with_underscore].
  apply N.eqb_neq in Hu. rewrite Hu.
  rewrite (scan_valid base) by (assumption || discriminate).
  reflexivity.
Qed.

(** A string of blanks, the empty string included, is no literal. *)
Lemma py_int_blank s b :
  forallb PyInt.is_space s = true -> py_int s b = Raise ValueError.
Proof.
  intro H. unfold py_int. destruct (_ || _)%bool; [reflexivity|].
  assert (E : List.map PyInt.to_ascii s = s).
  { induction s as [|c s IH]; [reflexivity|].
    cbn [forallb] in H. apply andb_true_iff in H. destruct H as [Hc Hs].
    cbn [List.map]. rewrite IH by assumption. f_equal.
    unfold PyInt.is_space in Hc. unfold PyInt.to_ascii.
    destruct (N.ltb_spec c 127) as [|Hge]; [reflexivity|].
    exfalso. revert Hc. char_cases; intro; try discriminate.
    all: lia. }
  rewrite E.
  assert (E0 : PyInt.skip_space s = []).
  { induction s as [|c s IH]; [reflexivity|].
    cbn [forallb] in H. apply andb_true_iff in H. destruct H as [Hc Hs].
    cbn [PyInt.skip_space]. rewrite Hc. apply IH; [assumption|].
    clear -E. injection E. auto. }
  unfold PyInt.parse. rewrite E0. cbn [PyInt.split_sign].
  destruct (Z.to_N b =? 0); reflexivity.
Qed.


Lemma supported_range B :
  supported B ->
  (2 <= Z.to_N B <= 36) /\ Z.of_N (Z.to_N B) = B.
Proof.
  intros [<-|[<-|[<-|[<-|[]]]]]; cbn; lia.
Qed.

(** [convert_integer] on a digit string. *)
Lemma convert_integer_digits B D s :
  supported B -> supported D -> is_digit_string (Z.to_N B) s = true ->
  convert_integer {| ci_number := s; ci_from_base := B; ci_to_base := D |}
  = Return {| cr_input := s; cr_from_base := B; cr_to_base := D;
              cr_result :=
                upper (to_digits (Z.to_N D) (digits_value (Z.to_N B) s));
              cr_decimal_value := Z.of_N (digits_value (Z.to_N B) s) |}.
Proof.
  intros HB HD Hs. destruct (supported_range B HB) as [RB EB].
  apply convert_integer_nonneg; [assumption|].
  rewrite <- EB at 1. apply py_int_digit_string; try lia. assumption.
Qed.


(** ** Further properties of [convert_integer] *)







(** X4: a number made of blanks only, the empty string included, is
    answered by the 400 for the number, for every pair of bases. *)
Theorem convert_integer_blank s B D :
  forallb PyInt.is_space s = true ->
  convert_integer {| ci_number := s; ci_from_base := B; ci_to_base := D |}
  = Raise (HTTPException 400 BadNumberForBase).
Proof.
  intro H. unfold convert_integer. cbn [ci_number ci_from_base].
  rewrite py_int_blank by assumption. reflexivity.
Qed.

Lemma convert_integer_blank_witness :
  convert_integer
    {| ci_number := lit "  "; ci_from_base := 16; ci_to_base := 2 |}
  = Raise (HTTPException 400 BadNumberForBase) /\
  convert_integer {| ci_number := []; ci_from_base := 10; ci_to_base := 5 |}
  = Raise (HTTPException 400 BadNumberForBase).
Proof.
  split.
  - apply (convert_integer_blank (lit "  ") 16 2). reflexivity.
  - apply (convert_integer_blank [] 10 5). reflexivity.
Defined.







(** ** Lengths of digit strings *)

Lemma fold_digits_lower base s : forall acc,
  acc * base ^ N.of_nat (List.length s)
  <= fold_left (fun acc c => acc * base + dv c) s acc.
Proof.
  induction s as [|c s IH]; intro acc.
  - cbn. lia.
  - cbn [fold_left List.length]. rewrite Nat2N.inj_succ, N.pow_succ_r'.
    eapply N.le_trans; [|apply IH].
    rewrite N.mul_assoc. apply N.mul_le_mono_r. lia.
Qed.

Lemma canonical_head base c s :
  valid_digit base c = true -> strip_zeros (c :: s) = c :: s ->
  c :: s <> [48] -> 0 < dv c.
Proof.
  intros Hc Hz Hne.
  destruct (N.eq_0_gt_0_cases (dv c)) as [E|E]; [|exact E].
  exfalso. pose proof (valid_digit_zero _ _ Hc E) as ->.
  cbn [strip_zeros] in Hz. cbn in Hz.
  destruct s as [|c' s]; [apply Hne; reflexivity|].
  pose proof (strip_zeros_length (c' :: s)) as L.
  rewrite Hz in L. cbn [List.length] in L. lia.
Qed.

(** A digit string of [k] characters without a leading zero denotes at
    least [base ^ (k - 1)]. *)
Lemma digit_string_lower base s n :
  digit_string_of base s n -> s <> [48] ->
  base ^ (N.of_nat (List.length s) - 1) <= n /\ 0 < n.
Proof.
  intros (Hd & Hv & Hz) Hne.
  destruct s as [|c s]; [discriminate|].
  pose proof (is_digit_string_forallb _ _ Hd) as Hall.
  cbn [forallb] in Hall. apply andb_true_iff in Hall. destruct Hall as [Hc _].
  pose proof (canonical_head base c s Hc Hz Hne) as Hpos.
  unfold digits_value in Hv. cbn [fold_left] in Hv.
  rewrite N.mul_0_l, N.add_0_l in Hv.
  pose proof (fold_digits_lower base s (dv c)) as L. rewrite Hv in L.
  cbn [List.length]. rewrite Nat2N.inj_succ.
  replace (N.succ (N.of_nat (List.length s)) - 1)
    with (N.of_nat (List.length s)) by lia.
  assert (1 * base ^ N.of_nat (List.length s)
          <= dv c * base ^ N.of_nat (List.length s))
    by (apply N.mul_le_mono_r; lia).
  destruct (N.eq_0_gt_0_cases base) as [E0|E0].
  - destruct (valid_digit_spec _ _ Hc) as (_ & Hlt & _). lia.
  - assert (0 < base ^ N.of_nat (List.length s)).
    { apply N.neq_0_lt_0, N.pow_nonzero. lia. }
    lia.
Qed.

(** X8: a hexadecimal digit string of [k] characters becomes at most
    [4 k] binary digits, and at least [4 k - 3] when it has no leading
    zero. *)
Theorem convert_integer_hex_bin_length s :
  is_digit_string 16 s = true ->
  exists r,
    convert_integer {| ci_number := s; ci_from_base := 16; ci_to_base := 2 |}
    = Return r /\
    (List.length (cr_result r) <= 4 * List.length s)%nat /\
    (strip_zeros s = s -> s <> lit "0" ->
     4 * List.length s <= List.length (cr_result r) + 3)%nat.
Proof.
  intro Hs. eexists.
  split; [apply (convert_integer_digits 16 2); cbn; auto|].
  cbn [cr_result Z.to_N]. unfold upper. rewrite length_map.
  set (n := digits_value 16 s).
  pose proof (to_digits_correct 2 ltac:(lia) ltac:(lia) n) as H2.
  pose proof (digit_string_bound 2 _ _ ltac:(lia) H2) as Hup.
  set (R := List.length (to_digits 2 n)) in *.
  set (L := List.length s).
  assert (H16 : n < 2 ^ N.of_nat (4 * L)).
  { assert (Hb : n < 16 ^ N.of_nat L).
    { pose proof (fold_digits_bound 16 s 0 ltac:(lia)
                    (is_digit_string_forallb _ _ Hs)) as Hb.
      rewrite N.add_0_l, N.mul_1_l in Hb. exact Hb. }
    replace (N.of_nat (4 * L)) with (4 * N.of_nat L) by lia.
    rewrite N.pow_mul_r. exact Hb. }
  split.
  - destruct (list_eq_dec N.eq_dec (to_digits 2 n) [48]) as [E|E].
    + unfold R. rewrite E. cbn [List.length].
      destruct s; [discriminate|]. unfold L. cbn [List.length]. lia.
    + destruct (digit_string_lower 2 _ _ H2 E) as [Hlo _]. fold R in Hlo.
      assert (2 ^ (N.of_nat R - 1) < 2 ^ N.of_nat (4 * L)) by lia.
      apply N.pow_lt_mono_r_iff in H; lia.
  - intros Hz Hne.
    assert (Hd : digit_string_of 16 s n) by (repeat split; assumption).
    destruct (digit_string_lower 16 s n Hd Hne) as [Hlo _]. fold L in Hlo.
    assert (E16 : 16 ^ (N.of_nat L - 1) = 2 ^ (4 * (N.of_nat L - 1)))
      by (rewrite N.pow_mul_r; reflexivity).
    rewrite E16 in Hlo.
    assert (2 ^ (4 * (N.of_nat L - 1)) < 2 ^ N.of_nat R) by lia.
    apply N.pow_lt_mono_r_iff in H; lia.
Qed.

Lemma convert_integer_hex_bin_length_witness :
  exists r,
    convert_integer
      {| ci_number := lit "1F"; ci_from_base := 16; ci_to_base := 2 |}
    = Return r /\
    (List.length (cr_result r) <= 4 * List.length (lit "1F"))%nat /\
    (strip_zeros (lit "1F") = lit "1F" -> lit "1F" <> lit "0" ->
     4 * List.length (lit "1F") <= List.length (cr_result r) + 3)%nat.
Proof.
  apply (convert_integer_hex_bin_length (lit "1F")). reflexivity.
Defined.

(** ** Further properties of [binary_arithmetic] *)

(** The sign and the binary digits of the magnitude read back as the
    integer. *)
Lemma py_int_sign_magnitude v :
  py_int ((if (v <? 0)%Z then lit "-" else []) ++ to_digits 2 (Z.abs_N v)) 2
  = Return v.
Proof.
  destruct (to_digits_correct 2 ltac:(lia) ltac:(lia) (Z.abs_N v))
    as (Hd & Hv & _).
  destruct (Z.ltb_spec v 0) as [Hneg|Hpos].
  - change (lit "-" ++ to_digits 2 (Z.abs_N v))
      with (45 :: to_digits 2 (Z.abs_N v)).
    change 2%Z with (Z.of_N 2).
    rewrite py_int_signed by (auto; lia). rewrite Hv. cbn [N.eqb Pos.eqb].
    f_equal. lia.
  - cbn [app]. change 2%Z with (Z.of_N 2).
    rewrite py_int_digit_string by (lia || assumption).
    rewrite Hv. f_equal. lia.
Qed.

Lemma result_bin_reads_back v :
  py_int (if (0 <=? v)%Z then slice_from 2 (py_bin v)
          else lit "-" ++ slice_from 2 (py_bin (Z.abs v))) 2
  = Return v.
Proof.
  pose proof (py_int_sign_magnitude v) as H.
  destruct (Z.leb_spec 0 v); destruct (Z.ltb_spec v 0); try lia.
  - rewrite slice_bin_nonneg by assumption. exact H.
  - rewrite slice_bin_nonneg by lia.
    replace (Z.abs_N (Z.abs v)) with (Z.abs_N v) by lia. exact H.
Qed.

(** X9: for the three operations and all integers the handler returns the
    sum, the difference or the product, and [result_bin] read as a binary
    literal is [result_dec]. *)
Theorem binary_arithmetic_consistent a b :
  (exists r,
     binary_arithmetic {| ar_a := a; ar_b := b; ar_operation := lit "add" |}
     = Return r /\
     result_dec r = (a + b)%Z /\
     py_int (result_bin r) 2 = Return (result_dec r)) /\
  (exists r,
     binary_arithmetic {| ar_a := a; ar_b := b; ar_operation := lit "sub" |}
     = Return r /\
     result_dec r = (a - b)%Z /\
     py_int (result_bin r) 2 = Return (result_dec r)) /\
  (exists r,
     binary_arithmetic {| ar_a := a; ar_b := b; ar_operation := lit "mul" |}
     = Return r /\
     result_dec r = (a * b)%Z /\
     py_int (result_bin r) 2 = Return (result_dec r)).
Proof.
  repeat split; eexists; (split; [reflexivity|]);
    cbn [result_dec result_bin]; (split; [reflexivity|]);
    apply result_bin_reads_back.
Qed.

(** ** Further properties of [ascii_encoder] *)

Lemma digits_value_zeros base k s :
  digits_value base (repeat 48 k ++ s) = digits_value base s.
Proof.
  unfold digits_value. rewrite fold_left_app. f_equal.
  induction k as [|k IH]; [reflexivity|].
  cbn [repeat fold_left]. exact IH.
Qed.

Lemma is_digit_string_zeros base k s :
  2 <= base -> is_digit_string base s = true ->
  is_digit_string base (repeat 48 k ++ s) = true.
Proof.
  intros Hb Hs. pose proof (is_digit_string_forallb _ _ Hs) as Hall.
  assert (F : forallb (valid_digit base) (repeat 48 k ++ s) = true).
  { rewrite forallb_app, Hall, andb_true_r.
    induction k as [|k IH]; [reflexivity|].
    cbn [repeat forallb]. rewrite IH, andb_true_r.
    unfold valid_digit. cbn. apply N.ltb_lt. lia. }
  destruct (repeat 48 k ++ s) eqn:E; [|exact F].
  destruct k; [|discriminate]. cbn in E. subst. discriminate.
Qed.

(** X10: the entries decode: their characters spell the text, and in each
    entry [dec] is the code point of the character and both [hex] read in
    base 16 and [bin] read in base 2 are [dec]. *)
Theorem ascii_encoder_decodes text :
  List.map ae_char (data (ascii_encoder {| aq_text := text |})) = text /\
  Forall (fun e =>
            ae_dec e = ord (ae_char e) /\
            py_int (ae_hex e) 16 = Return (ae_dec e) /\
            py_int (ae_bin e) 2 = Return (ae_dec e))
         (data (ascii_encoder {| aq_text := text |})).
Proof.
  unfold ascii_encoder. cbn [data aq_text]. split.
  - rewrite map_map. cbn [ascii_entry ae_char]. apply map_id.
  - apply Forall_map. apply Forall_forall. intros c _.
    unfold ascii_entry, ord. cbn [ae_dec ae_char ae_hex ae_bin].
    rewrite slice_hex_nonneg, slice_bin_nonneg, Zabs2N.id by lia.
    destruct (to_digits_correct 16 ltac:(lia) ltac:(lia) c) as (H16 & V16 & _).
    destruct (to_digits_correct 2 ltac:(lia) ltac:(lia) c) as (H2 & V2 & _).
    split; [reflexivity|]. split.
    + change 16%Z with (Z.of_N 16).
      rewrite py_int_digit_string;
        [|lia|lia|rewrite is_digit_string_upper; exact H16].
      rewrite digits_value_upper, V16. reflexivity.
    + rewrite (zfill_digit_string 2) by exact H2.
      change 2%Z with (Z.of_N 2).
      rewrite py_int_digit_string;
        [|lia|lia|apply is_digit_string_zeros; [lia | exact H2]].
      rewrite digits_value_zeros, V2. reflexivity.
Qed.

(** X11: [bin] has exactly eight characters for the code points up to
    255, and only for them; [hex] then has one or two characters. *)
Theorem ascii_encoder_widths c :
  (List.length (ae_bin (ascii_entry c)) = 8%nat <-> c <= 255) /\
  (c <= 255 -> (1 <= List.length (ae_hex (ascii_entry c)) <= 2)%nat).
Proof.
  unfold ascii_entry, ord. cbn [ae_bin ae_hex].
  rewrite slice_hex_nonneg, slice_bin_nonneg, Zabs2N.id by lia.
  pose proof (to_digits_correct 2 ltac:(lia) ltac:(lia) c) as H2.
  pose proof (to_digits_correct 16 ltac:(lia) ltac:(lia) c) as H16.
  rewrite (zfill_digit_string 2) by apply H2.
  rewrite length_app, repeat_length.
  pose proof (digit_string_bound 2 _ _ ltac:(lia) H2) as Hup.
  assert (Hne : forall b, 2 <= b <= 36 ->
                          (1 <= List.length (to_digits b c))%nat).
  { intros b Hb.
    destruct (to_digits_correct b ltac:(lia) ltac:(lia) c) as (Hd & _).
    destruct (to_digits b c); [discriminate | cbn; lia]. }
  pose proof (Hne 2 ltac:(lia)) as Hn2.
  split; [split|].
  - intro E.
    assert (L : (List.length (to_digits 2 c) <= 8)%nat) by lia.
    assert (2 ^ N.of_nat (List.length (to_digits 2 c)) <= 2 ^ 8)
      by (apply N.pow_le_mono_r; lia).
    change (2 ^ 8) with 256 in *. lia.
  - intro Hc.
    destruct (list_eq_dec N.eq_dec (to_digits 2 c) [48]) as [E|E];
      [rewrite E; reflexivity|].
    destruct (digit_string_lower 2 _ _ H2 E) as [Hlo _].
    assert (2 ^ (N.of_nat (List.length (to_digits 2 c)) - 1) < 2 ^ 8)
      by (change (2 ^ 8) with 256; lia).
    apply N.pow_lt_mono_r_iff in H; lia.
  - intro Hc. unfold upper. rewrite length_map.
    split; [apply Hne; lia|].
    destruct (list_eq_dec N.eq_dec (to_digits 16 c) [48]) as [E|E];
      [rewrite E; cbn; lia|].
    destruct (digit_string_lower 16 _ _ H16 E) as [Hlo _].
    assert (16 ^ (N.of_nat (List.length (to_digits 16 c)) - 1) < 16 ^ 2)
      by (change (16 ^ 2) with 256; lia).
    apply N.pow_lt_mono_r_iff in H; lia.
Qed.

Lemma ascii_encoder_widths_witness :
  (1 <= List.length (ae_hex (ascii_entry 10)) <= 2)%nat.
Proof.
  apply (proj2 (ascii_encoder_widths 10)). lia.
Defined.

Section Fractions.

Local Open Scope Z_scope.

Lemma Return_inj {A} (a b : A) : Return a = Return b -> a = b.
Proof. intro H. injection H as H. exact H. Qed.

(** ** The parts of the number of [convert_fraction] *)

Lemma replace_comma_app s t :
  replace_comma (s ++ t) = replace_comma s ++ replace_comma t.
Proof. apply map_app. Qed.

Lemma replace_comma_no_sep s : no_sep s = true -> replace_comma s = s.
Proof.
  induction s as [|c s IH]; [reflexivity|].
  cbn [no_sep forallb]. intro H. apply andb_true_iff in H.
  destruct H as [Hc Hs]. unfold replace_comma in *. cbn [List.map].
  rewrite (IH Hs). unfold is_sep in Hc.
  destruct (c =? 44)%N; [discriminate | reflexivity].
Qed.

Lemma replace_comma_sep c : is_sep c = true -> replace_comma [c] = [46%N].
Proof.
  unfold is_sep, replace_comma. cbn [List.map].
  destruct (N.eqb_spec c 44); [reflexivity|].
  destruct (N.eqb_spec c 46); [subst; reflexivity | discriminate].
Qed.

Lemma split_dot_nonempty s : exists p ps, split_dot s = p :: ps.
Proof.
  pose proof (split_dot_length s) as [H _].
  destruct (split_dot s) as [|p ps]; [cbn in H; lia | eauto].
Qed.

Lemma split_dot_app s t :
  no_sep s = true ->
  split_dot (s ++ t) = (s ++ hd [] (split_dot t)) :: tl (split_dot t).
Proof.
  induction s as [|c s IH].
  - intros _. cbn [app].
    destruct (split_dot_nonempty t) as (p & ps & ->). reflexivity.
  - cbn [no_sep forallb]. intro H. apply andb_true_iff in H.
    destruct H as [Hc Hs]. cbn [app split_dot]. rewrite (IH Hs).
    unfold is_sep in Hc.
    destruct (c =? 46)%N; [|reflexivity].
    rewrite orb_true_r in Hc. discriminate.
Qed.

Lemma has_dot_app s t : has_dot (s ++ 46%N :: t) = true.
Proof. unfold has_dot. rewrite existsb_app. cbn. apply orb_true_r. Qed.

Lemma has_dot_no_sep s : no_sep s = true -> has_dot s = false.
Proof.
  induction s as [|c s IH]; [reflexivity|].
  cbn [no_sep forallb]. intro H. apply andb_true_iff in H.
  destruct H as [Hc Hs]. unfold has_dot in *. cbn [existsb].
  rewrite (IH Hs), orb_false_r. unfold is_sep in Hc.
  rewrite N.eqb_sym. destruct (c =? 46)%N; [|reflexivity].
  rewrite orb_true_r in Hc. discriminate.
Qed.

Lemma no_sep_digits base s :
  forallb (valid_digit base) s = true -> no_sep s = true.
Proof.
  induction s as [|c s IH]; [reflexivity|].
  cbn [forallb no_sep]. intro H. apply andb_true_iff in H.
  destruct H as [Hc Hs].
  destruct (valid_digit_not_sep _ _ Hc) as [E1 E2].
  unfold is_sep. rewrite E1, E2. cbn [orb negb andb]. apply IH, Hs.
Qed.

(** The normalised number and its first two parts, for a number with a
    separator after [ip]. *)
Lemma parts_sep ip c rest :
  no_sep ip = true -> is_sep c = true ->
  let num_str := replace_comma (ip ++ c :: rest) in
  let parts := split_dot (if has_dot num_str then num_str
                          else num_str ++ lit ".0") in
  nth 0 parts [] = ip /\
  nth 1 parts [] = hd [] (split_dot (replace_comma rest)).
Proof.
  intros Hip Hc. cbv zeta.
  change (c :: rest) with ([c] ++ rest).
  rewrite !replace_comma_app, (replace_comma_no_sep ip Hip),
    (replace_comma_sep c Hc).
  cbn [app]. rewrite has_dot_app, (split_dot_app ip _ Hip).
  cbn [split_dot N.eqb Pos.eqb hd tl nth]. rewrite app_nil_r.
  split; [reflexivity|].
  destruct (split_dot_nonempty (replace_comma rest)) as (p & ps & ->).
  reflexivity.
Qed.

(** A number without a separator gets the fraction part "0". *)
Lemma parts_whole s :
  no_sep s = true ->
  let num_str := replace_comma s in
  let parts := split_dot (if has_dot num_str then num_str
                          else num_str ++ lit ".0") in
  nth 0 parts [] = s /\ nth 1 parts [] = lit "0".
Proof.
  intro Hs. cbv zeta.
  rewrite (replace_comma_no_sep s Hs), (has_dot_no_sep s Hs).
  rewrite (split_dot_app s _ Hs). cbn. rewrite app_nil_r. auto.
Qed.

(** X12: a comma is read as the point, and what follows a second
    separator is ignored. *)
Theorem convert_fraction_separators B D p ip fp rest c1 c2 :
  no_sep ip = true -> no_sep fp = true ->
  is_sep c1 = true -> is_sep c2 = true ->
  convert_fraction
    {| cf_number := ip ++ c1 :: fp; cf_from_base := B; cf_to_base := D;
       cf_precision := p |}
  = convert_fraction
      {| cf_number := ip ++ lit "." ++ fp; cf_from_base := B;
         cf_to_base := D; cf_precision := p |} /\
  convert_fraction
    {| cf_number := ip ++ c1 :: fp ++ c2 :: rest; cf_from_base := B;
       cf_to_base := D; cf_precision := p |}
  = convert_fraction
      {| cf_number := ip ++ lit "." ++ fp; cf_from_base := B;
         cf_to_base := D; cf_precision := p |}.
Proof.
  intros Hip Hfp H1 H2.
  assert (Hdot : is_sep 46%N = true) by reflexivity.
  assert (Hf : forall t, hd [] (split_dot (replace_comma (fp ++ t)))
                         = fp ++ hd [] (split_dot (replace_comma t))).
  { intro t. rewrite replace_comma_app, (replace_comma_no_sep fp Hfp).
    rewrite (split_dot_app fp _ Hfp). reflexivity. }
  destruct (parts_sep ip c1 fp Hip H1) as [A0 A1].
  destruct (parts_sep ip c1 (fp ++ c2 :: rest) Hip H1) as [B0 B1].
  destruct (parts_sep ip 46%N fp Hip Hdot) as [C0 C1].
  assert (Hf0 : hd [] (split_dot (replace_comma fp)) = fp).
  { specialize (Hf []). rewrite app_nil_r in Hf. rewrite Hf.
    apply app_nil_r. }
  assert (Hs : hd [] (split_dot (replace_comma (c2 :: rest))) = []).
  { change (c2 :: rest) with ([c2] ++ rest).
    rewrite replace_comma_app, (replace_comma_sep c2 H2). reflexivity. }
  rewrite Hf0 in A1, C1. rewrite Hf, Hs, app_nil_r in B1.
  unfold convert_fraction.
  cbn [cf_number cf_from_base cf_to_base cf_precision].
  change (lit "." ++ fp) with (46%N :: fp).
  rewrite A0, A1, B0, B1, C0, C1. split; reflexivity.
Qed.

Lemma convert_fraction_separators_witness :
  convert_fraction
    {| cf_number := lit "1" ++ 44%N :: lit "5"; cf_from_base := 10;
       cf_to_base := 2; cf_precision := 3 |}
  = convert_fraction
      {| cf_number := lit "1" ++ lit "." ++ lit "5"; cf_from_base := 10;
         cf_to_base := 2; cf_precision := 3 |} /\
  convert_fraction
    {| cf_number := lit "1" ++ 44%N :: lit "5" ++ 46%N :: lit "75";
       cf_from_base := 10; cf_to_base := 2; cf_precision := 3 |}
  = convert_fraction
      {| cf_number := lit "1" ++ lit "." ++ lit "5"; cf_from_base := 10;
         cf_to_base := 2; cf_precision := 3 |}.
Proof.
  apply (convert_fraction_separators 10 2 3 (lit "1") (lit "5") (lit "75")
           44%N 46%N); reflexivity.
Defined.

(** ** Conversions that stay in range *)










(** ** Refused numbers *)

Lemma py_int_raises s b e : py_int s b = Raise e -> e = ValueError.
Proof.
  unfold py_int. destruct (_ || _)%bool; [congruence|].
  destruct (PyInt.parse _ _); congruence.
Qed.

(** The first loop stops with [ValueError] at a character that is not a
    digit of the base. *)
Lemma accumulate_invalid base fp c rest : forall i dec_frac,
  (2 <= base <= 36)%N ->
  forallb (valid_digit base) fp = true ->
  py_int [c] (Z.of_N base) = Raise ValueError ->
  accumulate (Z.of_N base) (fp ++ c :: rest) i dec_frac = Raise ValueError.
Proof.
  induction fp as [|d s IH]; intros i acc Hb Hs Hc.
  - cbn [app accumulate]. rewrite Hc. reflexivity.
  - cbn [forallb] in Hs. apply andb_true_iff in Hs. destruct Hs as [Hd Hs].
    cbn [app accumulate].
    rewrite (py_int_digit_string base) by
      (try lia; cbn [is_digit_string forallb]; rewrite Hd; reflexivity).
    cbn [bind].
    destruct (pow_neg_returns (Z.of_N base) (i + 1) ltac:(lia)) as [p ->].
    cbn [bind].
    destruct (valid_digit_spec _ _ Hd) as (_ & Hlt & _).
    destruct (of_int_in_range (Z.of_N (digits_value base [d]))) as [fv ->].
    { unfold digits_value. cbn [fold_left]. split; [lia|].
      assert (2 ^ 6 <= 2 ^ 1023) by (apply Z.pow_le_mono_r; lia).
      change (2 ^ 6) with 64 in *. lia. }
    cbn [bind]. apply IH; assumption.
Qed.

(** X15: an integer part that [int] refuses is answered by the 400 of
    the handler, with or without a fraction part; this covers every
    [from_base] that [int] refuses. *)
Theorem convert_fraction_rejects_integer_part B D p ip :
  no_sep ip = true -> py_int ip B = Raise ValueError ->
  convert_fraction
    {| cf_number := ip; cf_from_base := B; cf_to_base := D;
       cf_precision := p |}
  = Raise (HTTPException 400 BadFraction) /\
  forall c rest,
    is_sep c = true ->
    convert_fraction
      {| cf_number := ip ++ c :: rest; cf_from_base := B; cf_to_base := D;
         cf_precision := p |}
    = Raise (HTTPException 400 BadFraction).
Proof.
  intros Hip Hr. split.
  - destruct (parts_whole ip Hip) as [P0 _].
    unfold convert_fraction.
    cbn [cf_number cf_from_base cf_to_base cf_precision].
    rewrite P0, Hr. reflexivity.
  - intros c rest Hc. destruct (parts_sep ip c rest Hip Hc) as [P0 _].
    unfold convert_fraction.
    cbn [cf_number cf_from_base cf_to_base cf_precision].
    rewrite P0, Hr. reflexivity.
Qed.

Lemma convert_fraction_rejects_integer_part_witness :
  convert_fraction
    {| cf_number := lit "12"; cf_from_base := 2; cf_to_base := 10;
       cf_precision := 5 |}
  = Raise (HTTPException 400 BadFraction) /\
  forall c rest,
    is_sep c = true ->
    convert_fraction
      {| cf_number := lit "12" ++ c :: rest; cf_from_base := 2;
         cf_to_base := 10; cf_precision := 5 |}
    = Raise (HTTPException 400 BadFraction).
Proof.
  apply (convert_fraction_rejects_integer_part 2 10 5 (lit "12"));
    reflexivity.
Defined.

(** X16: a character of the fraction part that is not a digit of
    [from_base] is answered by the 400 of the handler, whatever the
    integer part, the target base and the precision are. *)
Theorem convert_fraction_rejects_fraction_digit B D p ip sep fp c rest :
  2 <= B <= 36 ->
  no_sep ip = true -> is_sep sep = true ->
  forallb (valid_digit (Z.to_N B)) fp = true ->
  is_sep c = false -> py_int [c] B = Raise ValueError ->
  convert_fraction
    {| cf_number := ip ++ sep :: fp ++ c :: rest; cf_from_base := B;
       cf_to_base := D; cf_precision := p |}
  = Raise (HTTPException 400 BadFraction).
Proof.
  intros HB Hip Hsep Hfp Hc Hr.
  destruct (parts_sep ip sep (fp ++ c :: rest) Hip Hsep) as [P0 P1].
  assert (Hns : no_sep (fp ++ [c]) = true).
  { unfold no_sep. rewrite forallb_app. fold (no_sep fp).
    rewrite (no_sep_digits _ _ Hfp). cbn. rewrite Hc. reflexivity. }
  assert (E : fp ++ c :: rest = (fp ++ [c]) ++ rest)
    by (rewrite <- app_assoc; reflexivity).
  assert (F : hd [] (split_dot (replace_comma (fp ++ c :: rest)))
              = fp ++ c :: hd [] (split_dot (replace_comma rest))).
  { rewrite E, replace_comma_app, (replace_comma_no_sep _ Hns).
    rewrite (split_dot_app _ _ Hns). cbn [hd].
    rewrite <- app_assoc. reflexivity. }
  rewrite F in P1.
  unfold convert_fraction.
  cbn [cf_number cf_from_base cf_to_base cf_precision].
  rewrite P0, P1.
  assert (A : accumulate B
                (fp ++ c :: hd [] (split_dot (replace_comma rest))) 0
                PyFloat.zero = Raise ValueError).
  { rewrite <- (Z2N.id B) by lia.
    apply accumulate_invalid; rewrite ?Z2N.id by lia; (lia || assumption). }
  rewrite A.
  destruct (py_int ip B) as [v|e] eqn:Ei; [reflexivity|].
  rewrite (py_int_raises _ _ _ Ei). reflexivity.
Qed.

Lemma convert_fraction_rejects_fraction_digit_witness :
  convert_fraction
    {| cf_number := lit "1" ++ 46%N :: lit "0" ++ 50%N :: lit "1";
       cf_from_base := 2; cf_to_base := 16; cf_precision := 5 |}
  = Raise (HTTPException 400 BadFraction).
Proof.
  apply (convert_fraction_rejects_fraction_digit 2 16 5 (lit "1") 46%N
           (lit "0") 50%N (lit "1")); (lia || reflexivity).
Defined.

(** X17: with [from_base] 0 (the base [int] infers from the prefix) a
    literal that [int] accepts makes the power [0 ** -1] of the first
    loop raise [ZeroDivisionError], which the handler does not catch. *)
Theorem convert_fraction_from_base_0 D p s v :
  no_sep s = true -> py_int s 0 = Return v ->
  convert_fraction
    {| cf_number := s; cf_from_base := 0; cf_to_base := D;
       cf_precision := p |}
  = Raise ZeroDivisionError.
Proof.
  intros Hs Hv. destruct (parts_whole s Hs) as [P0 P1].
  unfold convert_fraction.
  cbn [cf_number cf_from_base cf_to_base cf_precision].
  rewrite P0, P1, Hv. reflexivity.
Qed.

Lemma convert_fraction_from_base_0_witness :
  convert_fraction
    {| cf_number := lit "0x1F"; cf_from_base := 0; cf_to_base := 2;
       cf_precision := 5 |}
  = Raise ZeroDivisionError.
Proof.
  apply (convert_fraction_from_base_0 2 5 (lit "0x1F") 31); reflexivity.
Defined.

(** ** The exceptions of [convert_fraction] *)

Lemma of_int_raises z e : PyFloat.of_int z = Raise e -> e = OverflowError.
Proof.
  unfold PyFloat.of_int. destruct (binary_normalize _ _ _ _ _); congruence.
Qed.

Lemma pow_neg_raises b k e :
  PyFloat.pow_neg b k = Raise e -> e = ZeroDivisionError.
Proof.
  unfold PyFloat.pow_neg. destruct (b =? 0); [congruence|].
  destruct (SFdiv_core_binary _ _ _ _ _ _) as [[q e'] l]. congruence.
Qed.

Lemma to_int_raises x e : PyFloat.to_int x = Raise e -> arithmetic_exn e.
Proof.
  unfold arithmetic_exn. destruct x; cbn [PyFloat.to_int]; intro H;
    inversion H; auto.
Qed.

Lemma py_chr_raises i e : py_chr i = Raise e -> arithmetic_exn e.
Proof.
  unfold arithmetic_exn, py_chr. destruct (_ || _)%bool;
    [intro H; inversion H; auto|].
  destruct (_ && _)%bool; intro H; inversion H; auto.
Qed.

Lemma accumulate_raises B fp e : forall i dec_frac,
  accumulate B fp i dec_frac = Raise e -> arithmetic_exn e.
Proof.
  unfold arithmetic_exn.
  induction fp as [|c fp IH]; intros i acc; cbn [accumulate]; [discriminate|].
  destruct (py_int [c] B) as [v|e1] eqn:E1; cbn [bind];
    [|intro H; inversion H; subst; rewrite (py_int_raises _ _ _ E1); auto].
  destruct (PyFloat.pow_neg B (i + 1)) as [q|e2] eqn:E2; cbn [bind];
    [|intro H; inversion H; subst; rewrite (pow_neg_raises _ _ _ E2); auto].
  destruct (PyFloat.of_int v) as [fv|e3] eqn:E3; cbn [bind];
    [|intro H; inversion H; subst; rewrite (of_int_raises _ _ E3); auto].
  apply IH.
Qed.

Lemma frac_loop_raises D e n : forall res_frac x,
  frac_loop n D res_frac x = Raise e -> arithmetic_exn e.
Proof.
  induction n as [|n IH]; intros res_frac x; cbn [frac_loop]; [discriminate|].
  unfold next_digit.
  destruct (PyFloat.of_int D) as [fb|e1] eqn:E1; cbn [bind];
    [|intro H; inversion H; subst; rewrite (of_int_raises _ _ E1);
      unfold arithmetic_exn; auto].
  destruct (PyFloat.to_int (PyFloat.mul x fb)) as [d|e2] eqn:E2; cbn [bind];
    [|intro H; inversion H; subst; apply (to_int_raises _ _ E2)].
  unfold digit_text.
  assert (T : forall t : res pystr,
            (forall e', t = Raise e' -> arithmetic_exn e') ->
            (t' <- t ;;
             current_frac <- remainder (PyFloat.mul x fb) d ;;
             (if PyFloat.eq_zero current_frac then Return (res_frac ++ t')
              else frac_loop n D (res_frac ++ t') current_frac)) = Raise e ->
            arithmetic_exn e).
  { intros [t'|e3] Ht; cbn [bind];
      [|intro H; inversion H; subst; apply Ht; reflexivity].
    unfold remainder.
    destruct (PyFloat.of_int d) as [fd|e4] eqn:E4; cbn [bind];
      [|intro H; inversion H; subst; rewrite (of_int_raises _ _ E4);
        unfold arithmetic_exn; auto].
    destruct (PyFloat.eq_zero _); [discriminate | apply IH]. }
  apply T. intros e'.
  destruct (10 <=? d); [|discriminate].
  destruct (py_chr _) as [c|e5] eqn:E5; cbn [bind]; [discriminate|].
  intro H; inversion H; subst. apply (py_chr_raises _ _ E5).
Qed.

(** X18: the only failures of [convert_fraction] are the 400 of the
    handler, [OverflowError] and [ZeroDivisionError]: no [ValueError]
    leaves the handler and no target base is refused. *)
Theorem convert_fraction_failures request e :
  convert_fraction request = Raise e ->
  e = HTTPException 400 BadFraction \/ e = OverflowError \/
  e = ZeroDivisionError.
Proof.
  unfold convert_fraction.
  set (parts := split_dot _).
  set (ip := nth 0 parts []). set (fp := nth 1 parts []).
  destruct (py_int ip (cf_from_base request)) as [v|e1] eqn:E1; cbn [bind].
  2:{ rewrite (py_int_raises _ _ _ E1). cbn. intro H; inversion H; auto. }
  assert (K : forall body : res FractionResult,
            (forall e', body = Raise e' -> arithmetic_exn e') ->
            try_except_ValueError body (Raise (HTTPException 400 BadFraction))
            = Raise e ->
            e = HTTPException 400 BadFraction \/ e = OverflowError \/
            e = ZeroDivisionError).
  { intros [r|e'] Hb; cbn; [discriminate|].
    destruct (Hb e' eq_refl) as [-> | [-> | ->]]; intro H; inversion H; auto. }
  apply K. intros e'.
  destruct (accumulate _ fp 0 PyFloat.zero) as [df|e2] eqn:E2; cbn [bind];
    [|intro H; inversion H; subst; apply (accumulate_raises _ _ _ _ _ E2)].
  destruct (PyFloat.of_int v) as [fi|e3] eqn:E3; cbn [bind];
    [|intro H; inversion H; subst; rewrite (of_int_raises _ _ E3);
      unfold arithmetic_exn; auto].
  destruct (cf_to_base request =? 10); [discriminate|].
  destruct (frac_loop _ _ [] df) as [rf|e4] eqn:E4; cbn [bind];
    [discriminate|].
  intro H; inversion H; subst. apply (frac_loop_raises _ _ _ _ _ E4).
Qed.

Lemma convert_fraction_failures_witness :
  HTTPException 400 BadFraction = HTTPException 400 BadFraction \/
  HTTPException 400 BadFraction = OverflowError \/
  HTTPException 400 BadFraction = ZeroDivisionError.
Proof.
  apply (convert_fraction_failures
           {| cf_number := lit "G.1"; cf_from_base := 16; cf_to_base := 2;
              cf_precision := 5 |}).
  reflexivity.
Defined.

(** ** Negative numbers and the precision *)

Lemma mk_float_infinity s s' q t :
  (exists u, mk_float s q t = S754_infinity u) ->
  exists u, mk_float s' q t = S754_infinity u.
Proof.
  unfold mk_float. destruct (q =? 0); [intros [u H]; discriminate|].
  destruct (q =? 2 ^ 53).
  - destruct (t + 1 <=? 971); [intros [u H]; discriminate | eauto].
  - destruct (t <=? 971); [intros [u H]; discriminate | eauto].
Qed.

Lemma ResultText_inj s t : ResultText s = ResultText t -> s = t.
Proof. intro H. injection H as H. exact H. Qed.

(** The conversion of [- z] overflows only when that of [z] does. *)
Lemma of_int_opp z f :
  PyFloat.of_int z = Return f -> exists f', PyFloat.of_int (- z) = Return f'.
Proof.
  unfold PyFloat.of_int. destruct z as [|p|p]; cbn [Z.opp binary_normalize].
  - eauto.
  - destruct (binary_round_spec false p 0) as (_ & _ & E1).
    destruct (binary_round_spec true p 0) as (_ & _ & E2).
    rewrite E1, E2. intro H.
    destruct (mk_float true _ _) as [u|u| |u m e] eqn:E; eauto.
    destruct (mk_float_infinity true false _ _ (ex_intro _ u E)) as [u' E'].
    rewrite E' in H. discriminate.
  - destruct (binary_round_spec false p 0) as (_ & _ & E1).
    destruct (binary_round_spec true p 0) as (_ & _ & E2).
    rewrite E1, E2. intro H.
    destruct (mk_float false _ _) as [u|u| |u m e] eqn:E; eauto.
    destruct (mk_float_infinity false true _ _ (ex_intro _ u E)) as [u' E'].
    rewrite E' in H. discriminate.
Qed.

(** X23: a negative number keeps no sign for the targets 2, 8 and 16:
    what comes back is the answer for the number without its "-", after
    the letter of the prefix of [bin], [oct] or [hex] ("b", "o", "X"). *)
Theorem convert_fraction_negative B D p ip c rest t :
  supported B -> In D [2; 8; 16] ->
  is_digit_string (Z.to_N B) ip = true ->
  (0 < digits_value (Z.to_N B) ip)%N ->
  is_sep c = true ->
  convert_fraction
    {| cf_number := ip ++ c :: rest; cf_from_base := B; cf_to_base := D;
       cf_precision := p |}
  = Return (ResultText t) ->
  convert_fraction
    {| cf_number := lit "-" ++ ip ++ c :: rest; cf_from_base := B;
       cf_to_base := D; cf_precision := p |}
  = Return (ResultText
              ((if D =? 2 then lit "b" else if D =? 8 then lit "o"
                else lit "X") ++ t)).
Proof.
  intros HB HD Hip Hn Hc H.
  destruct (supported_range B HB) as [[B2 B36] EB].
  pose proof (no_sep_digits _ _ (is_digit_string_forallb _ _ Hip)) as Hns.
  assert (Hns' : no_sep (lit "-" ++ ip) = true).
  { change (lit "-" ++ ip) with (45%N :: ip). cbn [no_sep forallb].
    fold (no_sep ip). rewrite Hns. reflexivity. }
  destruct (parts_sep ip c rest Hns Hc) as [P0 P1].
  destruct (parts_sep (lit "-" ++ ip) c rest Hns' Hc) as [Q0 Q1].
  rewrite <- app_assoc in Q0, Q1.
  set (n := digits_value (Z.to_N B) ip) in *.
  assert (Hi : py_int ip B = Return (Z.of_N n)).
  { rewrite <- EB at 1. apply py_int_digit_string; assumption. }
  assert (Hi' : py_int (lit "-" ++ ip) B = Return (- Z.of_N n)).
  { rewrite <- EB at 1. change (lit "-" ++ ip) with (45%N :: ip).
    rewrite py_int_signed by (auto; lia). reflexivity. }
  assert (Hsg : sign_prefix (- Z.of_N n) = lit "-").
  { unfold sign_prefix.
    destruct (Z.ltb_spec (- Z.of_N n) 0); [reflexivity | lia]. }
  assert (Ha : Z.abs_N (- Z.of_N n) = n) by lia.
  unfold convert_fraction in *.
  cbn [cf_number cf_from_base cf_to_base cf_precision] in *.
  rewrite P0, P1, Hi in H. rewrite Q0, Q1, Hi'.
  cbv beta iota delta [bind] in H |- *.
  destruct (accumulate B _ 0 PyFloat.zero) as [df|e1];
    [|destruct e1; discriminate].
  destruct (PyFloat.of_int (Z.of_N n)) as [fi|e2] eqn:E2;
    [|destruct e2; discriminate].
  destruct (of_int_opp _ _ E2) as [fi' ->].
  assert (D10 : (D =? 10) = false).
  { destruct HD as [<-|[<-|[<-|[]]]]; reflexivity. }
  rewrite D10 in *.
  destruct (frac_loop (Z.to_nat p) D [] df) as [rf|e3];
    [|destruct e3; discriminate].
  cbn [try_except_ValueError] in *.
  apply Return_inj, ResultText_inj in H. subst t.
  rewrite (slice_bin_nonneg (Z.of_N n)), (slice_hex_nonneg (Z.of_N n))
    by lia.
  unfold py_oct, py_bin, py_hex. rewrite Hsg, Ha.
  rewrite (sign_prefix_nonneg (Z.of_N n)) by lia. rewrite Zabs2N.id.
  destruct HD as [<-|[<-|[<-|[]]]]; reflexivity.
Qed.

Lemma convert_fraction_negative_witness :
  convert_fraction
    {| cf_number := lit "-" ++ lit "10" ++ 46%N :: lit "5";
       cf_from_base := 10; cf_to_base := 2; cf_precision := 4 |}
  = Return (ResultText
              ((if 2 =? 2 then lit "b" else if 2 =? 8 then lit "o"
                else lit "X") ++ lit "1010.1")).
Proof.
  apply (convert_fraction_negative 10 2 4 (lit "10") 46%N (lit "5")
           (lit "1010.1"));
    [cbn; auto | cbn; auto | reflexivity | reflexivity | reflexivity
     | vm_compute; reflexivity].
Defined.



End Fractions.

(** ** Digits at a fixed width *)

Lemma fixed_length base k : forall n, List.length (fixed base k n) = k.
Proof.
  induction k as [|k IH]; intro n; [reflexivity|].
  cbn [fixed]. rewrite length_app, IH. cbn. lia.
Qed.

Lemma fixed_zero base k : 2 <= base -> fixed base k 0 = repeat 48 k.
Proof.
  intro Hb. induction k as [|k IH]; [reflexivity|].
  cbn [fixed]. rewrite N.Div0.div_0_l, N.Div0.mod_0_l, IH.
  change [digit_char 0] with (repeat 48 1).
  rewrite <- repeat_app. f_equal. lia.
Qed.

(** The digits of [n] padded to the width [k] are its [k] low digits when
    it has no more. *)
Lemma pad_fixed base k : forall n,
  2 <= base -> n < base ^ N.of_nat (S k) ->
  repeat 48 (S k - List.length (to_digits base n)) ++ to_digits base n
  = fixed base (S k) n.
Proof.
  induction k as [|k IH]; intros n Hb Hn.
  - change (base ^ N.of_nat 1) with (base ^ 1) in Hn.
    rewrite N.pow_1_r in Hn.
    rewrite (to_digits_small base) by assumption. cbn [fixed List.length].
    rewrite N.mod_small by assumption. reflexivity.
  - destruct (N.lt_ge_cases n base) as [Hs|Hl].
    + rewrite (to_digits_small base) by assumption.
      cbn [fixed List.length]. rewrite (N.div_small n base Hs).
      rewrite N.Div0.div_0_l, N.Div0.mod_0_l, N.mod_small by assumption.
      rewrite (fixed_zero base k Hb).
      replace (S (S k) - 1)%nat with (S k) by lia.
      change [digit_char 0] with (repeat 48 1).
      rewrite <- repeat_app. replace (k + 1)%nat with (S k) by lia.
      reflexivity.
    + rewrite (to_digits_step base) by assumption.
      assert (Hq : n / base < base ^ N.of_nat (S k)).
      { apply N.Div0.div_lt_upper_bound.
        rewrite <- N.pow_succ_r', <- Nat2N.inj_succ. exact Hn. }
      specialize (IH (n / base) Hb Hq).
      change (fixed base (S (S k)) n)
        with (fixed base (S k) (n / base) ++ [digit_char (n mod base)]).
      rewrite <- IH, <- app_assoc, length_app. cbn [List.length].
      replace (S (S k) - (List.length (to_digits base (n / base)) + 1))%nat
        with (S k - List.length (to_digits base (n / base)))%nat by lia.
      reflexivity.
Qed.

Lemma zfill_fixed base k n :
  2 <= base <= 36 -> n < base ^ N.of_nat (S k) ->
  zfill (S k) (to_digits base n) = fixed base (S k) n.
Proof.
  intros Hb Hn.
  destruct (to_digits_correct base ltac:(lia) ltac:(lia) n) as (Hd & _).
  rewrite (zfill_digit_string base _ _ Hd). apply pad_fixed; lia.
Qed.

Lemma fixed_app base j k : forall n,
  fixed base (j + k) n
  = fixed base j (n / base ^ N.of_nat k) ++ fixed base k n.
Proof.
  induction k as [|k IH]; intro n.
  - rewrite Nat.add_0_r. cbn [fixed N.of_nat]. rewrite N.pow_0_r, N.div_1_r.
    symmetry. apply app_nil_r.
  - replace (j + S k)%nat with (S (j + k)) by lia. cbn [fixed].
    rewrite IH, <- app_assoc. f_equal. f_equal.
    rewrite Nat2N.inj_succ, N.pow_succ_r'. apply N.Div0.div_div.
Qed.

Lemma fixed_mod base k : forall n,
  2 <= base -> fixed base k (n mod base ^ N.of_nat k) = fixed base k n.
Proof.
  induction k as [|k IH]; intros n Hb; [reflexivity|].
  cbn [fixed]. rewrite Nat2N.inj_succ, N.pow_succ_r'.
  assert (P : 0 < base ^ N.of_nat k).
  { apply N.neq_0_lt_0, N.pow_nonzero. lia. }
  rewrite N.Div0.mod_mul_r.
  pose proof (N.mod_lt n base ltac:(lia)) as L.
  set (x := (n / base) mod base ^ N.of_nat k).
  replace (n mod base + base * x) with (x * base + n mod base) by lia.
  rewrite N.div_add_l by lia. rewrite (N.div_small _ _ L), N.add_0_r.
  rewrite N.add_comm, N.Div0.mod_add, N.Div0.mod_mod.
  unfold x.
  rewrite IH by assumption. reflexivity.
Qed.


Lemma firstn_length_app {A} (a b : list A) n :
  List.length a = n -> firstn n (a ++ b) = a.
Proof.
  intros <-. rewrite firstn_app, Nat.sub_diag, firstn_all. cbn.
  apply app_nil_r.
Qed.

Lemma skipn_length_app {A} (a b : list A) n :
  List.length a = n -> skipn n (a ++ b) = b.
Proof.
  intros <-. rewrite skipn_app, Nat.sub_diag, skipn_all. reflexivity.
Qed.

(** The four bytes of a 32-bit word, in binary and in hexadecimal, are
    the 32 bits and the 8 hexadecimal digits of the word. *)
Lemma word_bytes W :
  W < 2 ^ 32 ->
  let bytes := [W / 2 ^ 24; (W / 2 ^ 16) mod 256; (W / 2 ^ 8) mod 256;
                W mod 256] in
  List.concat (List.map format_08b bytes) = fixed 2 32 W /\
  bytes_hex bytes = fixed 16 8 W.
Proof.
  intros HW bytes.
  assert (B3 : W / 2 ^ 24 < 256).
  { apply N.Div0.div_lt_upper_bound. exact HW. }
  assert (B : forall x, x mod 256 < 256) by (intro x; apply N.mod_lt; lia).
  assert (F2 : forall b, b < 256 -> format_08b b = fixed 2 8 b).
  { intros b Hb. apply (zfill_fixed 2 7); [lia | exact Hb]. }
  assert (F16 : forall b, b < 256 ->
                          zfill 2 (to_digits 16 b) = fixed 16 2 b).
  { intros b Hb. apply (zfill_fixed 16 1); [lia | exact Hb]. }
  assert (M2 : forall x, fixed 2 8 (x mod 256) = fixed 2 8 x)
    by (intro x; apply (fixed_mod 2 8 x); lia).
  assert (M16 : forall x, fixed 16 2 (x mod 256) = fixed 16 2 x)
    by (intro x; apply (fixed_mod 16 2 x); lia).
  unfold bytes, bytes_hex. cbn [List.map List.concat].
  rewrite !F2, !F16 by auto. rewrite !app_nil_r. split.
  - change (fixed 2 32 W) with (fixed 2 (8 + (8 + (8 + 8))) W).
    rewrite !fixed_app.
    change (2 ^ N.of_nat (8 + (8 + 8))) with (2 ^ 24).
    change (2 ^ N.of_nat (8 + 8)) with (2 ^ 16).
    change (2 ^ N.of_nat 8) with 256.
    rewrite !M2. reflexivity.
  - change (fixed 16 8 W) with (fixed 16 (2 + (2 + (2 + 2))) W).
    rewrite !fixed_app.
    change (16 ^ N.of_nat (2 + (2 + 2))) with (2 ^ 24).
    change (16 ^ N.of_nat (2 + 2)) with (2 ^ 16).
    change (16 ^ N.of_nat 2) with 256.
    rewrite !M16. reflexivity.
Qed.

(** The 32 bits split into the fields of 1, 8 and 23 bits. *)
Lemma word_fields s e f :
  s < 2 -> e < 256 -> f < 2 ^ 23 ->
  let bits := fixed 2 32 (s * 2 ^ 31 + e * 2 ^ 23 + f) in
  firstn 1 bits = fixed 2 1 s /\
  firstn 8 (skipn 1 bits) = fixed 2 8 e /\
  skipn 9 bits = fixed 2 23 f.
Proof.
  intros Hs He Hf bits.
  set (W := s * 2 ^ 31 + e * 2 ^ 23 + f) in *.
  assert (E : bits = fixed 2 1 s ++ fixed 2 8 e ++ fixed 2 23 f).
  { unfold bits. change (fixed 2 32 W) with (fixed 2 (1 + (8 + 23)) W).
    rewrite !fixed_app.
    change (2 ^ N.of_nat (8 + 23)) with (2 ^ 31).
    change (2 ^ N.of_nat 23) with (2 ^ 23).
    f_equal; [|f_equal].
    - f_equal. symmetry.
      apply (N.div_unique _ _ _ (e * 2 ^ 23 + f)); unfold W; lia.
    - rewrite <- (fixed_mod 2 8 (W / 2 ^ 23)) by lia. f_equal.
      assert (Q : W / 2 ^ 23 = s * 256 + e).
      { symmetry. apply (N.div_unique _ _ _ f); unfold W; lia. }
      rewrite Q. change (2 ^ N.of_nat 8) with 256.
      symmetry. apply (N.mod_unique _ _ s); lia.
    - rewrite <- (fixed_mod 2 23 W) by lia. f_equal.
      change (2 ^ N.of_nat 23) with (2 ^ 23).
      symmetry. apply (N.mod_unique _ _ (s * 256 + e)); unfold W; lia. }
  rewrite E. split; [|split].
  - apply firstn_length_app, fixed_length.
  - rewrite (skipn_length_app _ _ 1) by apply fixed_length.
    apply firstn_length_app, fixed_length.
  - rewrite app_assoc. apply skipn_length_app.
    rewrite length_app, !fixed_length. reflexivity.
Qed.

Section Singles.

Local Open Scope Z_scope.

(** ** Rounding to binary32 *)

Lemma binary_round_aux_finish32 s m e :
  0 < m ->
  binary_round_aux 24 128 s m e loc_Exact
  = finish32 s (rne m (fexp32 (Zdigits2 m + e) - e))
      (e + Z.max (fexp32 (Zdigits2 m + e) - e) 0).
Proof.
  intro Hm. unfold binary_round_aux, finish32.
  unfold shr_fexp at 1. cbn [shr_record_of_loc].
  change (fexp 24 128 (Zdigits2 m + e)) with (fexp32 (Zdigits2 m + e)).
  pose proof (shr_round m e (fexp32 (Zdigits2 m + e) - e) ltac:(lia)) as H.
  destruct (shr _ e _) as [mrs e']. destruct H as [-> ->]. reflexivity.
Qed.

Lemma finish32_zero s t : finish32 s 0 t = S754_zero s.
Proof.
  unfold finish32, shr_fexp, shr. cbn [shr_record_of_loc Zdigits2].
  destruct (fexp 24 128 (0 + t) - t) as [|p|p]; try reflexivity.
  rewrite iter_pos_iter, iter_shr_1 by lia. reflexivity.
Qed.

Lemma finish32_canonical s q t :
  0 < q -> fexp32 (Zdigits2 q + t) <= t ->
  finish32 s q t
  = if t <=? 104 then S754_finite s (Z.to_pos q) t else S754_infinity s.
Proof.
  intros Hq Hf. unfold finish32, shr_fexp, shr. cbn [shr_record_of_loc].
  change (fexp 24 128 (Zdigits2 q + t)) with (fexp32 (Zdigits2 q + t)).
  destruct (fexp32 (Zdigits2 q + t) - t) as [|p|p] eqn:E; try lia;
    cbn [shr_m]; destruct q; try lia; reflexivity.
Qed.

Lemma finish32_carry s t :
  -149 <= t ->
  finish32 s (2 ^ 24) t
  = if t + 1 <=? 104 then S754_finite s (2 ^ 23) (t + 1)
    else S754_infinity s.
Proof.
  intro Ht. unfold finish32, shr_fexp, shr. cbn [shr_record_of_loc].
  assert (E : fexp32 (Zdigits2 (2 ^ 24) + t) - t = 1).
  { unfold fexp32. change (Zdigits2 (2 ^ 24)) with 25. lia. }
  change (fexp 24 128 (Zdigits2 (2 ^ 24) + t))
    with (fexp32 (Zdigits2 (2 ^ 24) + t)).
  rewrite E. rewrite iter_pos_iter, iter_shr_1 by lia. cbn [shr_m].
  reflexivity.
Qed.

Lemma round_pos32 s m e :
  0 < m -> e <= fexp32 (Zdigits2 m + e) ->
  (0 <= rne m (fexp32 (Zdigits2 m + e) - e) <= 2 ^ 24) /\
  (-149 < fexp32 (Zdigits2 m + e) ->
   2 ^ 23 <= rne m (fexp32 (Zdigits2 m + e) - e)) /\
  binary_round_aux 24 128 s m e loc_Exact
  = mk_float32 s (rne m (fexp32 (Zdigits2 m + e) - e))
      (fexp32 (Zdigits2 m + e)).
Proof.
  intros Hm Hk.
  rewrite binary_round_aux_finish32 by assumption.
  set (d := Zdigits2 m) in *. set (t := fexp32 (d + e)) in *.
  set (k := t - e). assert (Hk0 : 0 <= k) by (unfold k; lia).
  pose proof (Zdigits2_bounds m Hm) as [Hlo Hhi]. fold d in Hlo, Hhi.
  pose proof (Zdigits2_pos m Hm) as Hd. fold d in Hd.
  assert (Ht : -149 <= t /\ d + e - 24 <= t) by (unfold t, fexp32; lia).
  pose proof (rne_bounds m k ltac:(lia)) as Hr.
  replace (Z.max k 0) with k in * by lia.
  replace (e + k) with t by (unfold k; lia).
  assert (P : 0 < 2 ^ k) by (apply Z.pow_pos_nonneg; lia).
  assert (Hq0 : 0 <= m / 2 ^ k) by (apply Z.div_pos; lia).
  assert (Hq1 : m / 2 ^ k < 2 ^ 24).
  { apply Z.div_lt_upper_bound; [lia|].
    rewrite <- Z.pow_add_r by lia.
    eapply Z.lt_le_trans; [exact Hhi|].
    apply Z.pow_le_mono_r; unfold k; lia. }
  assert (Hq2 : -149 < t -> 2 ^ 23 <= m / 2 ^ k).
  { intro H. apply Z.div_le_lower_bound; [lia|].
    rewrite <- Z.pow_add_r by lia.
    eapply Z.le_trans; [|exact Hlo].
    apply Z.pow_le_mono_r; unfold k, t, fexp32 in *; lia. }
  split; [lia|]. split; [intro H; specialize (Hq2 H); lia|].
  unfold mk_float32.
  destruct (Z.eqb_spec (rne m k) 0) as [->|N0]; [apply finish32_zero|].
  destruct (Z.eqb_spec (rne m k) (2 ^ 24)) as [->|N24];
    [apply finish32_carry; lia|].
  apply finish32_canonical; [lia|].
  assert (Zdigits2 (rne m k) <= 24) by (apply Zdigits2_le; lia).
  unfold fexp32. lia.
Qed.

(** The conversion to single: the mantissa is rounded to the nearest,
    ties to even, at the exponent of the format. *)
Lemma to_single_finite s m e :
  (0 <= round_mant (Zpos m) e (fexp32 (Zdigits2 (Zpos m) + e)) <= 2 ^ 24) /\
  (-149 < fexp32 (Zdigits2 (Zpos m) + e) ->
   2 ^ 23 <= round_mant (Zpos m) e (fexp32 (Zdigits2 (Zpos m) + e))) /\
  Struct.to_single (S754_finite s m e)
  = mk_float32 s (round_mant (Zpos m) e (fexp32 (Zdigits2 (Zpos m) + e)))
      (fexp32 (Zdigits2 (Zpos m) + e)).
Proof.
  unfold Struct.to_single, binary_round, round_mant. rewrite shl_align_spec.
  change (fexp 24 128 (Zpos (digits2_pos m) + e))
    with (fexp32 (Zdigits2 (Zpos m) + e)).
  set (t := fexp32 (Zdigits2 (Zpos m) + e)).
  destruct (Z.ltb_spec t e) as [H|H].
  - assert (P : 0 < 2 ^ (e - t)) by (apply Z.pow_pos_nonneg; lia).
    assert (Hm : 0 < Zpos m * 2 ^ (e - t)) by nia.
    rewrite Z2Pos.id by assumption.
    assert (Ed : Zdigits2 (Zpos m * 2 ^ (e - t)) + t = Zdigits2 (Zpos m) + e).
    { rewrite Zdigits2_shift by lia. lia. }
    pose proof (round_pos32 s (Zpos m * 2 ^ (e - t)) t Hm) as R.
    rewrite Ed in R. fold t in R.
    replace (t - t) with 0 in R by lia.
    change (rne (Zpos m * 2 ^ (e - t)) 0) with (Zpos m * 2 ^ (e - t)) in R.
    apply R. lia.
  - apply round_pos32; [lia | fold t; lia].
Qed.

(** ** The fields of a single *)

Lemma bits32_fields y :
  Struct.bits32 y
  = sign_field y * 2 ^ 31 + exponent_field y * 2 ^ 23 + fraction_field y.
Proof.
  destruct y as [s|s| |s m e];
    cbn [Struct.bits32 sign_field exponent_field fraction_field];
    try destruct s; try destruct (2 ^ 23 <=? Zpos m); lia.
Qed.

(** The fields of the single built from a rounded mantissa: they are in
    range and, short of an infinity, they hold the mantissa and the
    exponent. *)
Lemma mk_float32_fields s q t :
  0 <= q <= 2 ^ 24 -> (-149 < t -> 2 ^ 23 <= q) -> -149 <= t ->
  let y := mk_float32 s q t in
  sign_field y = (if s then 1 else 0) /\
  0 <= exponent_field y <= 255 /\
  0 <= fraction_field y < 2 ^ 23 /\
  (y = S754_infinity s \/
   exponent_field y <= 254 /\
   t <= Z.max (exponent_field y) 1 - 150 /\
   (if exponent_field y =? 0 then fraction_field y
    else 2 ^ 23 + fraction_field y)
   * 2 ^ (Z.max (exponent_field y) 1 - 150 - t) = q).
Proof.
  intros Hq Hn Ht. cbv zeta. unfold mk_float32.
  destruct (Z.eqb_spec q 0) as [E0|N0].
  - cbn [sign_field exponent_field fraction_field].
    assert (t = -149) by lia. subst.
    repeat split; try lia. right. cbn. lia.
  - destruct (Z.eqb_spec q (2 ^ 24)) as [E24|N24].
    + destruct (Z.leb_spec (t + 1) 104) as [L|L];
        cbn [sign_field exponent_field fraction_field].
      * change (2 ^ 23 <=? Zpos (2 ^ 23)) with true. cbv iota.
        change (Zpos (2 ^ 23)) with (2 ^ 23).
        repeat split; try lia. right.
        destruct (Z.eqb_spec (t + 1 + 150) 0); [lia|].
        replace (Z.max (t + 1 + 150) 1 - 150 - t) with 1 by lia.
        repeat split; lia.
      * repeat split; try lia. left. reflexivity.
    + destruct (Z.leb_spec t 104) as [L|L];
        cbn [sign_field exponent_field fraction_field].
      * rewrite Z2Pos.id by lia.
        destruct (Z.leb_spec (2 ^ 23) q) as [Hnorm|Hsub].
        -- repeat split; try lia. right.
           destruct (Z.eqb_spec (t + 150) 0); [lia|].
           replace (Z.max (t + 150) 1 - 150 - t) with 0 by lia.
           repeat split; lia.
        -- assert (t = -149) by lia. subst.
           repeat split; try lia. right. cbn. lia.
      * repeat split; try lia. left. reflexivity.
Qed.

Lemma to_single_fields x :
  0 <= sign_field (Struct.to_single x) <= 1 /\
  0 <= exponent_field (Struct.to_single x) <= 255 /\
  0 <= fraction_field (Struct.to_single x) < 2 ^ 23.
Proof.
  destruct x as [s|s| |s m e];
    try (cbn; destruct s; lia); [cbn; lia|].
  destruct (to_single_finite s m e) as (Hq & Hn & ->).
  assert (Ht : -149 <= fexp32 (Zdigits2 (Zpos m) + e))
    by (unfold fexp32; lia).
  destruct (mk_float32_fields s _ _ Hq Hn Ht) as (Hs & He & Hf & _).
  rewrite Hs. destruct s; lia.
Qed.

(** ** The strings of [float_to_ieee754] *)

Lemma float_to_ieee754_strings x r :
  float_to_ieee754 {| iq_number := x |} = Return r ->
  let y := Struct.to_single x in
  binary r
  = fixed 2 1 (Z.to_N (sign_field y)) ++ lit " " ++
    fixed 2 8 (Z.to_N (exponent_field y)) ++ lit " " ++
    fixed 2 23 (Z.to_N (fraction_field y)) /\
  hex r = upper (fixed 16 8 (Z.to_N (Struct.bits32 y))).
Proof.
  intros H y. unfold float_to_ieee754 in H. cbn [iq_number] in H.
  destruct (to_single_fields x) as (Hs & He & Hf). fold y in Hs, He, Hf.
  set (w := Struct.bits32 y).
  assert (Ew : w = sign_field y * 2 ^ 31 + exponent_field y * 2 ^ 23
                   + fraction_field y) by apply bits32_fields.
  assert (Hw : 0 <= w < 2 ^ 32) by lia.
  assert (P : Struct.pack_f x
              = Return [Z.to_N w / 2 ^ 24; (Z.to_N w / 2 ^ 16) mod 256;
                        (Z.to_N w / 2 ^ 8) mod 256; Z.to_N w mod 256]%N).
  { unfold Struct.pack_f in *. fold y in H |- *. fold w in H |- *.
    assert (R : Return (A := list N)
                  [Z.to_N (w / 2 ^ 24); Z.to_N ((w / 2 ^ 16) mod 256);
                   Z.to_N ((w / 2 ^ 8) mod 256); Z.to_N (w mod 256)]
                = Return [Z.to_N w / 2 ^ 24; (Z.to_N w / 2 ^ 16) mod 256;
                          (Z.to_N w / 2 ^ 8) mod 256; Z.to_N w mod 256]%N).
    { rewrite !Z2N.inj_mod, !Z2N.inj_div by
        (try apply Z.div_pos; lia). reflexivity. }
    destruct x as [s|s| |s m e]; try exact R.
    destruct y as [s'|s'| |s' m' e']; try exact R.
    cbn [bind] in H. discriminate. }
  rewrite P in H. cbv beta iota delta [bind] in H.
  apply Return_inj in H. subst r.
  cbn [binary hex].
  assert (HW : (Z.to_N w < 2 ^ 32)%N).
  { change (2 ^ 32)%N with (Z.to_N (2 ^ 32)). apply Z2N.inj_lt; lia. }
  destruct (word_bytes (Z.to_N w) HW) as [-> ->].
  split; [|reflexivity].
  assert (EW : Z.to_N w
               = (Z.to_N (sign_field y) * 2 ^ 31
                  + Z.to_N (exponent_field y) * 2 ^ 23
                  + Z.to_N (fraction_field y))%N).
  { rewrite Ew. rewrite !Z2N.inj_add, !Z2N.inj_mul by lia. reflexivity. }
  rewrite EW.
  destruct (word_fields (Z.to_N (sign_field y)) (Z.to_N (exponent_field y))
              (Z.to_N (fraction_field y))) as (-> & -> & ->); try lia.
  reflexivity.
Qed.





(** ** The rounding of [float_to_ieee754] *)

Lemma pack_f_finite s m e :
  Struct.pack_f (S754_finite s m e) = Raise OverflowError <->
  exists s', Struct.to_single (S754_finite s m e) = S754_infinity s'.
Proof.
  unfold Struct.pack_f.
  destruct (Struct.to_single (S754_finite s m e)) as [s'|s'| |s' m' e'];
    split; try discriminate; try (intros [s'' H]; discriminate); eauto.
Qed.

Lemma float_to_ieee754_raises x :
  float_to_ieee754 {| iq_number := x |} = Raise OverflowError <->
  Struct.pack_f x = Raise OverflowError.
Proof.
  unfold float_to_ieee754. cbn [iq_number].
  destruct (Struct.pack_f x) as [bs|e]; cbv beta iota delta [bind];
    split; intro H; try discriminate; congruence.
Qed.

(** X21: for a finite number the answer shows the nearest single, ties to
    even.  With [t] the exponent of the format of binary32 for the number
    and [q] its mantissa rounded at [t], the exponent field [E] and the
    fraction field [F] of [binary] hold [q * 2^t]: as [F * 2^-149] when
    [E] is 0 (zero and subnormals), as [(2^23 + F) * 2^(E - 150)]
    otherwise. *)
Theorem float_to_ieee754_rounds s m e r :
  float_to_ieee754 {| iq_number := S754_finite s m e |} = Return r ->
  let t := fexp32 (Zdigits2 (Zpos m) + e) in
  let q := round_mant (Zpos m) e t in
  exists E F,
    binary r
    = (if s then lit "1" else lit "0") ++ lit " " ++
      zfill 8 (to_digits 2 (Z.to_N E)) ++ lit " " ++
      zfill 23 (to_digits 2 (Z.to_N F)) /\
    0 <= E <= 254 /\ 0 <= F < 2 ^ 23 /\
    t <= Z.max E 1 - 150 /\
    (if E =? 0 then F else 2 ^ 23 + F) * 2 ^ (Z.max E 1 - 150 - t) = q.
Proof.
  intros H t q.
  destruct (float_to_ieee754_strings _ r H) as [Hb _].
  destruct (to_single_finite s m e) as (Hq & Hn & Ey).
  fold t in Hq, Hn, Ey. fold q in Hq, Hn, Ey.
  assert (Ht : -149 <= t) by (unfold t, fexp32; lia).
  destruct (mk_float32_fields s q t Hq Hn Ht) as (Hs & He & Hf & Hv).
  rewrite <- Ey in Hs, He, Hf, Hv.
  set (y := Struct.to_single (S754_finite s m e)) in *.
  destruct Hv as [Hinf|(He' & Hle & Hval)].
  { assert (R : float_to_ieee754 {| iq_number := S754_finite s m e |}
                = Raise OverflowError).
    { apply float_to_ieee754_raises, pack_f_finite. eauto. }
    rewrite R in H. discriminate. }
  exists (exponent_field y), (fraction_field y).
  assert (Le : (Z.to_N (exponent_field y) < 2 ^ N.of_nat 8)%N)
    by (change (2 ^ N.of_nat 8)%N with 256%N; lia).
  assert (Lf : (Z.to_N (fraction_field y) < 2 ^ N.of_nat 23)%N).
  { change (2 ^ N.of_nat 23)%N with (Z.to_N (2 ^ 23)).
    apply Z2N.inj_lt; lia. }
  rewrite (zfill_fixed 2 7), (zfill_fixed 2 22) by (assumption || lia).
  split; [|repeat split; lia || assumption].
  rewrite Hb, Hs. destruct s; reflexivity.
Qed.

Lemma float_to_ieee754_rounds_witness :
  exists E F,
    binary {| binary := lit "0 01111110 00000000000000000000000";
              hex := lit "3F000000" |}
    = (if false then lit "1" else lit "0") ++ lit " " ++
      zfill 8 (to_digits 2 (Z.to_N E)) ++ lit " " ++
      zfill 23 (to_digits 2 (Z.to_N F)) /\
    0 <= E <= 254 /\ 0 <= F < 2 ^ 23 /\
    fexp32 (Zdigits2 (Zpos (2 ^ 52)) + -53) <= Z.max E 1 - 150 /\
    (if E =? 0 then F else 2 ^ 23 + F)
    * 2 ^ (Z.max E 1 - 150 - fexp32 (Zdigits2 (Zpos (2 ^ 52)) + -53))
    = round_mant (Zpos (2 ^ 52)) (-53)
        (fexp32 (Zdigits2 (Zpos (2 ^ 52)) + -53)).
Proof.
  apply (float_to_ieee754_rounds false (2 ^ 52) (-53)). vm_compute.
  reflexivity.
Defined.

(** From the middle between [u - 1] and an even [u] on, rounding gives
    at least [u]. *)
Lemma rne_ge_half m k u :
  0 <= m -> 0 < k -> Z.even u = true -> (2 * u - 1) * 2 ^ k <= 2 * m ->
  u <= rne m k.
Proof.
  intros Hm Hk Hu H. unfold rne. destruct (Z.leb_spec k 0); [lia|].
  assert (P : 0 < 2 ^ (k - 1)) by (apply Z.pow_pos_nonneg; lia).
  assert (Ph : 2 ^ k = 2 * 2 ^ (k - 1)).
  { rewrite <- Z.pow_succ_r by lia. f_equal. lia. }
  pose proof (Z.div_mod m (2 ^ k) ltac:(lia)) as D.
  pose proof (Z.mod_pos_bound m (2 ^ k) ltac:(lia)) as B.
  set (q0 := m / 2 ^ k) in *. set (r := m mod 2 ^ k) in *.
  set (h := 2 ^ (k - 1)) in *.
  assert (U : u <= q0 + 1) by nia.
  destruct (Z.eq_dec u (q0 + 1)) as [E|E].
  - assert (Hr : h <= r) by nia.
    destruct (Z.ltb_spec r h); [lia|].
    destruct (Z.ltb_spec h r); [lia|].
    assert (Ev : Z.even q0 = false).
    { rewrite E, Z.add_1_r, Z.even_succ in Hu.
      rewrite <- Z.negb_odd, Hu. reflexivity. }
    rewrite Ev. lia.
  - assert (u <= q0) by lia.
    destruct (Z.ltb_spec r h); [lia|].
    destruct (Z.ltb_spec h r); [lia|].
    destruct (Z.even q0); lia.
Qed.

(** The single of a finite number is an infinity exactly from
    [2^128 - 2^103] on, the middle between the greatest single and
    [2^128]. *)
Lemma to_single_overflow s m e :
  (exists s', Struct.to_single (S754_finite s m e) = S754_infinity s') <->
  dy_le (2 ^ 25 - 1) 103 (Zpos m) e.
Proof.
  destruct (to_single_finite s m e) as (Hq & Hn & ->).
  set (d := Zdigits2 (Zpos m)) in *.
  set (t := fexp32 (d + e)) in *.
  set (q := round_mant (Zpos m) e t) in *.
  pose proof (Zdigits2_bounds (Zpos m) ltac:(lia)) as [Hlo Hhi].
  fold d in Hlo, Hhi.
  pose proof (Zdigits2_pos (Zpos m) ltac:(lia)) as Hd. fold d in Hd.
  assert (Ht : -149 <= t /\ d + e - 24 <= t /\
               (t = -149 \/ t = d + e - 24)) by (unfold t, fexp32; lia).
  assert (Einf : (exists s', mk_float32 s q t = S754_infinity s') <->
                 (q = 2 ^ 24 /\ 104 <= t) \/
                 (q <> 0 /\ q <> 2 ^ 24 /\ 105 <= t)).
  { unfold mk_float32.
    destruct (Z.eqb_spec q 0); [split; [intros [? ?]; discriminate | lia]|].
    destruct (Z.eqb_spec q (2 ^ 24)).
    - destruct (Z.leb_spec (t + 1) 104);
        (split; [intros [? ?]; try discriminate; lia
                | intro; try lia; eauto]).
    - destruct (Z.leb_spec t 104);
        (split; [intros [? ?]; try discriminate; lia
                | intro; try lia; eauto]). }
  rewrite Einf. clear Einf.
  (* the value against the threshold, at a common exponent *)
  set (c := Z.min e (-149)).
  rewrite (dy_le_scale c) by (unfold c; lia).
  assert (Hc : c <= e /\ c <= -149) by (unfold c; lia).
  assert (Pc : 0 < 2 ^ (e - c)) by (apply pow2_pos; lia).
  assert (Qexact : t < e -> q = Zpos m * 2 ^ (e - t) /\ q < 2 ^ 24).
  { intro L. unfold q, round_mant.
    destruct (Z.ltb_spec t e); [|lia]. split; [reflexivity|].
    assert (Hx : Zpos m * 2 ^ (e - t) < 2 ^ d * 2 ^ (e - t)).
    { apply Z.mul_lt_mono_pos_r; [apply pow2_pos; lia | lia]. }
    rewrite <- pow2_split in Hx by lia.
    assert (2 ^ (d + (e - t)) <= 2 ^ 24) by (apply Z.pow_le_mono_r; lia).
    lia. }
  assert (Qround : e <= t -> q = rne (Zpos m) (t - e)).
  { intro L. unfold q, round_mant. destruct (Z.ltb_spec t e); [lia|].
    reflexivity. }
  (* the value is between 2^(d-1+e) and 2^(d+e) *)
  assert (Vlo : 2 ^ (d - 1 + e - c) <= Zpos m * 2 ^ (e - c)).
  { replace (d - 1 + e - c) with ((d - 1) + (e - c)) by lia.
    rewrite pow2_split by (unfold c; lia).
    apply Z.mul_le_mono_nonneg_r; lia. }
  assert (Vhi : Zpos m * 2 ^ (e - c) < 2 ^ (d + e - c)).
  { replace (d + e - c) with (d + (e - c)) by lia.
    rewrite pow2_split by (unfold c; lia).
    apply Z.mul_lt_mono_pos_r; lia. }
  assert (T : (2 ^ 25 - 1) * 2 ^ (103 - c) < 2 ^ (128 - c)).
  { replace (128 - c) with (25 + (103 - c)) by lia.
    rewrite pow2_split by (unfold c; lia).
    pose proof (pow2_pos (103 - c) ltac:(unfold c; lia)). nia. }
  assert (T' : 2 ^ (127 - c) < (2 ^ 25 - 1) * 2 ^ (103 - c)).
  { replace (127 - c) with (24 + (103 - c)) by lia.
    rewrite pow2_split by (unfold c; lia).
    pose proof (pow2_pos (103 - c) ltac:(unfold c; lia)). nia. }
  split.
  - intros [[Eq Hge]|(N0 & N24 & Hge)].
    + destruct (Z.eq_dec t 104) as [E104|]; [|
        assert (2 ^ (128 - c) <= 2 ^ (d - 1 + e - c))
          by (apply Z.pow_le_mono_r; lia); lia].
      destruct (Z.lt_ge_cases t e) as [L|L];
        [destruct (Qexact L); lia|].
      rewrite (Qround ltac:(lia)) in Eq.
      destruct (Z.eq_dec t e) as [Ete|Nte].
      { replace (t - e) with 0 in Eq by lia. unfold rne in Eq. cbn in Eq.
        assert (Hd24 : d = 24) by lia. rewrite Hd24 in Hhi. lia. }
      assert (M : (2 ^ 25 - 1) * 2 ^ (t - e) <= 2 * Zpos m).
      { destruct (Z.le_gt_cases ((2 ^ 25 - 1) * 2 ^ (t - e)) (2 * Zpos m))
          as [|G]; [assumption|].
        pose proof (rne_le_half (Zpos m) (t - e) (2 ^ 24 - 1)
                      ltac:(lia) ltac:(lia)) as R.
        replace (2 * (2 ^ 24 - 1) + 1) with (2 ^ 25 - 1) in R by reflexivity.
        specialize (R G). lia. }
      replace (103 - c) with ((t - e - 1) + (e - c)) by lia.
      rewrite pow2_split by lia. rewrite Z.mul_assoc.
      apply Z.mul_le_mono_nonneg_r; [lia|].
      assert (Ph : 2 ^ (t - e) = 2 * 2 ^ (t - e - 1)).
      { rewrite <- Z.pow_succ_r by lia. f_equal. lia. }
      lia.
    + assert (2 ^ (128 - c) <= 2 ^ (d - 1 + e - c))
        by (apply Z.pow_le_mono_r; lia). lia.
  - intro Hth.
    assert (D128 : 128 <= d + e).
    { destruct (Z.le_gt_cases 128 (d + e)); [assumption|].
      assert (2 ^ (d + e - c) <= 2 ^ (127 - c))
        by (apply Z.pow_le_mono_r; unfold c; lia). lia. }
    assert (Tn : t = d + e - 24) by lia.
    assert (Q23 : 2 ^ 23 <= q) by (apply Hn; lia).
    destruct (Z.eq_dec t 104) as [E104|N104].
    2:{ destruct (Z.eq_dec q (2 ^ 24)); [left; lia | right; lia]. }
    left. split; [|lia].
    destruct (Z.lt_ge_cases t e) as [L|L].
    { destruct (Qexact L) as [Eq Lq]. exfalso.
      assert (c = -149) by (unfold c; lia).
      assert (Hx : Zpos m * 2 ^ (e - c) = q * 2 ^ (t - c)).
      { rewrite Eq. replace (e - c) with ((e - t) + (t - c)) by lia.
        rewrite pow2_split by lia. ring. }
      replace (103 - c) with 252 in Hth by lia.
      replace (t - c) with 253 in Hx by lia.
      change (2 ^ 253) with (2 * 2 ^ 252) in Hx.
      pose proof (pow2_pos 252 ltac:(lia)). nia. }
    rewrite (Qround ltac:(lia)).
    destruct (Z.eq_dec t e) as [Ete|Nte].
    { exfalso. assert (Hd24 : d = 24) by lia.
      assert (c = -149) by (unfold c; lia).
      replace (103 - c) with 252 in Hth by lia.
      replace (e - c) with 253 in Hth by lia.
      change (2 ^ 253) with (2 * 2 ^ 252) in Hth.
      rewrite Hd24 in Hhi.
      pose proof (pow2_pos 252 ltac:(lia)). nia. }
    assert (M : (2 * 2 ^ 24 - 1) * 2 ^ (t - e) <= 2 * Zpos m).
    { replace (103 - c) with ((t - e - 1) + (e - c)) in Hth by lia.
      rewrite pow2_split, Z.mul_assoc in Hth by lia.
      apply Z.mul_le_mono_pos_r in Hth; [|lia].
      assert (Ph : 2 ^ (t - e) = 2 * 2 ^ (t - e - 1)).
      { rewrite <- Z.pow_succ_r by lia. f_equal. lia. }
      change (2 * 2 ^ 24 - 1) with (2 ^ 25 - 1). lia. }
    pose proof (rne_ge_half (Zpos m) (t - e) (2 ^ 24) ltac:(lia) ltac:(lia)
                  eq_refl M) as R.
    rewrite <- (Qround ltac:(lia)) in *. lia.
Qed.

(** X22: the only failure of [float_to_ieee754] is [OverflowError], and
    it is raised exactly for the finite numbers of magnitude at least
    [2^128 - 2^103 = (2^25 - 1) * 2^103], which round to an infinite
    single; zeros, infinities and NaN are always answered. *)
Theorem float_to_ieee754_overflow x :
  (float_to_ieee754 {| iq_number := x |} = Raise OverflowError <->
   exists s m e,
     x = S754_finite s m e /\ dy_le (2 ^ 25 - 1) 103 (Zpos m) e) /\
  (float_to_ieee754 {| iq_number := x |} = Raise OverflowError \/
   exists r, float_to_ieee754 {| iq_number := x |} = Return r).
Proof.
  split.
  - rewrite float_to_ieee754_raises.
    destruct x as [s|s| |s m e];
      try (split; [discriminate | intros (? & ? & ? & ? & _); discriminate]).
    rewrite pack_f_finite, to_single_overflow. split.
    + intro H. eauto.
    + intros (s' & m' & e' & E & H). injection E as -> -> ->. exact H.
  - unfold float_to_ieee754. cbn [iq_number].
    destruct (Struct.pack_f x) as [bs|e] eqn:E; cbv beta iota delta [bind];
      [right; eauto|left].
    unfold Struct.pack_f in E.
    destruct x as [s|s| |s m e']; try discriminate.
    destruct (Struct.to_single _); try discriminate. congruence.
Qed.

Lemma float_to_ieee754_overflow_witness :
  float_to_ieee754 {| iq_number := S754_finite false (2 ^ 52) 76 |}
  = Raise OverflowError.
Proof.
  apply (proj1 (float_to_ieee754_overflow (S754_finite false (2 ^ 52) 76))).
  exists false, (2 ^ 52)%positive, 76. split; [reflexivity|].
  unfold dy_le. vm_compute. discriminate.
Defined.

End Singles.

Section ExactDigits.

Local Open Scope Z_scope.

(** ** The digit loop in base 2, 8 and 16 *)

(** Multiplying a double in [0, 1) by a power of two is exact. *)
Lemma mul_pow2_exact mx ex j :
  bounded PyFloat.prec PyFloat.emax mx ex = true ->
  ex < 0 -> Zpos mx < 2 ^ (- ex) -> 1 <= j <= 52 ->
  exists q t,
    PyFloat.mul (S754_finite false mx ex)
      (S754_finite false (2 ^ 52) (j - 52))
    = mk_float false q t /\
    1 <= q < 2 ^ 53 /\ -1074 <= t < 0 /\ (-1074 < t -> 2 ^ 52 <= q) /\
    q * 2 ^ (t + 1074) = Zpos mx * 2 ^ (ex + j + 1074).
Proof.
  intros Hb Hex Hlt Hj.
  destruct (bounded_spec _ _ Hb) as (Hexr & Hdx & Hnorm & HX53).
  set (X := Zpos mx) in *.
  unfold PyFloat.mul, SFmul. cbn [xorb].
  rewrite Pos2Z.inj_mul. change (Zpos (2 ^ 52)) with (2 ^ 52). fold X.
  set (M := X * 2 ^ 52). set (E := ex + (j - 52)).
  assert (HX : 0 < X) by (unfold X; lia).
  pose proof (Zdigits2_pos X HX) as HdX0.
  pose proof (Zdigits2_bounds X HX) as [HXlo HXhi].
  assert (Hd : Zdigits2 M = Zdigits2 X + 52)
    by (apply Zdigits2_shift; lia).
  assert (HdX : Zdigits2 X <= - ex) by (apply Zdigits2_le; lia).
  assert (HM : 0 < M) by (unfold M; lia).
  destruct (round_pos false M E HM) as (Hq & Hn & ->).
  { rewrite Hd. unfold fexp64, E. lia. }
  rewrite Hd in *. set (t := fexp64 (Zdigits2 X + 52 + E)) in *.
  set (k := t - E) in *.
  assert (Hk : 0 <= k <= 52 /\ Zdigits2 X - 1 <= k)
    by (unfold k, t, fexp64, E; lia).
  assert (Erne : rne M k = X * 2 ^ (52 - k)).
  { unfold M. replace (X * 2 ^ 52) with (X * 2 ^ (52 - k) * 2 ^ k).
    2:{ rewrite <- Z.mul_assoc, <- pow2_split by lia. f_equal. f_equal. lia. }
    pose proof (pow2_pos k ltac:(lia)).
    rewrite rne_exact; [apply Z.div_mul; lia | lia | apply Z.mod_mul; lia]. }
  rewrite Erne in *.
  exists (X * 2 ^ (52 - k)), t.
  split; [reflexivity|].
  pose proof (pow2_pos (52 - k) ltac:(lia)) as P1.
  split; [split; [nia|]|].
  { assert (X * 2 ^ (52 - k) < 2 ^ Zdigits2 X * 2 ^ (52 - k))
      by (apply Z.mul_lt_mono_pos_r; lia).
    rewrite <- pow2_split in H by lia.
    assert (2 ^ (Zdigits2 X + (52 - k)) <= 2 ^ 53)
      by (apply Z.pow_le_mono_r; lia).
    lia. }
  split; [unfold t, fexp64, E; lia|].
  split; [exact Hn|].
  rewrite <- Z.mul_assoc, <- pow2_split by (unfold t, fexp64; lia).
  f_equal. f_equal. unfold k, E. lia.
Qed.

(** Taking the integer part off a non-negative double is exact. *)
Lemma remainder_exact mp ep :
  bounded PyFloat.prec PyFloat.emax mp ep = true ->
  exists r,
    remainder (S754_finite false mp ep) (Z.shiftl (Zpos mp) ep) = Return r /\
    in_unit r = true /\
    unit_num r = (Zpos mp * 2 ^ (ep + 1074)) mod 2 ^ 1074.
Proof.
  intro Hb. destruct (bounded_spec _ _ Hb) as (Hep & Hd & Hnorm & HP).
  set (P := Zpos mp) in *. unfold remainder.
  pose proof (pow2_pos 1074 ltac:(lia)) as P1074.
  destruct (Z.le_gt_cases 0 ep) as [Hpos|Hneg].
  - (* an integer: the remainder is 0.0 *)
    rewrite Z.shiftl_mul_pow2 by assumption.
    unfold PyFloat.of_int.
    specialize (Hnorm ltac:(lia)).
    assert (Et : fexp64 (Zdigits2 P + (ep + 0)) = ep)
      by (unfold fexp64; lia).
    destruct (binary_normalize_exact P ep 0 ltac:(lia) Hpos) as [Hq E].
    { rewrite Et. lia. }
    rewrite E, Et. replace (ep + 0 - ep) with 0 by lia.
    rewrite Z.pow_0_r, Z.mul_1_r, mk_float_finite by lia.
    unfold P. rewrite Pos2Z.id. cbn [bind].
    rewrite sub_pos. replace (ep - Z.min ep ep) with 0 by lia.
    rewrite Z.sub_diag. eexists. split; [reflexivity|].
    split; [reflexivity|]. cbn [binary_normalize unit_num].
    rewrite pow2_split, Z.mul_assoc by lia. symmetry. apply Z.mod_mul. lia.
  - rewrite Z.shiftl_div_pow2 by lia.
    pose proof (pow2_pos (- ep) ltac:(lia)) as PA.
    pose proof (pow2_pos (ep + 1074) ltac:(lia)) as PB.
    assert (PAB : 2 ^ 1074 = 2 ^ (- ep) * 2 ^ (ep + 1074)).
    { rewrite <- pow2_split by lia. f_equal. lia. }
    pose proof (Z.div_mod P (2 ^ (- ep)) ltac:(lia)) as DM.
    pose proof (Z.mod_pos_bound P (2 ^ (- ep)) PA) as BM.
    set (D := P / 2 ^ (- ep)) in *. set (R := P mod 2 ^ (- ep)) in *.
    assert (HD0 : 0 <= D) by (apply Z.div_pos; lia).
    assert (EV : (P * 2 ^ (ep + 1074)) mod 2 ^ 1074
                 = R * 2 ^ (ep + 1074)).
    { symmetry. apply (Z.mod_unique _ _ D); [left; nia|].
      rewrite PAB. nia. }
    rewrite EV.
    destruct (Z.eq_dec D 0) as [ED|ND].
    + (* no integer part *)
      rewrite ED. cbn [PyFloat.of_int binary_normalize bind].
      change (PyFloat.sub (S754_finite false mp ep) (S754_zero false))
        with (S754_finite false mp ep).
      eexists. split; [reflexivity|]. split.
      * unfold in_unit. cbn [valid_binary]. rewrite Hb. cbn [andb].
        apply andb_true_iff. split; [apply Z.ltb_lt; lia|].
        apply Z.ltb_lt. fold P. nia.
      * cbn [unit_num]. fold P. f_equal. nia.
    + assert (HD : 0 < D < 2 ^ 53) by nia.
      rewrite of_int_exact by assumption. cbn [bind].
      rewrite sub_pos.
      pose proof (Zdigits2_pos D ltac:(lia)) as Hd0.
      pose proof (Zdigits2_le D 53 HD) as Hd1.
      set (tD := Zdigits2 D - 53) in *.
      set (ez := Z.min ep tD).
      rewrite Z2Pos.id by (pose proof (pow2_pos (53 - Zdigits2 D)); nia).
      fold P.
      assert (EM : P * 2 ^ (ep - ez)
                   - D * 2 ^ (53 - Zdigits2 D) * 2 ^ (tD - ez)
                   = R * 2 ^ (ep - ez)).
      { rewrite <- Z.mul_assoc, <- pow2_split by (unfold tD, ez; lia).
        replace (53 - Zdigits2 D + (tD - ez)) with (- ep + (ep - ez))
          by (unfold tD; lia).
        rewrite pow2_split by (unfold ez; lia). nia. }
      rewrite EM.
      destruct (Z.eq_dec R 0) as [ER|NR].
      * rewrite ER, !Z.mul_0_l. eexists. split; [reflexivity|].
        split; reflexivity.
      * assert (HR : 0 < R) by lia.
        assert (HdR : Zdigits2 R <= 53) by (apply Zdigits2_le; nia).
        pose proof (Zdigits2_pos R HR) as HdR0.
        destruct (binary_normalize_exact R (ep - ez) ez HR
                    ltac:(unfold ez; lia)) as [Hq E].
        { unfold fexp64. lia. }
        replace (ep - ez + ez) with ep in * by lia.
        set (t := fexp64 (Zdigits2 R + ep)) in *.
        assert (Ht : -1074 <= t <= ep) by (unfold t, fexp64; lia).
        rewrite E, mk_float_finite by lia.
        eexists. split; [reflexivity|]. split.
        -- unfold in_unit. apply andb_true_iff. split.
           ++ rewrite <- (mk_float_finite false) by lia.
              apply mk_float_valid; try lia.
              intro Hn.
              assert (Et : t = Zdigits2 R + ep - 53)
                by (unfold t, fexp64 in *; lia).
              pose proof (Zdigits2_bounds R HR) as [Hlo _].
              replace (ep - t) with (53 - Zdigits2 R) by lia.
              assert (2 ^ 52
                      = 2 ^ (Zdigits2 R - 1) * 2 ^ (53 - Zdigits2 R)).
              { rewrite <- pow2_split by lia. f_equal. lia. }
              pose proof (pow2_pos (53 - Zdigits2 R) ltac:(lia)). nia.
           ++ apply andb_true_iff. split; [apply Z.ltb_lt; lia|].
              apply Z.ltb_lt. rewrite Z2Pos.id by lia.
              replace (- t) with (- ep + (ep - t)) by lia.
              rewrite pow2_split by lia.
              pose proof (pow2_pos (ep - t) ltac:(lia)). nia.
        -- cbn [unit_num]. rewrite Z2Pos.id by lia.
           rewrite <- Z.mul_assoc, <- pow2_split by lia.
           f_equal. f_equal. lia.
Qed.

Lemma in_unit_num x :
  in_unit x = true ->
  0 <= unit_num x < 2 ^ 1074 /\
  (PyFloat.eq_zero x = (unit_num x =? 0)).
Proof.
  unfold in_unit. intro H. apply andb_true_iff in H. destruct H as [Hv Hx].
  pose proof (pow2_pos 1074 ltac:(lia)) as P.
  destruct x as [s|s| |s m e]; try discriminate; [cbn; lia|].
  destruct s; [discriminate|].
  apply andb_true_iff in Hx. destruct Hx as [He Hm].
  apply Z.ltb_lt in He, Hm. cbn [valid_binary] in Hv.
  destruct (bounded_spec _ _ Hv) as (Her & _).
  cbn [unit_num PyFloat.eq_zero].
  pose proof (pow2_pos (e + 1074) ltac:(lia)) as Pe.
  assert (E : 2 ^ 1074 = 2 ^ (- e) * 2 ^ (e + 1074)).
  { rewrite <- pow2_split by lia. f_equal. lia. }
  split; [rewrite E; nia|].
  destruct (Z.eqb_spec (Zpos m * 2 ^ (e + 1074)) 0); [nia | reflexivity].
Qed.

(** One iteration of the digit loop for the base [2^j]: the digit and
    the new accumulator are exact. *)
Lemma next_digit_exact D j x :
  1 <= j <= 4 -> D = 2 ^ j -> in_unit x = true ->
  exists d c r,
    next_digit D x = Return (d, c) /\
    remainder c d = Return r /\
    in_unit r = true /\
    d = (D * unit_num x) / 2 ^ 1074 /\
    unit_num r = (D * unit_num x) mod 2 ^ 1074 /\
    0 <= d < D.
Proof.
  intros Hj HD Hx.
  assert (Hof : PyFloat.of_int D
                = Return (S754_finite false (2 ^ 52) (j - 52))).
  { assert (C : j = 1 \/ j = 2 \/ j = 3 \/ j = 4) by lia.
    destruct C as [-> | [-> | [-> | ->]]]; subst D; reflexivity. }
  assert (PD : 0 < D) by (subst D; apply pow2_pos; lia).
  pose proof (pow2_pos 1074 ltac:(lia)) as P.
  destruct (in_unit_num x Hx) as [HN _].
  unfold next_digit. rewrite Hof. cbn [bind].
  unfold in_unit in Hx. apply andb_true_iff in Hx. destruct Hx as [Hv Hx].
  destruct x as [s|s| |s mx ex]; try discriminate.
  - (* 0.0 *)
    exists 0, (S754_zero (xorb s false)), (S754_zero s).
    split; [reflexivity|]. split; [destruct s; reflexivity|].
    split; [reflexivity|]. cbn [unit_num]. rewrite Z.mul_0_r.
    split; [reflexivity|]. split; [reflexivity | lia].
  - destruct s; [discriminate|].
    apply andb_true_iff in Hx. destruct Hx as [Hex Hlt].
    apply Z.ltb_lt in Hex, Hlt. cbn [valid_binary] in Hv.
    destruct (mul_pow2_exact mx ex j Hv Hex Hlt ltac:(lia))
      as (q & t & Hmul & Hq & Ht & Hn & Hval).
    rewrite Hmul.
    pose proof (mk_float_valid false q t ltac:(lia) Hn ltac:(lia)) as Hb.
    rewrite mk_float_finite in * by lia. cbn [valid_binary] in Hb.
    destruct (remainder_exact _ _ Hb) as (r & Hr & Hru & Hrv).
    rewrite Z2Pos.id in Hrv by lia.
    assert (EN : D * unit_num (S754_finite false mx ex)
                 = q * 2 ^ (t + 1074)).
    { cbn [unit_num]. rewrite Hval, HD.
      replace (ex + j + 1074) with (j + (ex + 1074)) by lia.
      destruct (bounded_spec _ _ Hv) as (Her & _).
      rewrite (pow2_split j (ex + 1074)) by lia. ring. }
    rewrite EN.
    exists (Z.shiftl (Zpos (Z.to_pos q)) t),
      (S754_finite false (Z.to_pos q) t), r.
    split; [reflexivity|]. split; [exact Hr|]. split; [exact Hru|].
    rewrite Z2Pos.id by lia.
    assert (Ed : Z.shiftl q t = q * 2 ^ (t + 1074) / 2 ^ 1074).
    { rewrite Z.shiftl_div_pow2 by lia.
      replace (2 ^ 1074) with (2 ^ (- t) * 2 ^ (t + 1074)).
      2:{ rewrite <- pow2_split by lia. f_equal. lia. }
      symmetry. apply Z.div_mul_cancel_r.
      - pose proof (pow2_pos (- t) ltac:(lia)). lia.
      - pose proof (pow2_pos (t + 1074) ltac:(lia)). lia. }
    split; [exact Ed|]. split; [exact Hrv|].
    rewrite Ed, <- EN. split.
    + apply Z.div_pos; [nia | lia].
    + apply Z.div_lt_upper_bound; [lia|]. nia.
Qed.

(** For the targets 2, 8 and 16 the digit loop is exact: from an
    accumulator in [0, 1), a double [N / 2^1074], it produces the digits
    [base_digits] of that fraction. *)
Lemma frac_loop_base_digits D n : forall x res_frac,
  In D [2; 8; 16] -> in_unit x = true ->
  frac_loop n D res_frac x
  = Return (res_frac ++
            List.map digit_symbol (base_digits n D (unit_num x))).
Proof.
  induction n as [|n IH]; intros x res_frac HD Hx.
  - cbn. rewrite app_nil_r. reflexivity.
  - assert (J : exists j, 1 <= j <= 4 /\ D = 2 ^ j).
    { destruct HD as [<-|[<-|[<-|[]]]];
        [exists 1 | exists 3 | exists 4]; split; (lia || reflexivity). }
    destruct J as (j & Hj & EJ).
    destruct (next_digit_exact D j x Hj EJ Hx)
      as (d & c & r & Hn & Hr & Hru & Hd & Hrv & Hdr).
    cbn [frac_loop base_digits List.map]. rewrite Hn. cbn [bind].
    assert (D36 : D <= 16) by (destruct HD as [<-|[<-|[<-|[]]]]; lia).
    rewrite digit_text_symbol by lia. cbn [bind]. rewrite Hr. cbn [bind].
    destruct (in_unit_num r Hru) as [_ Ez]. rewrite Ez, Hrv, <- Hd.
    destruct (Z.eqb_spec ((D * unit_num x) mod 2 ^ 1074) 0) as [E0|N0].
    + reflexivity.
    + rewrite (IH r _ HD Hru), Hrv, <- app_assoc. reflexivity.
Qed.

(** ** The first loop for the bases 2, 8 and 16 *)

(** A negative power of a power of two is exact. *)
Lemma pow_neg_pow2 a k :
  1 <= a -> 1 <= k -> a * k <= 1021 ->
  PyFloat.pow_neg (2 ^ a) k
  = Return (S754_finite false (2 ^ 52) (- (a * k) - 52)).
Proof.
  intros Ha Hk Hn. unfold PyFloat.pow_neg.
  pose proof (pow2_pos a ltac:(lia)) as Pa.
  destruct (Z.eqb_spec (2 ^ a) 0) as [|_]; [lia|].
  destruct (Z.ltb_spec (2 ^ a) 0) as [|_]; [lia|]. cbn [andb].
  rewrite Z.abs_eq, <- Z.pow_mul_r by lia.
  set (n := a * k) in *.
  assert (Hn1 : 1 <= n) by (unfold n; nia).
  pose proof (pow2_pos n ltac:(lia)) as Pn.
  unfold SFdiv_core_binary.
  assert (Ed : Zdigits2 (2 ^ n) = n + 1).
  { apply Zdigits2_unique; [|lia].
    replace (n + 1 - 1) with n by lia. split; [lia|].
    apply Z.pow_lt_mono_r; lia. }
  rewrite Ed. change (Zdigits2 1) with 1.
  change (fexp PyFloat.prec PyFloat.emax (1 + 0 - (n + 1 + 0)))
    with (fexp64 (1 + 0 - (n + 1 + 0))).
  assert (Ee : Z.min (fexp64 (1 + 0 - (n + 1 + 0))) (0 - 0) = - n - 53)
    by (unfold fexp64; lia).
  rewrite Ee.
  replace (0 - 0 - (- n - 53)) with (n + 53) by lia.
  destruct (n + 53) as [|s|s] eqn:Es; try lia.
  rewrite <- Es, Z.shiftl_mul_pow2, Z.mul_1_l by lia.
  assert (Eq : Z.div_eucl (2 ^ (n + 53)) (2 ^ n) = (2 ^ 53, 0)).
  { assert (DE : forall x y, Z.div_eucl x y = (x / y, x mod y)).
    { intros x y. unfold Z.div, Z.modulo.
      destruct (Z.div_eucl x y); reflexivity. }
    rewrite DE. replace (n + 53) with (53 + n) by lia.
    rewrite pow2_split by lia.
    rewrite Z.div_mul, Z.mod_mul by lia. reflexivity. }
  rewrite Eq.
  assert (El : new_location (2 ^ n) 0 = loc_Exact).
  { unfold new_location, new_location_even, new_location_odd.
    destruct (Z.even (2 ^ n)); reflexivity. }
  rewrite El.
  destruct (round_pos false (2 ^ 53) (- n - 53) ltac:(lia)) as (_ & _ & ->).
  { change (Zdigits2 (2 ^ 53)) with 54. unfold fexp64. lia. }
  change (Zdigits2 (2 ^ 53)) with 54.
  assert (Et : fexp64 (54 + (- n - 53)) = - n - 52) by (unfold fexp64; lia).
  rewrite Et. replace (- n - 52 - (- n - 53)) with 1 by lia.
  change (rne (2 ^ 53) 1) with (2 ^ 52).
  rewrite mk_float_finite by lia. reflexivity.
Qed.

Lemma add_pos m1 e1 m2 e2 :
  PyFloat.add (S754_finite false m1 e1) (S754_finite false m2 e2)
  = binary_normalize PyFloat.prec PyFloat.emax
      (Zpos m1 * 2 ^ (e1 - Z.min e1 e2) + Zpos m2 * 2 ^ (e2 - Z.min e1 e2))
      (Z.min e1 e2) false.
Proof.
  unfold PyFloat.add, SFadd. cbn [cond_Zopp]. rewrite !shl_align_spec.
  f_equal. f_equal.
  - destruct (Z.ltb_spec (Z.min e1 e2) e1); cbn [fst].
    + rewrite Z2Pos.id; [reflexivity|].
      pose proof (pow2_pos (e1 - Z.min e1 e2)); nia.
    + replace (e1 - Z.min e1 e2) with 0 by lia. lia.
  - destruct (Z.ltb_spec (Z.min e1 e2) e2); cbn [fst].
    + rewrite Z2Pos.id; [reflexivity|].
      pose proof (pow2_pos (e2 - Z.min e1 e2)); nia.
    + replace (e2 - Z.min e1 e2) with 0 by lia. lia.
Qed.

(** Normalising a representable value below 1 gives the double of that
    value. *)
Lemma normalize_unit R j e :
  0 < R -> 0 <= j -> fexp64 (Zdigits2 R + (j + e)) <= j + e ->
  R * 2 ^ (j + e + 1074) < 2 ^ 1074 ->
  in_unit (binary_normalize PyFloat.prec PyFloat.emax (R * 2 ^ j) e false)
  = true /\
  unit_num (binary_normalize PyFloat.prec PyFloat.emax (R * 2 ^ j) e false)
  = R * 2 ^ (j + e + 1074).
Proof.
  intros HR Hj Hf Hlt.
  destruct (binary_normalize_exact R j e HR Hj Hf) as [Hq ->].
  set (t := fexp64 (Zdigits2 R + (j + e))) in *.
  pose proof (Zdigits2_pos R HR) as Hd0.
  assert (Ht : -1074 <= t <= j + e) by (unfold t, fexp64 in *; lia).
  pose proof (pow2_pos (j + e - t) ltac:(lia)) as P1.
  pose proof (pow2_pos (t + 1074) ltac:(lia)) as P2.
  pose proof (pow2_pos (j + e + 1074) ltac:(lia)) as P3.
  assert (EV : R * 2 ^ (j + e - t) * 2 ^ (t + 1074)
               = R * 2 ^ (j + e + 1074)).
  { rewrite <- Z.mul_assoc, <- pow2_split by lia. f_equal. f_equal. lia. }
  assert (Hneg : j + e < 0).
  { destruct (Z.le_gt_cases 0 (j + e)); [|assumption].
    assert (2 ^ 1074 <= 2 ^ (j + e + 1074))
      by (apply Z.pow_le_mono_r; lia).
    nia. }
  assert (Hu : R * 2 ^ (j + e - t) < 2 ^ (- t)).
  { assert (E : 2 ^ 1074 = 2 ^ (- t) * 2 ^ (t + 1074)).
    { rewrite <- pow2_split by lia. f_equal. lia. }
    rewrite E, <- EV in Hlt. nia. }
  split.
  - unfold in_unit. apply andb_true_iff. split.
    + apply mk_float_valid; try lia.
      intro Hn.
      assert (Et : t = Zdigits2 R + (j + e) - 53)
        by (unfold t, fexp64 in *; lia).
      pose proof (Zdigits2_bounds R HR) as [Hlo _].
      replace (j + e - t) with (53 - Zdigits2 R) by lia.
      assert (2 ^ 52 = 2 ^ (Zdigits2 R - 1) * 2 ^ (53 - Zdigits2 R)).
      { rewrite <- pow2_split by lia. f_equal. lia. }
      pose proof (pow2_pos (53 - Zdigits2 R) ltac:(lia)). nia.
    + rewrite mk_float_finite by lia.
      apply andb_true_iff. split; [apply Z.ltb_lt; lia|].
      apply Z.ltb_lt. rewrite Z2Pos.id by lia. exact Hu.
  - rewrite mk_float_finite by lia. cbn [unit_num].
    rewrite Z2Pos.id by lia. exact EV.
Qed.

Lemma in_unit_cases x :
  in_unit x = true ->
  (exists s, x = S754_zero s) \/
  exists m e, x = S754_finite false m e /\
              bounded PyFloat.prec PyFloat.emax m e = true /\
              -1074 <= e < 0.
Proof.
  unfold in_unit. intro H. apply andb_true_iff in H. destruct H as [Hv Hx].
  destruct x as [s|s| |s m e]; try discriminate; [left; eauto|].
  destruct s; [discriminate|]. right.
  apply andb_true_iff in Hx. destruct Hx as [He _]. apply Z.ltb_lt in He.
  cbn [valid_binary] in Hv. destruct (bounded_spec _ _ Hv) as (Her & _).
  exists m, e. repeat split; try assumption; lia.
Qed.

(** The sum of two doubles in [0, 1) is exact when it is a fraction of
    at most 53 bits. *)
Lemma add_unit_exact x y N n :
  in_unit x = true -> in_unit y = true ->
  0 <= n <= 53 -> 0 <= N < 2 ^ n ->
  unit_num x + unit_num y = N * 2 ^ (1074 - n) ->
  in_unit (PyFloat.add x y) = true /\
  unit_num (PyFloat.add x y) = N * 2 ^ (1074 - n).
Proof.
  intros Hx Hy Hn HN Hsum.
  destruct (in_unit_cases x Hx) as [[s1 ->]|(m1 & e1 & -> & Hb1 & He1)];
    destruct (in_unit_cases y Hy) as [[s2 ->]|(m2 & e2 & -> & Hb2 & He2)].
  - cbn [unit_num] in Hsum. rewrite <- Hsum.
    destruct s1, s2; split; reflexivity.
  - cbn [unit_num Z.add] in Hsum.
    change (PyFloat.add (S754_zero s1) (S754_finite false m2 e2))
      with (S754_finite false m2 e2).
    split; [exact Hy | exact Hsum].
  - cbn [unit_num] in Hsum. rewrite Z.add_0_r in Hsum.
    change (PyFloat.add (S754_finite false m1 e1) (S754_zero s2))
      with (S754_finite false m1 e1).
    split; [exact Hx | exact Hsum].
  - rewrite add_pos. cbn [unit_num] in Hsum.
    set (ez := Z.min e1 e2) in *.
    set (S := Zpos m1 * 2 ^ (e1 - ez) + Zpos m2 * 2 ^ (e2 - ez)).
    pose proof (pow2_pos (e1 - ez) ltac:(unfold ez; lia)) as Q1.
    pose proof (pow2_pos (e2 - ez) ltac:(unfold ez; lia)) as Q2.
    pose proof (pow2_pos (ez + 1074) ltac:(unfold ez; lia)) as Q3.
    pose proof (pow2_pos (1074 - n) ltac:(lia)) as Q4.
    assert (HS : 0 < S) by (unfold S; nia).
    assert (ES : S * 2 ^ (ez + 1074) = N * 2 ^ (1074 - n)).
    { rewrite <- Hsum. unfold S. rewrite Z.mul_add_distr_r.
      rewrite <- !Z.mul_assoc, <- !pow2_split by (unfold ez; lia).
      f_equal; f_equal; f_equal; lia. }
    assert (HN0 : 0 < N) by nia.
    assert (Hlt : N * 2 ^ (1074 - n) < 2 ^ 1074).
    { replace 1074 with (n + (1074 - n)) at 2 by lia.
      rewrite (pow2_split n (1074 - n)) by lia. nia. }
    destruct (Z.le_gt_cases ez (- n)) as [Hle|Hgt].
    + assert (EN : S = N * 2 ^ (- n - ez)).
      { replace (1074 - n) with ((- n - ez) + (ez + 1074)) in ES by lia.
        rewrite (pow2_split (- n - ez) (ez + 1074)), Z.mul_assoc in ES by lia.
        apply Z.mul_reg_r in ES; lia. }
      rewrite EN.
      pose proof (Zdigits2_le N n ltac:(lia)) as HdN.
      pose proof (Zdigits2_pos N HN0) as HdN0.
      destruct (normalize_unit N (- n - ez) ez HN0 ltac:(lia)) as [U V].
      * replace (- n - ez + ez) with (- n) by lia. unfold fexp64. lia.
      * replace (- n - ez + ez + 1074) with (1074 - n) by lia. exact Hlt.
      * split; [exact U|]. rewrite V. f_equal. f_equal. lia.
    + assert (EN : N = S * 2 ^ (ez + n)).
      { replace (ez + 1074) with ((ez + n) + (1074 - n)) in ES by lia.
        rewrite (pow2_split (ez + n) (1074 - n)), Z.mul_assoc in ES by lia.
        apply Z.mul_reg_r in ES; lia. }
      pose proof (pow2_pos (ez + n) ltac:(lia)) as Q5.
      assert (HS53 : S < 2 ^ 53).
      { assert (2 ^ n <= 2 ^ 53) by (apply Z.pow_le_mono_r; lia). nia. }
      pose proof (Zdigits2_le S 53 ltac:(lia)) as HdS.
      destruct (normalize_unit S 0 ez HS ltac:(lia)) as [U V].
      * unfold fexp64. unfold ez in *. lia.
      * rewrite Z.add_0_l, ES. exact Hlt.
      * rewrite Z.pow_0_r, Z.mul_1_r in U, V.
        split; [exact U|]. rewrite V, Z.add_0_l. exact ES.
Qed.

(** The term [val * 2^-n] of a digit is exact. *)
Lemma digit_term_exact val n :
  0 <= val < 2 ^ 53 -> val < 2 ^ n -> 1 <= n <= 1021 ->
  exists fv,
    PyFloat.of_int val = Return fv /\
    in_unit (PyFloat.mul fv (S754_finite false (2 ^ 52) (- n - 52))) = true /\
    unit_num (PyFloat.mul fv (S754_finite false (2 ^ 52) (- n - 52)))
    = val * 2 ^ (1074 - n).
Proof.
  intros Hv Hvn Hn.
  destruct (Z.eq_dec val 0) as [->|N0].
  - exists (S754_zero false). split; [reflexivity|].
    split; reflexivity.
  - rewrite of_int_exact by lia. eexists. split; [reflexivity|].
    pose proof (Zdigits2_pos val ltac:(lia)) as Hd0.
    pose proof (Zdigits2_le val 53 ltac:(lia)) as Hd1.
    pose proof (Zdigits2_le val n ltac:(lia)) as Hd2.
    pose proof (Zdigits2_bounds val ltac:(lia)) as [Hlo Hhi].
    set (d := Zdigits2 val) in *.
    pose proof (pow2_pos (53 - d) ltac:(lia)) as P1.
    set (Q := val * 2 ^ (53 - d)).
    assert (HQ : 2 ^ 52 <= Q < 2 ^ 53).
    { unfold Q. split.
      - replace 52 with ((d - 1) + (53 - d)) by lia.
        rewrite pow2_split by lia. nia.
      - replace 53 with (d + (53 - d)) at 2 by lia.
        rewrite (pow2_split d (53 - d)) by lia. nia. }
    unfold PyFloat.mul, SFmul. cbn [xorb].
    rewrite Pos2Z.inj_mul, Z2Pos.id by lia.
    change (Zpos (2 ^ 52)) with (2 ^ 52). fold Q.
    set (E := d - 53 + (- n - 52)).
    assert (Ed : Zdigits2 (Q * 2 ^ 52) = 105).
    { rewrite Zdigits2_shift by lia.
      assert (Zdigits2 Q = 53); [|lia].
      apply Zdigits2_unique; [|lia]. exact HQ. }
    destruct (round_pos false (Q * 2 ^ 52) E ltac:(lia)) as (_ & _ & ->).
    { rewrite Ed. unfold fexp64, E. lia. }
    rewrite Ed.
    assert (Et : fexp64 (105 + E) = d - n - 53)
      by (unfold fexp64, E; lia).
    rewrite Et. replace (d - n - 53 - E) with 52 by (unfold E; lia).
    rewrite rne_exact by (try apply Z.mod_mul; lia).
    rewrite Z.div_mul by lia.
    pose proof (mk_float_valid false Q (d - n - 53) ltac:(lia)
                  ltac:(lia) ltac:(lia)) as Hval.
    rewrite mk_float_finite in * by lia.
    split.
    + unfold in_unit. rewrite Hval. cbn [andb].
      apply andb_true_iff. split; [apply Z.ltb_lt; lia|].
      apply Z.ltb_lt. rewrite Z2Pos.id by lia.
      replace (- (d - n - 53)) with (n + (53 - d)) by lia.
      rewrite pow2_split by lia. unfold Q. nia.
    + cbn [unit_num]. rewrite Z2Pos.id by lia. unfold Q.
      rewrite <- Z.mul_assoc, <- pow2_split by lia.
      f_equal. f_equal. lia.
Qed.

Lemma fold_digits_Z base s : forall acc,
  Z.of_N (fold_left (fun acc c => acc * base + dv c)%N s acc)
  = fold_left (fun acc c => acc * Z.of_N base + Z.of_N (dv c)) s
      (Z.of_N acc).
Proof.
  induction s as [|c s IH]; intro acc; [reflexivity|].
  cbn [fold_left]. rewrite IH. f_equal. lia.
Qed.

(** The first loop on digits of the base [2^a]: the accumulator is the
    exact fraction as long as it has at most 53 bits. *)
Lemma accumulate_exact a fp : forall i x N,
  1 <= a <= 4 ->
  forallb (valid_digit (Z.to_N (2 ^ a))) fp = true ->
  0 <= i -> a * (i + Z.of_nat (List.length fp)) <= 53 ->
  0 <= N < 2 ^ (a * i) ->
  in_unit x = true -> unit_num x = N * 2 ^ (1074 - a * i) ->
  exists r,
    accumulate (2 ^ a) fp i x = Return r /\ in_unit r = true /\
    unit_num r
    = fold_left (fun acc c => acc * 2 ^ a + Z.of_N (dv c)) fp N
      * 2 ^ (1074 - a * (i + Z.of_nat (List.length fp))).
Proof.
  induction fp as [|c fp IH]; intros i x N Ha Hfp Hi Hlen HN Hx Hv.
  - exists x. cbn [accumulate fold_left List.length Z.of_nat].
    rewrite Z.add_0_r. auto.
  - cbn [forallb] in Hfp. apply andb_true_iff in Hfp.
    destruct Hfp as [Hc Hfp].
    cbn [List.length] in Hlen. rewrite Nat2Z.inj_succ in Hlen.
    pose proof (pow2_pos a ltac:(lia)) as Pa.
    assert (Pa16 : 2 ^ a <= 16).
    { change 16 with (2 ^ 4). apply Z.pow_le_mono_r; lia. }
    assert (Pa2 : 2 <= 2 ^ a).
    { change 2 with (2 ^ 1) at 1. apply Z.pow_le_mono_r; lia. }
    destruct (valid_digit_spec _ _ Hc) as (_ & Hlt & _).
    assert (Hval : 0 <= Z.of_N (dv c) < 2 ^ a) by lia.
    cbn [accumulate].
    assert (Ei : py_int [c] (2 ^ a) = Return (Z.of_N (dv c))).
    { rewrite <- (Z2N.id (2 ^ a)) at 1 by lia.
      rewrite py_int_digit_string;
        [|lia|lia|cbn [is_digit_string forallb]; rewrite Hc; reflexivity].
      unfold digits_value. cbn [fold_left]. f_equal. }
    rewrite Ei. cbn [bind].
    assert (Hn1 : a * (i + 1) <= 53) by nia.
    assert (Hn0 : a <= a * (i + 1)) by nia.
    rewrite pow_neg_pow2 by lia. cbn [bind].
    assert (P53 : 2 ^ a <= 2 ^ (a * (i + 1)))
      by (apply Z.pow_le_mono_r; lia).
    assert (P53' : 2 ^ 4 < 2 ^ 53) by reflexivity.
    destruct (digit_term_exact (Z.of_N (dv c)) (a * (i + 1)))
      as (fv & -> & Tu & Tv); try lia.
    cbn [bind].
    set (term := PyFloat.mul fv _) in *.
    assert (E2 : 2 ^ (1074 - a * i)
                 = 2 ^ a * 2 ^ (1074 - a * (i + 1))).
    { rewrite <- pow2_split by lia. f_equal. lia. }
    assert (E3 : 2 ^ (a * (i + 1)) = 2 ^ (a * i) * 2 ^ a).
    { rewrite <- pow2_split by nia. f_equal. lia. }
    destruct (add_unit_exact x term (N * 2 ^ a + Z.of_N (dv c))
                (a * (i + 1)) Hx Tu ltac:(nia)) as [Su Sv].
    { rewrite E3. nia. }
    { rewrite Hv, Tv, E2. ring. }
    destruct (IH (i + 1) (PyFloat.add x term) (N * 2 ^ a + Z.of_N (dv c))
                Ha Hfp ltac:(lia)) as (r & Hr & Hru & Hrv); try assumption.
    + lia.
    + rewrite E3. nia.
    + exists r. split; [exact Hr|]. split; [exact Hru|].
      rewrite Hrv. cbn [fold_left List.length]. rewrite Nat2Z.inj_succ.
      f_equal. f_equal. f_equal. lia.
Qed.

(** Between the bases 2, 8 and 16: the integer part in the target
    base, the point, and the digits [base_digits] of the fraction
    [fp / B^(length fp)], when that fraction has at most 53 bits. *)
Lemma convert_fraction_base_digits B D ip fp p :
  In B [2; 8; 16] -> In D [2; 8; 16] ->
  is_digit_string (Z.to_N B) ip = true ->
  forallb (valid_digit (Z.to_N B)) fp = true ->
  Z.log2 B * Z.of_nat (List.length fp) <= 53 ->
  Z.of_N (digits_value (Z.to_N B) ip) < 2 ^ 1023 ->
  convert_fraction
    {| cf_number := ip ++ lit "." ++ fp; cf_from_base := B;
       cf_to_base := D; cf_precision := p |}
  = Return (ResultText
              (upper (to_digits (Z.to_N D) (digits_value (Z.to_N B) ip))
               ++ lit "." ++
               List.map digit_symbol
                 (base_digits (Z.to_nat p) D
                    (Z.of_N (digits_value (Z.to_N B) fp)
                     * 2 ^ (1074 - Z.log2 B
                                   * Z.of_nat (List.length fp)))))).
Proof.
  intros HB HD Hip Hfp Hlen Hr.
  assert (HA : exists a, 1 <= a <= 4 /\ B = 2 ^ a /\ Z.log2 B = a).
  { destruct HB as [<-|[<-|[<-|[]]]];
      [exists 1 | exists 3 | exists 4]; repeat split; lia. }
  destruct HA as (a & Ha & EB & EL). rewrite EL in *.
  assert (HBs : supported B).
  { unfold supported. destruct HB as [<-|[<-|[<-|[]]]]; cbn; auto. }
  destruct (supported_range B HBs) as [[B2 B36] EBN].
  pose proof (is_digit_string_forallb _ _ Hip) as Hipf.
  unfold convert_fraction.
  cbn [cf_number cf_from_base cf_to_base cf_precision].
  change (lit "." ++ fp) with (46%N :: fp).
  assert (E1 : replace_comma (ip ++ 46%N :: fp) = ip ++ 46%N :: fp).
  { change (46%N :: fp) with ([46%N] ++ fp). rewrite !replace_comma_app.
    rewrite (replace_comma_digits (Z.to_N B) ip),
      (replace_comma_digits (Z.to_N B) fp) by assumption.
    reflexivity. }
  rewrite E1, has_dot_app, (split_dot_point (Z.to_N B)) by assumption.
  rewrite (split_dot_digits (Z.to_N B) fp) by assumption.
  cbn [nth].
  rewrite <- EBN at 1. rewrite py_int_digit_string by assumption.
  cbn [bind].
  set (n := digits_value (Z.to_N B) ip) in *.
  destruct (accumulate_exact a fp 0 PyFloat.zero 0 Ha) as (df & Hdf & Hu & Hv).
  { rewrite <- EB. exact Hfp. }
  { lia. }
  { rewrite Z.add_0_l. exact Hlen. }
  { rewrite Z.mul_0_r. cbn. lia. }
  { reflexivity. }
  { reflexivity. }
  rewrite <- EB in Hdf, Hv. rewrite Hdf. cbn [bind].
  destruct (of_int_in_range (Z.of_N n) ltac:(lia)) as [fi ->].
  cbn [bind].
  assert (D10 : (D =? 10) = false).
  { destruct HD as [<-|[<-|[<-|[]]]]; reflexivity. }
  rewrite D10.
  rewrite (frac_loop_base_digits D (Z.to_nat p) df [] HD Hu). cbn [bind app].
  assert (EN : unit_num df
               = Z.of_N (digits_value (Z.to_N B) fp)
                 * 2 ^ (1074 - a * Z.of_nat (List.length fp))).
  { rewrite Hv, Z.add_0_l. f_equal. unfold digits_value.
    rewrite fold_digits_Z, EBN. reflexivity. }
  rewrite EN.
  rewrite slice_bin_nonneg, slice_hex_nonneg by lia.
  unfold py_oct. rewrite sign_prefix_nonneg by lia.
  rewrite Zabs2N.id.
  destruct HD as [<-|[<-|[<-|[]]]];
    cbn [Z.eqb Pos.eqb try_except_ValueError app slice_from skipn lit
         list_ascii_of_string List.map Z.to_N];
    rewrite ?(upper_to_digits 2), ?(upper_to_digits 8) by lia; reflexivity.
Qed.

(** ** The digits of a fraction *)

Lemma fold_digits_num D ds : forall acc,
  fold_left (fun acc d => acc * D + d) ds acc
  = acc * D ^ Z.of_nat (List.length ds) + digits_num D ds.
Proof.
  unfold digits_num.
  induction ds as [|d ds IH]; intro acc.
  - cbn. lia.
  - cbn [fold_left List.length]. rewrite IH, (IH (0 * D + d)).
    rewrite Nat2Z.inj_succ, Z.pow_succ_r by lia. ring.
Qed.

Lemma digits_num_cons D d ds :
  digits_num D (d :: ds) = d * D ^ Z.of_nat (List.length ds) + digits_num D ds.
Proof.
  unfold digits_num at 1. cbn [fold_left]. rewrite fold_digits_num. ring.
Qed.

(** [base_digits] gives the digits of the fraction: the number [V] they
    write satisfies [V / D^k <= N / 2^1074 < (V + 1) / D^k] for their
    count [k], with equality on the left when fewer than [n] digits are
    given. *)
Lemma base_digits_spec D n : forall N,
  1 <= D -> 0 <= N < 2 ^ 1074 ->
  Forall (fun d => 0 <= d < D) (base_digits n D N) /\
  (List.length (base_digits n D N) <= n)%nat /\
  digits_num D (base_digits n D N) * 2 ^ 1074
  <= N * D ^ Z.of_nat (List.length (base_digits n D N))
  < (digits_num D (base_digits n D N) + 1) * 2 ^ 1074 /\
  ((List.length (base_digits n D N) < n)%nat ->
   digits_num D (base_digits n D N) * 2 ^ 1074
   = N * D ^ Z.of_nat (List.length (base_digits n D N))).
Proof.
  pose proof (pow2_pos 1074 ltac:(lia)) as P.
  induction n as [|n IH]; intros N HD HN.
  - cbn. split; [constructor|]. split; [lia|]. split; [lia|]. lia.
  - cbn [base_digits].
    pose proof (Z.div_mod (D * N) (2 ^ 1074) ltac:(lia)) as DM.
    pose proof (Z.mod_pos_bound (D * N) (2 ^ 1074) P) as MB.
    set (d := D * N / 2 ^ 1074) in *.
    set (N' := (D * N) mod 2 ^ 1074) in *.
    assert (Hd : 0 <= d < D).
    { split; [apply Z.div_pos; nia|].
      apply Z.div_lt_upper_bound; [lia | nia]. }
    destruct (Z.eqb_spec N' 0) as [E0|N0].
    + cbn [List.length Z.of_nat]. rewrite digits_num_cons.
      cbn [List.length Z.of_nat digits_num fold_left].
      change (Z.of_nat 1) with 1. rewrite !Z.pow_0_r, !Z.pow_1_r.
      split; [constructor; [exact Hd | constructor]|].
      split; [lia|]. split; [nia|]. intros _. nia.
    + destruct (IH N' HD MB) as (F & L & [V1 V2] & Ex).
      set (ds := base_digits n D N') in *.
      cbn [List.length]. rewrite digits_num_cons, Nat2Z.inj_succ.
      rewrite Z.pow_succ_r by lia.
      set (k := D ^ Z.of_nat (List.length ds)) in *.
      assert (Pk : 0 < k) by (unfold k; apply Z.pow_pos_nonneg; lia).
      assert (EN : N * (D * k) = d * k * 2 ^ 1074 + N' * k) by nia.
      split; [constructor; assumption|].
      split; [lia|]. split; [nia|].
      intro Hl. specialize (Ex ltac:(lia)). nia.
Qed.

(** X25: for the targets 2, 8 and 16 the digit loop is exact.  From an
    accumulator [x] in [0, 1) it appends the true digits of [x] in the
    target base: the number [V] written by the [k] appended digits
    satisfies [V / D^k <= x < (V + 1) / D^k] (with [x] as
    [unit_num x / 2^1074]), and [V / D^k = x] when the loop ends before
    its [n] iterations. *)
Theorem frac_loop_exact D n x res_frac :
  In D [2; 8; 16] -> in_unit x = true ->
  exists ds,
    frac_loop n D res_frac x
    = Return (res_frac ++ List.map digit_symbol ds) /\
    Forall (fun d => 0 <= d < D) ds /\ (List.length ds <= n)%nat /\
    digits_num D ds * 2 ^ 1074
    <= unit_num x * D ^ Z.of_nat (List.length ds)
    < (digits_num D ds + 1) * 2 ^ 1074 /\
    ((List.length ds < n)%nat ->
     digits_num D ds * 2 ^ 1074
     = unit_num x * D ^ Z.of_nat (List.length ds)).
Proof.
  intros HD Hx. exists (base_digits n D (unit_num x)).
  split; [apply frac_loop_base_digits; assumption|].
  destruct (in_unit_num x Hx) as [HN _].
  apply base_digits_spec; [|exact HN].
  destruct HD as [<-|[<-|[<-|[]]]]; lia.
Qed.

Lemma frac_loop_exact_witness :
  exists ds,
    frac_loop 4 16 [] float_half = Return ([] ++ List.map digit_symbol ds) /\
    Forall (fun d => 0 <= d < 16) ds /\ (List.length ds <= 4)%nat /\
    digits_num 16 ds * 2 ^ 1074
    <= unit_num float_half * 16 ^ Z.of_nat (List.length ds)
    < (digits_num 16 ds + 1) * 2 ^ 1074 /\
    ((List.length ds < 4)%nat ->
     digits_num 16 ds * 2 ^ 1074
     = unit_num float_half * 16 ^ Z.of_nat (List.length ds)).
Proof.
  apply (frac_loop_exact 16 4 float_half []); [cbn; auto | reflexivity].
Defined.

(** X26: between the bases 2, 8 and 16 the conversion is exact.  For
    digits of the base [B] with a fraction part [fp] of at most 53 bits
    ([log2 B] bits a digit) and an integer part below [2^1023], the
    answer is the integer part in the target base, the point, and the
    true digits of the fraction [F / B^j] ([F] the value and [j] the
    length of [fp]) in the target base: the number [V] written by the
    [k] fraction digits satisfies [V / D^k <= F / B^j < (V + 1) / D^k],
    with equality when there are fewer than [precision] of them. *)
Theorem convert_fraction_exact B D ip fp p :
  In B [2; 8; 16] -> In D [2; 8; 16] ->
  is_digit_string (Z.to_N B) ip = true ->
  forallb (valid_digit (Z.to_N B)) fp = true ->
  Z.log2 B * Z.of_nat (List.length fp) <= 53 ->
  Z.of_N (digits_value (Z.to_N B) ip) < 2 ^ 1023 ->
  exists ds,
    convert_fraction
      {| cf_number := ip ++ lit "." ++ fp; cf_from_base := B;
         cf_to_base := D; cf_precision := p |}
    = Return (ResultText
                (upper (to_digits (Z.to_N D) (digits_value (Z.to_N B) ip))
                 ++ lit "." ++ List.map digit_symbol ds)) /\
    Forall (fun d => 0 <= d < D) ds /\
    (List.length ds <= Z.to_nat p)%nat /\
    digits_num D ds * B ^ Z.of_nat (List.length fp)
    <= Z.of_N (digits_value (Z.to_N B) fp) * D ^ Z.of_nat (List.length ds)
    < (digits_num D ds + 1) * B ^ Z.of_nat (List.length fp) /\
    ((List.length ds < Z.to_nat p)%nat ->
     digits_num D ds * B ^ Z.of_nat (List.length fp)
     = Z.of_N (digits_value (Z.to_N B) fp)
       * D ^ Z.of_nat (List.length ds)).
Proof.
  intros HB HD Hip Hfp Hlen Hr.
  eexists. split;
    [apply (convert_fraction_base_digits B D ip fp p); assumption|].
  assert (HA : exists a, 1 <= a <= 4 /\ B = 2 ^ a /\ Z.log2 B = a).
  { destruct HB as [<-|[<-|[<-|[]]]];
      [exists 1 | exists 3 | exists 4]; repeat split; lia. }
  destruct HA as (a & Ha & EB & EL). rewrite EL in *.
  set (j := Z.of_nat (List.length fp)) in *.
  assert (Hj : 0 <= j) by (unfold j; lia).
  set (F := Z.of_N (digits_value (Z.to_N B) fp)).
  assert (HF : 0 <= F < 2 ^ (a * j)).
  { unfold F, digits_value.
    pose proof (fold_digits_bound (Z.to_N B) fp 0%N) as Hb.
    rewrite N.add_0_l, N.mul_1_l in Hb.
    assert (B2 : (1 <= Z.to_N B)%N)
      by (destruct HB as [<-|[<-|[<-|[]]]]; cbn; lia).
    specialize (Hb B2 Hfp).
    split; [lia|].
    rewrite Z.pow_mul_r, <- EB by lia.
    apply N2Z.inj_lt in Hb. rewrite N2Z.inj_pow, Z2N.id in Hb;
      [|destruct HB as [<-|[<-|[<-|[]]]]; lia].
    unfold j. rewrite <- nat_N_Z. exact Hb. }
  assert (EBj : B ^ j = 2 ^ (a * j)) by (rewrite EB, Z.pow_mul_r; lia).
  rewrite EBj.
  pose proof (pow2_pos (a * j) ltac:(nia)) as Paj.
  pose proof (pow2_pos (1074 - a * j) ltac:(nia)) as Pr.
  assert (E1074 : 2 ^ 1074 = 2 ^ (a * j) * 2 ^ (1074 - a * j)).
  { rewrite <- pow2_split by nia. f_equal. lia. }
  assert (HN : 0 <= F * 2 ^ (1074 - a * j) < 2 ^ 1074)
    by (rewrite E1074; nia).
  assert (D1 : 1 <= D) by (destruct HD as [<-|[<-|[<-|[]]]]; lia).
  destruct (base_digits_spec D (Z.to_nat p) _ D1 HN)
    as (HFa & HL & [V1 V2] & Ex).
  set (ds := base_digits (Z.to_nat p) D (F * 2 ^ (1074 - a * j))) in *.
  set (V := digits_num D ds) in *.
  set (K := D ^ Z.of_nat (List.length ds)) in *.
  rewrite E1074 in V1, V2, Ex.
  split; [exact HFa|]. split; [exact HL|]. split; [split|].
  - apply (Z.mul_le_mono_pos_r _ _ (2 ^ (1074 - a * j))); [lia|]. nia.
  - apply (Z.mul_lt_mono_pos_r (2 ^ (1074 - a * j))); [lia|]. nia.
  - intro Hl. specialize (Ex Hl).
    apply (Z.mul_reg_r _ _ (2 ^ (1074 - a * j))); [lia|]. nia.
Qed.

Lemma convert_fraction_exact_witness :
  exists ds,
    convert_fraction
      {| cf_number := lit "A" ++ lit "." ++ lit "8"; cf_from_base := 16;
         cf_to_base := 2; cf_precision := 5 |}
    = Return (ResultText
                (upper (to_digits (Z.to_N 2)
                          (digits_value (Z.to_N 16) (lit "A")))
                 ++ lit "." ++ List.map digit_symbol ds)) /\
    Forall (fun d => 0 <= d < 2) ds /\
    (List.length ds <= Z.to_nat 5)%nat /\
    digits_num 2 ds * 16 ^ Z.of_nat (List.length (lit "8"))
    <= Z.of_N (digits_value (Z.to_N 16) (lit "8"))
       * 2 ^ Z.of_nat (List.length ds)
    < (digits_num 2 ds + 1) * 16 ^ Z.of_nat (List.length (lit "8")) /\
    ((List.length ds < Z.to_nat 5)%nat ->
     digits_num 2 ds * 16 ^ Z.of_nat (List.length (lit "8"))
     = Z.of_N (digits_value (Z.to_N 16) (lit "8"))
       * 2 ^ Z.of_nat (List.length ds)).
Proof.
  apply (convert_fraction_exact 16 2 (lit "A") (lit "8") 5);
    [cbn; auto | cbn; auto | reflexivity | reflexivity
     | vm_compute; discriminate | vm_compute; reflexivity].
Defined.

End ExactDigits.
